(** * gitSim: a shallow embedding of [gitSim.py]

    The script walks a range of calendar days, draws at random whether and how
    often to commit on each day, appends a line to an activity file for every
    commit and runs [git add] / [git commit] with a forced date.  When a
    repository URL is configured it afterwards creates a branch, pushes it,
    opens a pull request through the forge API and posts a review comment.

    The embedding is a state-and-exception monad over a [World] that holds
    what the script reads (file system, configured remotes, process
    environment, clock, random source, the outcome of every external call)
    and a [trace] of everything it does (commands run, file writes, log
    lines, forge API calls). *)

From Stdlib Require Import ZArith List String Ascii Bool Lia.
Import ListNotations.

Declare Scope pystr_scope.
Delimit Scope pystr_scope with py.
Infix "@@" := String.append (right associativity, at level 60) : pystr_scope.
Local Open Scope string_scope.
Local Open Scope pystr_scope.
Local Open Scope list_scope.
Local Open Scope Z_scope.

(* ------------------------------------------------------------------ *)
(** ** Python [str] operations used by the script

    A [str] is modelled by [string]; its characters are the code points
    below 256. *)

Module PyStr.

(** [s.startswith(p)] *)
Definition startswith (s p : string) : bool := String.prefix p s.

(** [s[n:]] for [n >= 0] *)
Fixpoint drop (n : nat) (s : string) : string :=
  match n, s with
  | O, _ => s
  | S _, EmptyString => EmptyString
  | S k, String _ r => drop k r
  end.

(** [s[:n]] for [n >= 0] *)
Fixpoint take (n : nat) (s : string) : string :=
  match n, s with
  | O, _ => EmptyString
  | S _, EmptyString => EmptyString
  | S k, String c r => String c (take k r)
  end.

(** [s.endswith(suffix)] *)
Definition endswith (s suffix : string) : bool :=
  (String.length suffix <=? String.length s)%nat
  && String.eqb (drop (String.length s - String.length suffix) s) suffix.

(** [s[:-k]] for [k > 0] *)
Definition drop_last (k : nat) (s : string) : string :=
  take (String.length s - k) s.

(** [needle in s] *)
Fixpoint contains (needle s : string) : bool :=
  String.prefix needle s
  || match s with
     | EmptyString => false
     | String _ r => contains needle r
     end.

(** [c.isspace()] for a code point below 256. *)
Definition isspace (c : ascii) : bool :=
  let n := nat_of_ascii c in
  ((9 <=? n) && (n <=? 13) || (28 <=? n) && (n <=? 32)
   || (n =? 133) || (n =? 160))%nat.

Fixpoint lstrip (s : string) : string :=
  match s with
  | EmptyString => EmptyString
  | String c r => if isspace c then lstrip r else s
  end.

Fixpoint rstrip (s : string) : string :=
  match s with
  | EmptyString => EmptyString
  | String c r =>
      let r' := rstrip r in
      if isspace c && String.eqb r' EmptyString then EmptyString
      else String c r'
  end.

(** [s.strip()] *)
Definition strip (s : string) : string := rstrip (lstrip s).

(** [''.join(parts)] *)
Fixpoint join (parts : list string) : string :=
  match parts with
  | [] => EmptyString
  | p :: rest => p @@ join rest
  end.

(** The line feed character as a [str]. *)
Definition LF : string := String (ascii_of_nat 10) EmptyString.

(** The decimal digit of [n] in [0..9]. *)
Definition digit (n : Z) : string :=
  String (ascii_of_nat (48 + Z.to_nat n)) EmptyString.

(** ["%02d" % n] for [0 <= n <= 99] and ["%04d" % n] for [0 <= n <= 9999]. *)
Definition pad2 (n : Z) : string := digit (n / 10 mod 10) @@ digit (n mod 10).
Definition pad4 (n : Z) : string :=
  digit (n / 1000 mod 10) @@ digit (n / 100 mod 10) @@ pad2 n.

(** [str(n)] for an integer. *)
Fixpoint digits (fuel : nat) (n : Z) (acc : string) : string :=
  match fuel with
  | O => acc
  | S k =>
      if n <? 10 then digit n @@ acc
      else digits k (n / 10) (digit (n mod 10) @@ acc)
  end.

Definition str_int (n : Z) : string :=
  if n <? 0 then "-" @@ digits (S (Z.to_nat (Z.log2 (- n)))) (- n) ""
  else digits (S (Z.to_nat (Z.log2 n))) n "".

End PyStr.

(* ------------------------------------------------------------------ *)
(** ** [datetime]

    A [datetime.date] is modelled by its proleptic Gregorian ordinal
    ([date.toordinal()], 1 for 0001-01-01): comparison, [weekday()] and
    arithmetic with a [timedelta] are defined by CPython on the ordinal. *)

Module PyDate.

Definition date := Z.

Definition MAXORDINAL : Z := 3652059.   (* date(9999, 12, 31).toordinal() *)

(** [d.weekday()]: Monday is 0, Sunday is 6. *)
Definition weekday (d : date) : Z := (d + 6) mod 7.

(** The ordinal of [d + timedelta(days=n)] when it is a valid date;
    [None] stands for [OverflowError]. *)
Definition add_days (d : date) (n : Z) : option date :=
  let o := d + n in
  if (0 <? o) && (o <=? MAXORDINAL) then Some o else None.

Definition DAYS_IN_MONTH (m : Z) : Z :=
  nth (Z.to_nat m) [-1; 31; 28; 31; 30; 31; 30; 31; 31; 30; 31; 30; 31] 0.

Definition DAYS_BEFORE_MONTH (m : Z) : Z :=
  nth (Z.to_nat m) [-1; 0; 31; 59; 90; 120; 151; 181; 212; 243; 273; 304; 334] 0.

Definition b2z (b : bool) : Z := if b then 1 else 0.

(** [_ord2ymd]: ordinal to (year, month, day). *)
Definition ord2ymd (ordinal : Z) : Z * Z * Z :=
  let n := ordinal - 1 in
  let n400 := n / 146097 in
  let n := n mod 146097 in
  let year := n400 * 400 + 1 in
  let n100 := n / 36524 in
  let n := n mod 36524 in
  let n4 := n / 1461 in
  let n := n mod 1461 in
  let n1 := n / 365 in
  let n := n mod 365 in
  let year := year + n100 * 100 + n4 * 4 + n1 in
  if (n1 =? 4) || (n100 =? 4) then (year - 1, 12, 31)
  else
    let leapyear := (n1 =? 3) && (negb (n4 =? 24) || (n100 =? 3)) in
    let month := Z.shiftr (n + 50) 5 in
    let preceding := DAYS_BEFORE_MONTH month + b2z ((2 <? month) && leapyear) in
    if n <? preceding then
      let month := month - 1 in
      let preceding :=
        preceding - (DAYS_IN_MONTH month + b2z ((month =? 2) && leapyear)) in
      (year, month, n - preceding + 1)
    else (year, month, n - preceding + 1).

Record time := { hour : Z; minute : Z; second : Z }.

Record datetime := { dt_date : date; dt_time : time }.

(** [datetime.datetime.combine(d, t)] *)
Definition combine (d : date) (t : time) : datetime :=
  {| dt_date := d; dt_time := t |}.

Import PyStr.

Definition fmt_date (d : date) : string :=
  let '(y, m, dd) := ord2ymd d in pad4 y @@ "-" @@ pad2 m @@ "-" @@ pad2 dd.

Definition fmt_time (t : time) : string :=
  pad2 (hour t) @@ ":" @@ pad2 (minute t) @@ ":" @@ pad2 (second t).

(** [dt.isoformat()] for a naive datetime whose microsecond is 0. *)
Definition isoformat (dt : datetime) : string :=
  fmt_date (dt_date dt) @@ "T" @@ fmt_time (dt_time dt).

(** [str(dt)], that is [dt.isoformat(sep=' ')]. *)
Definition str_datetime (dt : datetime) : string :=
  fmt_date (dt_date dt) @@ " " @@ fmt_time (dt_time dt).

(** [dt.strftime('%Y-%m-%d %H:%M:%S')], the year as the library documents
    [%Y]: four digits. *)
Definition strftime_ymd_hms (dt : datetime) : string :=
  fmt_date (dt_date dt) @@ " " @@ fmt_time (dt_time dt).

(** [dt.strftime('%Y%m%d_%H%M%S')] *)
Definition strftime_compact (dt : datetime) : string :=
  let '(y, m, dd) := ord2ymd (dt_date dt) in
  let t := dt_time dt in
  pad4 y @@ pad2 m @@ pad2 dd @@ "_"
  @@ pad2 (hour t) @@ pad2 (minute t) @@ pad2 (second t).

End PyDate.

(* ------------------------------------------------------------------ *)
(** ** The world the script runs in *)

Module Sim.

Import PyStr PyDate.

(** The exceptions that occur.  [SystemExit] is not an [Exception]. *)
Inductive exn :=
| CalledProcessError (argv : list string) (status : Z)
| ValueError
| OverflowError
| GithubException (status : Z)
| SystemExit (text : string).

Definition is_Exception (e : exn) : bool :=
  match e with SystemExit _ => false | _ => true end.

Definition is_CalledProcessError (e : exn) : bool :=
  match e with CalledProcessError _ _ => true | _ => false end.

(** What the environment answers to one external call (a command or a
    forge API request). *)
Inductive outcome := Done | Failed (status : Z).

Inductive level := INFO | ERROR.

Inductive api_call :=
| GetRepo (token full_name : string)
| CreatePull (full_name title body head base : string)
| CreateReview (pr_number : Z) (body event : string).

(** One observable action.  [Exec argv env ok]: [subprocess.run(argv)], with
    [env] the environment given to it ([None]: inherited) and [ok] whether it
    exited with status 0.  [Log lvl msg exc]: a log line, [msg] followed by
    [str(exc)] when an exception is interpolated at its end. *)
Inductive event :=
| Exec (argv : list string) (env : option (list (string * string))) (ok : bool)
| FileWrite (path text : string)
| FileAppend (path text : string)
| Log (lvl : level) (msg : string) (exc : option exn)
| Api (call : api_call) (ok : bool).

(** A commit as git records it. *)
Record commit := {
  author_date : option string;      (* GIT_AUTHOR_DATE it was made under *)
  committer_date : option string;   (* GIT_COMMITTER_DATE it was made under *)
  message : string
}.

(** The random source is the list of the raw draws to come, every later draw
    being 0; the outcomes of the external calls to come are listed likewise,
    every later call succeeding.  A run only reads finitely many of either. *)
Record World := {
  fs : list (string * string);        (* path, content *)
  remotes : list (string * string);   (* git remotes: name, url *)
  commits : list commit;              (* commits made, oldest first *)
  environ : list (string * string);   (* os.environ *)
  today : date;                       (* what date.today() returns *)
  now : datetime;                     (* what datetime.now() returns *)
  rand : list Z;                      (* the random source: raw draws to come *)
  outcomes : list outcome;            (* outcomes of the external calls to come *)
  forge_pr_number : Z;                (* number the forge gives a new pull request *)
  trace : list event                  (* actions so far, oldest first *)
}.

Definition with_fs (f : list (string * string)) (w : World) : World :=
  {| fs := f; remotes := remotes w; commits := commits w; environ := environ w;
     today := today w; now := now w; rand := rand w; outcomes := outcomes w;
     forge_pr_number := forge_pr_number w; trace := trace w |}.

Definition with_remotes (r : list (string * string)) (w : World) : World :=
  {| fs := fs w; remotes := r; commits := commits w; environ := environ w;
     today := today w; now := now w; rand := rand w; outcomes := outcomes w;
     forge_pr_number := forge_pr_number w; trace := trace w |}.

Definition with_commits (c : list commit) (w : World) : World :=
  {| fs := fs w; remotes := remotes w; commits := c; environ := environ w;
     today := today w; now := now w; rand := rand w; outcomes := outcomes w;
     forge_pr_number := forge_pr_number w; trace := trace w |}.

Definition with_rand (r : list Z) (w : World) : World :=
  {| fs := fs w; remotes := remotes w; commits := commits w; environ := environ w;
     today := today w; now := now w; rand := r; outcomes := outcomes w;
     forge_pr_number := forge_pr_number w; trace := trace w |}.

Definition with_outcomes (o : list outcome) (w : World) : World :=
  {| fs := fs w; remotes := remotes w; commits := commits w; environ := environ w;
     today := today w; now := now w; rand := rand w; outcomes := o;
     forge_pr_number := forge_pr_number w; trace := trace w |}.

Definition with_trace (t : list event) (w : World) : World :=
  {| fs := fs w; remotes := remotes w; commits := commits w; environ := environ w;
     today := today w; now := now w; rand := rand w; outcomes := outcomes w;
     forge_pr_number := forge_pr_number w; trace := t |}.

Definition emit (e : event) (w : World) : World := with_trace (trace w ++ [e]) w.

(** *** Dictionaries as association lists *)

Fixpoint lookup (k : string) (d : list (string * string)) : option string :=
  match d with
  | [] => None
  | (k', v) :: r => if String.eqb k k' then Some v else lookup k r
  end.

(** [d[k] = v] *)
Fixpoint setitem (d : list (string * string)) (k v : string) : list (string * string) :=
  match d with
  | [] => [(k, v)]
  | (k', v') :: r => if String.eqb k k' then (k, v) :: r else (k', v') :: setitem r k v
  end.

(** The content of the file at [path]; empty when there is none. *)
Definition read_file (path : string) (w : World) : string :=
  match lookup path (fs w) with Some c => c | None => "" end.

(** *** The monad: state, exceptions, and a fuel bound for the [while] loop *)

Inductive result (A : Type) :=
| Ok (a : A)
| Raise (e : exn)
| OutOfFuel.
Arguments Ok {A} a.
Arguments Raise {A} e.
Arguments OutOfFuel {A}.

Definition M (A : Type) : Type := World -> result A * World.

Definition ret {A} (a : A) : M A := fun w => (Ok a, w).

Definition bind {A B} (m : M A) (k : A -> M B) : M B :=
  fun w =>
    match m w with
    | (Ok a, w') => k a w'
    | (Raise e, w') => (Raise e, w')
    | (OutOfFuel, w') => (OutOfFuel, w')
    end.

Definition raise {A} (e : exn) : M A := fun w => (Raise e, w).

(** [try: body  except <catches> as e: handler e] *)
Definition try_except {A} (body : M A) (catches : exn -> bool) (handler : exn -> M A) : M A :=
  fun w =>
    match body w with
    | (Raise e, w') => if catches e then handler e w' else (Raise e, w')
    | r => r
    end.

Notation "x <- m ;; k" := (bind m (fun x => k))
  (at level 61, m at next level, right associativity).
Notation "m ;; k" := (bind m (fun _ => k))
  (at level 61, right associativity).

(** [for _ in range(n): body] *)
Fixpoint for_range (n : nat) (body : M unit) : M unit :=
  match n with
  | O => ret tt
  | S k => body ;; for_range k body
  end.

(** *** Primitives *)

Definition logging_info (msg : string) : M unit :=
  fun w => (Ok tt, emit (Log INFO msg None) w).

Definition logging_error (msg : string) (exc : option exn) : M unit :=
  fun w => (Ok tt, emit (Log ERROR msg exc) w).

(** [os.path.exists(path)] *)
Definition path_exists (path : string) : M bool :=
  fun w => (Ok (existsb (String.eqb path) (map fst (fs w))), w).

(** [with open(path, "w") as f: f.write(text)] *)
Definition file_write (path text : string) : M unit :=
  fun w => (Ok tt, emit (FileWrite path text) (with_fs (setitem (fs w) path text) w)).

(** [with open(path, "a") as f: f.write(text)] *)
Definition file_append (path text : string) : M unit :=
  fun w =>
    (Ok tt, emit (FileAppend path text)
              (with_fs (setitem (fs w) path (read_file path w @@ text)) w)).

(** [os.environ.copy()] and [os.getenv(name)] *)
Definition os_environ_copy : M (list (string * string)) :=
  fun w => (Ok (environ w), w).

Definition os_getenv (name : string) : M (option string) :=
  fun w => (Ok (lookup name (environ w)), w).

Definition date_today : M date := fun w => (Ok (today w), w).
Definition datetime_now : M datetime := fun w => (Ok (now w), w).

(** [d + timedelta(days=n)] *)
Definition date_plus (d : date) (n : Z) : M date :=
  match add_days d n with
  | Some d' => ret d'
  | None => raise OverflowError
  end.

(** [datetime.time(h, m, s)] *)
Definition mk_time (h m s : Z) : M time :=
  if (0 <=? h) && (h <=? 23) && (0 <=? m) && (m <=? 59) && (0 <=? s) && (s <=? 59)
  then ret {| hour := h; minute := m; second := s |}
  else raise ValueError.

(** The value [random.randint(a, b)] makes of the raw draw [r]. *)
Definition randint_of (a b r : Z) : Z := a + r mod (b - a + 1).

(** [random.randint(a, b)]: [ValueError] on an empty range, else one draw. *)
Definition randint (a b : Z) : M Z :=
  fun w =>
    if b <? a then (Raise ValueError, w)
    else (Ok (randint_of a b (hd 0 (rand w))), with_rand (tl (rand w)) w).

(** [random.choice([True, False])]: the element at index [r mod 2]. *)
Definition choice_true_false : M bool :=
  fun w => (Ok (nth (Z.to_nat (hd 0 (rand w) mod 2)) [true; false] true),
            with_rand (tl (rand w)) w).

(** The part of the world git owns. *)
Record Repo := {
  r_fs : list (string * string);
  r_remotes : list (string * string);
  r_commits : list commit
}.

Definition repo_of (w : World) : Repo :=
  {| r_fs := fs w; r_remotes := remotes w; r_commits := commits w |}.

Definition with_repo (g : Repo) (w : World) : World :=
  with_fs (r_fs g) (with_remotes (r_remotes g) (with_commits (r_commits g) w)).

(** What git does with a command it accepts, run under the environment [env]:
    its standard output and the new repository state; [inr status] when git
    refuses the command in this state. *)
Definition git_effect (argv : list string) (env : list (string * string)) (g : Repo)
  : (string * Repo) + Z :=
  match argv with
  | ["git"; "init"] =>
      inl ("", if existsb (String.eqb ".git") (map fst (r_fs g)) then g
               else {| r_fs := r_fs g ++ [(".git", "")];
                       r_remotes := r_remotes g; r_commits := r_commits g |})
  | ["git"; "remote"] =>
      inl (join (map (fun r => fst r @@ LF) (r_remotes g)), g)
  | ["git"; "remote"; "add"; name; url] =>
      if existsb (String.eqb name) (map fst (r_remotes g)) then inr 3
      else inl ("", {| r_fs := r_fs g;
                       r_remotes := r_remotes g ++ [(name, url)];
                       r_commits := r_commits g |})
  | ["git"; "config"; "--get"; "remote.origin.url"] =>
      match lookup "origin" (r_remotes g) with
      | Some url => inl (url @@ LF, g)
      | None => inr 1
      end
  | ["git"; "commit"; "-m"; msg] =>
      inl ("", {| r_fs := r_fs g; r_remotes := r_remotes g;
                  r_commits :=
                    r_commits g ++ [{| author_date := lookup "GIT_AUTHOR_DATE" env;
                                       committer_date := lookup "GIT_COMMITTER_DATE" env;
                                       message := msg |}] |})
  | _ => inl ("", g)
  end.

(** [subprocess.run(argv, env=env, check=check, capture_output=True, text=True)]:
    the pair of "exit status is 0" and the standard output. *)
Definition run (argv : list string) (env : option (list (string * string))) (check : bool)
  : M (bool * string) :=
  fun w =>
    let w1 := with_outcomes (tl (outcomes w)) w in
    let fail (status : Z) :=
      let w2 := emit (Exec argv env false) w1 in
      if check then (Raise (CalledProcessError argv status), w2)
      else (Ok (false, ""), w2) in
    match hd Done (outcomes w) with
    | Failed status => fail status
    | Done =>
        match git_effect argv (match env with Some e => e | None => environ w end)
                (repo_of w) with
        | inl (out, g) => (Ok (true, out), emit (Exec argv env true) (with_repo g w1))
        | inr status => fail status
        end
    end.

(** [pr.number] of the pull request just created. *)
Definition forge_number : M Z := fun w => (Ok (forge_pr_number w), w).

(** One request to the forge API. *)
Definition api (c : api_call) : M unit :=
  fun w =>
    let w1 := with_outcomes (tl (outcomes w)) w in
    match hd Done (outcomes w) with
    | Done => (Ok tt, emit (Api c true) w1)
    | Failed status => (Raise (GithubException status), emit (Api c false) w1)
    end.

(* ------------------------------------------------------------------ *)
(** ** The script *)

(** The namespace [parse_args] returns. *)
Record Args := {
  repository : option string;
  max_commits : Z;
  frequency : Z;
  no_weekends : bool;
  days_before : Z;
  days_after : Z;
  file : string
}.

(** Truth value of an optional [str]: [None] and [""] are false. *)
Definition truthy (s : option string) : bool :=
  match s with
  | Some t => negb (String.eqb t "")
  | None => false
  end.

Definition init_repo : M unit :=
  e <- path_exists ".git" ;;
  if negb e then
    _ <- run ["git"; "init"] None true ;;
    logging_info "Initialized a new git repository."
  else
    logging_info "Git repository already initialized.".

Definition set_remote (remote_url : string) : M unit :=
  result <- run ["git"; "remote"] None false ;;
  if negb (contains "origin" (snd result)) then
    _ <- run ["git"; "remote"; "add"; "origin"; remote_url] None true ;;
    logging_info ("Set remote origin to " @@ remote_url @@ ".")
  else
    logging_info "Remote origin already set.".

(** The activity line, the environment and the message of the commit made at
    [commit_time]. *)
Definition activity_line (commit_time : datetime) : string :=
  "Update at " @@ str_datetime commit_time @@ LF.

Definition commit_env (environ0 : list (string * string)) (commit_time : datetime)
  : list (string * string) :=
  let iso_date := isoformat commit_time in
  setitem (setitem environ0 "GIT_AUTHOR_DATE" iso_date) "GIT_COMMITTER_DATE" iso_date.

Definition commit_message (commit_time : datetime) : string :=
  "Automated commit on " @@ strftime_ymd_hms commit_time.

(** The body of [for _ in range(num_commits)] in [simulate_commits]. *)
Definition commit_once (file_path : string) (current_date : date) : M unit :=
  h <- randint 0 23 ;;
  m <- randint 0 59 ;;
  s <- randint 0 59 ;;
  t <- mk_time h m s ;;
  let commit_time := combine current_date t in
  file_append file_path (activity_line commit_time) ;;
  environ0 <- os_environ_copy ;;
  let env := commit_env environ0 commit_time in
  _ <- run ["git"; "add"; file_path] (Some env) true ;;
  let commit_msg := commit_message commit_time in
  _ <- run ["git"; "commit"; "-m"; commit_msg] (Some env) true ;;
  logging_info ("Committed: " @@ commit_msg).

(** The body of the [while] loop of [simulate_commits] up to the increment of
    [current_date], which both of its paths end with. *)
Definition one_day (args : Args) (current_date : date) : M unit :=
  if no_weekends args && (5 <=? weekday current_date) then ret tt
  else
    draw <- randint 1 100 ;;
    if draw <=? frequency args then
      num_commits <- randint 1 (max_commits args) ;;
      for_range (Z.to_nat num_commits) (commit_once (file args) current_date)
    else ret tt.

(** [while current_date <= end_date: ...]; [fuel] bounds the iterations. *)
Fixpoint walk (fuel : nat) (args : Args) (end_date current_date : date) : M unit :=
  match fuel with
  | O => fun w => (OutOfFuel, w)
  | S fuel' =>
      if current_date <=? end_date then
        one_day args current_date ;;
        next <- date_plus current_date 1 ;;
        walk fuel' args end_date next
      else ret tt
  end.

(** The first lines of [simulate_commits]: create the file if it doesn't exist. *)
Definition open_activity_file (file_path : string) : M unit :=
  e <- path_exists file_path ;;
  if negb e then
    file_write file_path ("Activity Log" @@ LF) ;;
    logging_info ("Created file " @@ file_path @@ ".")
  else
    logging_info ("Using existing file " @@ file_path @@ ".").

Definition simulate_commits (args : Args) : M unit :=
  open_activity_file (file args) ;;
  today <- date_today ;;
  start_date <- date_plus today (- days_before args) ;;
  end_date <- date_plus today (days_after args) ;;
  walk (S (Z.to_nat (end_date - start_date + 1))) args end_date start_date.

(** [None] is Python's [None]. *)
Definition get_github_repo_name_from_remote : M (option string) :=
  try_except
    (result <- run ["git"; "config"; "--get"; "remote.origin.url"] None true ;;
     let remote_url := strip (snd result) in
     let remote_url :=
       if startswith remote_url "git@github.com:"
       then drop (String.length "git@github.com:") remote_url
       else if startswith remote_url "https://github.com/"
       then drop (String.length "https://github.com/") remote_url
       else remote_url in
     let remote_url :=
       if endswith remote_url ".git"
       then drop_last (String.length ".git") remote_url
       else remote_url in
     logging_info ("Determined GitHub repo name: " @@ remote_url) ;;
     ret (Some remote_url))
    is_Exception
    (fun e => logging_error "Error getting GitHub repo name: " (Some e) ;; ret None).

(** [cwd=repo_path] is the current directory, where every command runs. *)
Definition create_new_branch (branch_name : string) : M unit :=
  try_except
    (_ <- run ["git"; "checkout"; "-b"; branch_name] None true ;;
     logging_info ("Created and switched to branch: " @@ branch_name))
    is_CalledProcessError
    (fun e =>
       logging_error ("Error creating branch " @@ branch_name @@ ": ") (Some e) ;;
       raise (SystemExit "Branch creation failed.")).

Definition push_branch (branch_name : string) : M unit :=
  try_except
    (_ <- run ["git"; "push"; "--set-upstream"; "origin"; branch_name] None true ;;
     logging_info ("Pushed branch " @@ branch_name @@ " to remote."))
    is_CalledProcessError
    (fun e => logging_error ("Error pushing branch " @@ branch_name @@ ": ") (Some e)).

(** A pull request handle: its number. *)
Definition create_pull_request (github_token repo_full_name branch_name base_branch : string)
  : M (option Z) :=
  try_except
    (api (GetRepo github_token repo_full_name) ;;
     let title := "Automated Pull Request: Bot Update" in
     let body := "This pull request was created automatically by the bot." in
     api (CreatePull repo_full_name title body branch_name base_branch) ;;
     number <- forge_number ;;
     logging_info ("Created pull request #" @@ str_int number @@ " in " @@ repo_full_name) ;;
     ret (Some number))
    is_Exception
    (fun e => logging_error "Error creating pull request: " (Some e) ;; ret None).

Definition review_issues : string :=
  "Automated review:" @@ LF
  @@ "- Found minor style issues in the diff." @@ LF
  @@ "- Consider refactoring for better clarity." @@ LF
  @@ "Note: This is a self-review comment; please address these issues.".

Definition review_clean : string :=
  "Automated review: Everything looks good. (Self-review comment)".

Definition simulate_code_review (pr : Z) : M unit :=
  try_except
    (simulated_issues <- choice_true_false ;;
     let review_message := if simulated_issues then review_issues else review_clean in
     api (CreateReview pr review_message "COMMENT") ;;
     logging_info "Simulated code review: posted comment.")
    is_Exception
    (fun e => logging_error "Error simulating code review: " (Some e)).

(** The block under [if args.repository:] at the end of [main]; each early
    [return] of the source ends the block without the final log line. *)
Definition publish : M unit :=
  now <- datetime_now ;;
  let branch_name := "auto_pr_" @@ strftime_compact now in
  create_new_branch branch_name ;;
  push_branch branch_name ;;
  github_repo_name <- get_github_repo_name_from_remote ;;
  if negb (truthy github_repo_name) then
    logging_error "Could not determine GitHub repo name. Exiting." None
  else
    github_token <- os_getenv "GITHUB_TOKEN" ;;
    if negb (truthy github_token) then
      logging_error "GITHUB_TOKEN environment variable not set. Exiting." None
    else
      pr <- create_pull_request (match github_token with Some t => t | None => "" end)
              (match github_repo_name with Some n => n | None => "" end)
              branch_name "main" ;;
      match pr with
      | Some number => simulate_code_review number
      | None => logging_error "Pull request creation failed." None
      end ;;
      logging_info "Bot execution finished.".

Definition main (args : Args) : M unit :=
  init_repo ;;
  (if truthy (repository args)
   then set_remote (match repository args with Some u => u | None => "" end)
   else ret tt) ;;
  simulate_commits args ;;
  if truthy (repository args) then
    publish
  else
    logging_info "No remote repository provided; skipping push and pull request creation." ;;
    logging_info "Bot execution finished.".

(* ------------------------------------------------------------------ *)
(** ** Vocabulary of the statements *)

(** No external call to come fails. *)
Definition quiet (w : World) : Prop := Forall (fun o => o = Done) (outcomes w).

(** [m] only ever adds events satisfying [Q] to the trace, whatever happens. *)
Definition emits (Q : event -> Prop) {A} (m : M A) : Prop :=
  forall w r w', m w = (r, w') -> exists new, trace w' = trace w ++ new /\ Forall Q new.

(** [for d in dates: body d] *)
Fixpoint for_each (dates : list date) (body : date -> M unit) : M unit :=
  match dates with
  | [] => ret tt
  | d :: rest => body d ;; for_each rest body
  end.

(** The [n] consecutive dates from [start] on. *)
Fixpoint dates_from (start : date) (n : nat) : list date :=
  match n with
  | O => []
  | S k => start :: dates_from (start + 1) k
  end.

(** The dates from [start] to [stop], both included. *)
Definition date_range (start stop : date) : list date :=
  dates_from start (Z.to_nat (stop - start + 1)).

(** *** The commit events a run generates, as a function of the raw draws *)

(** The [commit_time] that [commit_once] draws for [current_date]. *)
Definition drawn_time (current_date : date) (rs : list Z) : datetime :=
  combine current_date
    {| hour := randint_of 0 23 (hd 0 rs);
       minute := randint_of 0 59 (hd 0 (tl rs));
       second := randint_of 0 59 (hd 0 (tl (tl rs))) |}.

Fixpoint drawn_times (n : nat) (current_date : date) (rs : list Z) : list datetime :=
  match n with
  | O => []
  | S k => drawn_time current_date rs :: drawn_times k current_date (tl (tl (tl rs)))
  end.

Definition skipped (args : Args) (d : date) : bool :=
  no_weekends args && (5 <=? weekday d).

Definition active (args : Args) (rs : list Z) : bool :=
  randint_of 1 100 (hd 0 rs) <=? frequency args.

Definition day_count (args : Args) (rs : list Z) : Z :=
  randint_of 1 (max_commits args) (hd 0 (tl rs)).

(** The commit times of one walked day. *)
Definition day_events (args : Args) (d : date) (rs : list Z) : list datetime :=
  if skipped args d then []
  else if active args rs
       then drawn_times (Z.to_nat (day_count args rs)) d (tl (tl rs))
       else [].

(** The raw draws left after one walked day. *)
Definition day_rest (args : Args) (d : date) (rs : list Z) : list Z :=
  if skipped args d then rs
  else if active args rs
       then skipn (3 * Z.to_nat (day_count args rs)) (tl (tl rs))
       else tl rs.

Fixpoint run_events (args : Args) (dates : list date) (rs : list Z) : list datetime :=
  match dates with
  | [] => []
  | d :: rest => day_events args d rs ++ run_events args rest (day_rest args d rs)
  end.

(** Some day of [dates] is active, each earlier walked day having used one
    raw draw for its activation. *)
Fixpoint some_day_active (args : Args) (dates : list date) (rs : list Z) : bool :=
  match dates with
  | [] => false
  | d :: rest =>
      if skipped args d then some_day_active args rest rs
      else active args rs || some_day_active args rest (tl rs)
  end.

(** A time of day at second granularity. *)
Definition time_in_range (t : time) : Prop :=
  0 <= hour t <= 23 /\ 0 <= minute t <= 59 /\ 0 <= second t <= 59.

(** What one commit event leaves behind: its actions and its commit. *)
Definition commit_actions (file_path : string) (environ0 : list (string * string))
    (commit_time : datetime) : list event :=
  let env := commit_env environ0 commit_time in
  [ FileAppend file_path (activity_line commit_time);
    Exec ["git"; "add"; file_path] (Some env) true;
    Exec ["git"; "commit"; "-m"; commit_message commit_time] (Some env) true;
    Log INFO ("Committed: " @@ commit_message commit_time) None ].

Definition commit_of (commit_time : datetime) : commit :=
  {| author_date := Some (isoformat commit_time);
     committer_date := Some (isoformat commit_time);
     message := commit_message commit_time |}.

(** The actions of [simulate_commits] before its loop. *)
Definition file_actions (file_path : string) (w : World) : list event :=
  if existsb (String.eqb file_path) (map fst (fs w))
  then [Log INFO ("Using existing file " @@ file_path @@ ".") None]
  else [FileWrite file_path ("Activity Log" @@ LF);
        Log INFO ("Created file " @@ file_path @@ ".") None].

(** The content of the activity file when the loop of [simulate_commits] starts. *)
Definition initial_content (file_path : string) (w : World) : string :=
  if existsb (String.eqb file_path) (map fst (fs w))
  then read_file file_path w
  else "Activity Log" @@ LF.

Definition is_api (e : event) : bool :=
  match e with Api _ _ => true | _ => false end.

Definition is_error_log (e : event) : bool :=
  match e with Log ERROR _ _ => true | _ => false end.

(** [argv] starts with the words [prefix]. *)
Fixpoint argv_starts (prefix argv : list string) : bool :=
  match prefix, argv with
  | [], _ => true
  | p :: ps, a :: rest => String.eqb p a && argv_starts ps rest
  | _ :: _, [] => false
  end.

Definition is_exec_of (prefix : list string) (e : event) : bool :=
  match e with
  | Exec argv _ _ => argv_starts prefix argv
  | _ => false
  end.

(** An external call that failed. *)
Definition failed (e : event) : bool :=
  match e with
  | Exec _ _ false | Api _ false => true
  | _ => false
  end.

(** Every failed call in the list is directly followed by an error line of
    the log. *)
Inductive logged : list event -> Prop :=
| logged_nil : logged []
| logged_ok e t : failed e = false -> logged t -> logged (e :: t)
| logged_failed e msg exc t :
    failed e = true -> logged t -> logged (e :: Log ERROR msg exc :: t).

(** [m] always returns normally, and logs every failure of a call it makes. *)
Definition handles {A} (m : M A) : Prop :=
  forall w r w', m w = (r, w') ->
    (exists a, r = Ok a) /\ exists new, trace w' = trace w ++ new /\ logged new.

(** A failed run of one of the commands the script runs with [check=True]
    outside of any [try]: [git init], [git remote add], [git add],
    [git commit]. *)
Definition unguarded_failure (e : event) : bool :=
  failed e
  && (is_exec_of ["git"; "init"] e || is_exec_of ["git"; "remote"; "add"] e
      || is_exec_of ["git"; "add"] e || is_exec_of ["git"; "commit"] e).

(** In no run of [m] is such a failure survived: a run has none, or it has
    one, as its last action, and ends with that command's exception. *)
Definition strict {A} (m : M A) : Prop :=
  forall w r w', m w = (r, w') ->
    exists new, trace w' = trace w ++ new
      /\ (Forall (fun e => unguarded_failure e = false) new
          \/ exists pre argv env status,
               new = pre ++ [Exec argv env false]
               /\ Forall (fun e => unguarded_failure e = false) pre
               /\ unguarded_failure (Exec argv env false) = true
               /\ r = Raise (CalledProcessError argv status)).

(** The exceptions a run of [main] can end with. *)
Definition abort_kind (e : exn) : Prop :=
  match e with
  | SystemExit text => text = "Branch creation failed."
  | CalledProcessError argv _ =>
      argv_starts ["git"; "init"] argv = true
      \/ argv_starts ["git"; "remote"; "add"] argv = true
      \/ argv_starts ["git"; "add"] argv = true
      \/ argv_starts ["git"; "commit"] argv = true
  | ValueError | OverflowError => True
  | GithubException _ => False
  end.

(** [m] returns, or raises an exception satisfying [P]. *)
Definition raises_only (P : exn -> Prop) {A} (m : M A) : Prop :=
  forall w r w', m w = (r, w') -> (exists a, r = Ok a) \/ (exists e, r = Raise e /\ P e).

(** The run from [w] to [w'] made exactly the commits [evs], nothing else, and
    left the raw draws [rs']. *)
Definition committed (file_path : string) (evs : list datetime) (rs' : list Z)
    (w w' : World) : Prop :=
  trace w' = trace w ++ flat_map (commit_actions file_path (environ w)) evs
  /\ commits w' = commits w ++ map commit_of evs
  /\ read_file file_path w' = read_file file_path w @@ join (map activity_line evs)
  /\ rand w' = rs'
  /\ environ w' = environ w
  /\ remotes w' = remotes w
  /\ now w' = now w
  /\ quiet w'.

(** [s] without one trailing ".git", if it has one. *)
Definition without_git_suffix (s : string) : string :=
  if endswith s ".git" then drop_last (String.length ".git") s else s.

(** An action that belongs to a commit made on a weekday (Monday to Friday):
    every activity line written and every [git commit] run is one. *)
Definition weekday_action (e : event) : Prop :=
  match e with
  | FileAppend _ text =>
      exists dt, weekday (dt_date dt) < 5 /\ text = activity_line dt
  | Exec ("git" :: "commit" :: rest) env _ =>
      exists dt environ0, weekday (dt_date dt) < 5
        /\ rest = ["-m"; commit_message dt] /\ env = Some (commit_env environ0 dt)
  | _ => True
  end.

(** *** Sample runs *)

(** Saturday 2024-01-06, in a fresh directory. *)
Definition sample_world : World :=
  {| fs := []; remotes := []; commits := [];
     environ := [("HOME", "/home/user")];
     today := 738891;
     now := combine 738891 {| hour := 12; minute := 0; second := 1 |};
     rand := [0; 1; 5; 70; 3; 99; 7; 8; 9; 59; 49; 0];
     outcomes := []; forge_pr_number := 7; trace := [] |}.

Definition sample_args : Args :=
  {| repository := Some "git@github.com:user/repo.git"; max_commits := 2;
     frequency := 60; no_weekends := true; days_before := 2; days_after := 0;
     file := "activity.txt" |}.

(** The same configuration with a maximum of 0 commits a day. *)
Definition sample_args_no_commits : Args :=
  {| repository := Some "git@github.com:user/repo.git"; max_commits := 0;
     frequency := 60; no_weekends := true; days_before := 2; days_after := 0;
     file := "activity.txt" |}.

(** A repository whose only remote is named "origin-backup". *)
Definition backup_remote_world : World :=
  {| fs := [(".git", "")];
     remotes := [("origin-backup", "git@github.com:user/backup.git")];
     commits := []; environ := []; today := 738891;
     now := combine 738891 {| hour := 12; minute := 0; second := 0 |};
     rand := []; outcomes := []; forge_pr_number := 1; trace := [] |}.

(** A repository whose origin is not on github.com. *)
Definition gitlab_world : World :=
  {| fs := [(".git", "")];
     remotes := [("origin", "https://gitlab.com/user/repo.git")];
     commits := []; environ := []; today := 738891;
     now := combine 738891 {| hour := 12; minute := 0; second := 0 |};
     rand := []; outcomes := []; forge_pr_number := 1; trace := [] |}.

(** A run without a remote, one commit on one day, in which the first
    external command, [git add], exits with status 128. *)
Definition local_args : Args :=
  {| repository := None; max_commits := 1; frequency := 100;
     no_weekends := false; days_before := 0; days_after := 0;
     file := "activity.txt" |}.

Definition failing_add_world : World :=
  {| fs := [(".git", "")]; remotes := []; commits := []; environ := [];
     today := 738891;
     now := combine 738891 {| hour := 12; minute := 0; second := 0 |};
     rand := []; outcomes := [Failed 128]; forge_pr_number := 1; trace := [] |}.

(** *** Vocabulary of the further properties *)

(** Whatever [m] does, the file at [path] afterwards holds what it held
    before, followed by what was appended. *)
Definition extends_file (path : string) {A} (m : M A) : Prop :=
  forall w r w', m w = (r, w') ->
    exists suffix, read_file path w' = read_file path w @@ suffix.

(** [m] leaves the files alone. *)
Definition keeps_files {A} (m : M A) : Prop :=
  forall w r w', m w = (r, w') -> fs w' = fs w.

(** A [git commit] is run with its message naming a commit time and with both
    date variables of its environment set to that time. *)
Definition dated_commit (e : event) : Prop :=
  match e with
  | Exec ("git" :: "commit" :: rest) env _ =>
      exists dt environ0,
        rest = ["-m"; commit_message dt]
        /\ env = Some (commit_env environ0 dt)
        /\ lookup "GIT_AUTHOR_DATE" (commit_env environ0 dt) = Some (isoformat dt)
        /\ lookup "GIT_COMMITTER_DATE" (commit_env environ0 dt) = Some (isoformat dt)
  | _ => True
  end.

(** An action that is no part of publishing: no forge request, no branch
    creation, no push, no command on the remotes. *)
Definition stays_local (e : event) : Prop :=
  is_api e = false
  /\ is_exec_of ["git"; "checkout"] e = false
  /\ is_exec_of ["git"; "push"] e = false
  /\ is_exec_of ["git"; "remote"] e = false
  /\ is_exec_of ["git"; "config"] e = false.

(** The sample configuration with a frequency of 0. *)
Definition sample_args_never : Args :=
  {| repository := None; max_commits := 2; frequency := 0; no_weekends := false;
     days_before := 2; days_after := 0; file := "activity.txt" |}.

(** One commit on every day of the last three. *)
Definition sample_args_daily : Args :=
  {| repository := None; max_commits := 1; frequency := 100; no_weekends := false;
     days_before := 2; days_after := 0; file := "activity.txt" |}.

(** A range that ends before it starts. *)
Definition sample_args_empty : Args :=
  {| repository := None; max_commits := 2; frequency := 60; no_weekends := false;
     days_before := -3; days_after := 1; file := "activity.txt" |}.

(** A start date two thousand years before year 1. *)
Definition sample_args_too_early : Args :=
  {| repository := None; max_commits := 2; frequency := 60; no_weekends := false;
     days_before := 1500000; days_after := 0; file := "activity.txt" |}.

(** A repository with an origin on github.com and a token in the environment. *)
Definition token_world : World :=
  {| fs := [(".git", "")];
     remotes := [("origin", "https://github.com/user/repo.git")];
     commits := []; environ := [("GITHUB_TOKEN", "secret")]; today := 738891;
     now := combine 738891 {| hour := 12; minute := 0; second := 1 |};
     rand := [4]; outcomes := []; forge_pr_number := 7; trace := [] |}.

(** *** Vocabulary of the runs in which a command fails *)

(** The actions of a commit event that a failing [git add] or [git commit]
    cut short: its activity line is appended, and no commit is made. *)
Definition unfinished (file_path : string) (environ0 : list (string * string))
    (tail : list event) : Prop :=
  exists dt,
    tail = [FileAppend file_path (activity_line dt);
            Exec ["git"; "add"; file_path] (Some (commit_env environ0 dt)) false]
    \/ tail = [FileAppend file_path (activity_line dt);
               Exec ["git"; "add"; file_path] (Some (commit_env environ0 dt)) true;
               Exec ["git"; "commit"; "-m"; commit_message dt]
                 (Some (commit_env environ0 dt)) false].

(** Whatever happens, [m] carries out whole commit events, [evs], and at most
    one more that a failing command cuts short, on which it ends with that
    command's exception. *)
Definition recorded (file_path : string) {A} (m : M A) : Prop :=
  forall w r w', m w = (r, w') ->
    exists evs tail,
      trace w' = trace w ++ flat_map (commit_actions file_path (environ w)) evs ++ tail
      /\ commits w' = commits w ++ map commit_of evs
      /\ environ w' = environ w
      /\ (tail = []
          \/ (unfinished file_path (environ w) tail
              /\ exists argv status, r = Raise (CalledProcessError argv status))).

(** GITHUB_TOKEN is unset or empty. *)
Definition no_token (w : World) : Prop :=
  truthy (lookup "GITHUB_TOKEN" (environ w)) = false.

(** Started without a token, [m] ends without one and makes no request to
    the forge, whatever happens. *)
Definition offline {A} (m : M A) : Prop :=
  forall w r w', no_token w -> m w = (r, w') ->
    no_token w'
    /\ exists new, trace w' = trace w ++ new /\ Forall (fun e => is_api e = false) new.

(** A repository on github.com, no day active, no token. *)
Definition no_token_args : Args :=
  {| repository := Some "git@github.com:user/repo.git"; max_commits := 2;
     frequency := 0; no_weekends := false; days_before := 0; days_after := 0;
     file := "activity.txt" |}.

(** A repository with its origin configured, in which the listing of the
    remotes works and the creation of the branch exits with status 128. *)
Definition failing_branch_world : World :=
  {| fs := [(".git", ""); ("activity.txt", "Activity Log" @@ LF)];
     remotes := [("origin", "git@github.com:user/repo.git")];
     commits := []; environ := [("HOME", "/home/user")]; today := 738891;
     now := combine 738891 {| hour := 12; minute := 0; second := 1 |};
     rand := []; outcomes := [Done; Failed 128]; forge_pr_number := 1; trace := [] |}.

End Sim.

(* ------------------------------------------------------------------ *)
(** ** Basic facts *)

Import PyStr PyDate Sim.

Lemma trace_emit e w : trace (emit e w) = trace w ++ [e].
Proof. reflexivity. Qed.

Lemma bind_ok {A B} (m : M A) (k : A -> M B) w a w1 :
  m w = (Ok a, w1) -> bind m k w = k a w1.
Proof. intros H. unfold bind. rewrite H. reflexivity. Qed.

Lemma bind_raise {A B} (m : M A) (k : A -> M B) w e w1 :
  m w = (Raise e, w1) -> bind m k w = (Raise e, w1).
Proof. intros H. unfold bind. rewrite H. reflexivity. Qed.

Lemma randint_of_range a b r :
  a <= b -> a <= randint_of a b r <= b.
Proof.
  intros H. unfold randint_of.
  pose proof (Z.mod_pos_bound r (b - a + 1)). lia.
Qed.



Lemma randint_ok a b w :
  a <= b ->
  randint a b w = (Ok (randint_of a b (hd 0 (rand w))), with_rand (tl (rand w)) w).
Proof.
  intros H. unfold randint. destruct (Z.ltb_spec b a); [lia | reflexivity].
Qed.

Lemma randint_empty a b w :
  b < a -> randint a b w = (Raise ValueError, w).
Proof.
  intros H. unfold randint. destruct (Z.ltb_spec b a); [reflexivity | lia].
Qed.

Lemma review_templates_differ : review_issues <> review_clean.
Proof. discriminate. Qed.

(** C9.  Whatever the pull request, the random source and the forge's answer,
    [simulate_code_review] returns normally after exactly one review request;
    that request has event type COMMENT and its body is one of two fixed,
    different texts, picked by one two-way draw: the issues text when the
    draw lands on the first element, the clean text otherwise.  When the
    request fails, the error is logged and nothing is raised. *)
Theorem simulate_code_review_comment_only (pr : Z) (w : World) :
  let body := if hd 0 (rand w) mod 2 =? 0 then review_issues else review_clean in
  review_issues <> review_clean /\
  fst (simulate_code_review pr w) = Ok tt /\
  trace (snd (simulate_code_review pr w)) =
    trace w ++
    match hd Done (outcomes w) with
    | Done => [Api (CreateReview pr body "COMMENT") true;
               Log INFO "Simulated code review: posted comment." None]
    | Failed status => [Api (CreateReview pr body "COMMENT") false;
                        Log ERROR "Error simulating code review: "
                          (Some (GithubException status))]
    end.
Proof.
  intros body. split; [exact review_templates_differ |].
  assert (Hb : (if nth (Z.to_nat (hd 0 (rand w) mod 2)) [true; false] true
                then review_issues else review_clean) = body).
  { subst body.
    pose proof (Z.mod_pos_bound (hd 0 (rand w)) 2 ltac:(lia)) as Hm.
    destruct (Z.eqb_spec (hd 0 (rand w) mod 2) 0) as [E | E].
    - rewrite E. reflexivity.
    - replace (hd 0 (rand w) mod 2) with 1 by lia. reflexivity. }
  unfold simulate_code_review, try_except, bind, choice_true_false, api, logging_info,
    logging_error.
  cbn [fst snd outcomes with_rand with_outcomes].
  rewrite Hb.
  destruct (hd Done (outcomes w)); cbn; rewrite <- app_assoc; auto.
Qed.

(** *** Strings and association lists *)

Lemma append_assoc (a b c : string) : (a @@ b) @@ c = a @@ b @@ c.
Proof. induction a as [| x a IH]; simpl; [reflexivity | rewrite IH; reflexivity]. Qed.

Lemma append_nil_r (a : string) : a @@ "" = a.
Proof. induction a as [| x a IH]; simpl; [reflexivity | rewrite IH; reflexivity]. Qed.

Lemma join_app (l1 l2 : list string) : join (l1 ++ l2) = join l1 @@ join l2.
Proof.
  induction l1 as [| p l1 IH]; simpl; [reflexivity |].
  rewrite IH, append_assoc. reflexivity.
Qed.

Lemma lookup_setitem_same d k v : lookup k (setitem d k v) = Some v.
Proof.
  induction d as [| [k' v'] d IH]; simpl.
  - rewrite String.eqb_refl. reflexivity.
  - destruct (String.eqb_spec k k') as [E | E]; simpl.
    + rewrite String.eqb_refl. reflexivity.
    + destruct (String.eqb_spec k k'); [contradiction | exact IH].
Qed.

Lemma lookup_setitem_other d k k' v : k <> k' -> lookup k (setitem d k' v) = lookup k d.
Proof.
  intros N. induction d as [| [k0 v0] d IH]; simpl.
  - destruct (String.eqb_spec k k'); [contradiction | reflexivity].
  - destruct (String.eqb_spec k' k0) as [E | E]; simpl.
    + subst k0. destruct (String.eqb_spec k k'); [contradiction | reflexivity].
    + destruct (String.eqb_spec k k0); [reflexivity | exact IH].
Qed.

Lemma commit_env_dates environ0 dt :
  lookup "GIT_AUTHOR_DATE" (commit_env environ0 dt) = Some (isoformat dt)
  /\ lookup "GIT_COMMITTER_DATE" (commit_env environ0 dt) = Some (isoformat dt).
Proof.
  unfold commit_env. split.
  - rewrite lookup_setitem_other by discriminate. apply lookup_setitem_same.
  - apply lookup_setitem_same.
Qed.

(** *** External calls *)

Lemma quiet_hd w : quiet w -> hd Done (outcomes w) = Done.
Proof.
  unfold quiet. intros H. destruct (outcomes w); [reflexivity |].
  inversion H; subst. reflexivity.
Qed.

Lemma all_done_tl (l : list outcome) :
  Forall (fun o => o = Done) l -> Forall (fun o => o = Done) (tl l).
Proof. intros H. destruct l; [constructor | inversion H; assumption]. Qed.

Lemma quiet_tl w w' : quiet w -> outcomes w' = tl (outcomes w) -> quiet w'.
Proof. unfold quiet. intros H E. rewrite E. apply all_done_tl, H. Qed.

Lemma quiet_same w w' : quiet w -> outcomes w' = outcomes w -> quiet w'.
Proof. unfold quiet. intros H E. rewrite E. exact H. Qed.

Lemma run_quiet argv env check w out g :
  quiet w ->
  git_effect argv (match env with Some e => e | None => environ w end) (repo_of w)
    = inl (out, g) ->
  run argv env check w
  = (Ok (true, out),
     emit (Exec argv env true) (with_repo g (with_outcomes (tl (outcomes w)) w))).
Proof.
  intros Q E. unfold run. rewrite (quiet_hd w Q), E. reflexivity.
Qed.

(** Every call of [run] adds one [Exec] event and consumes one outcome; it
    leaves the random source, the environment and the clock alone. *)
Lemma run_inv argv env check w r w' :
  run argv env check w = (r, w') ->
  (exists ok, trace w' = trace w ++ [Exec argv env ok])
  /\ rand w' = rand w /\ environ w' = environ w /\ today w' = today w
  /\ now w' = now w /\ outcomes w' = tl (outcomes w).
Proof.
  unfold run. intros H.
  destruct (hd Done (outcomes w)).
  - destruct (git_effect _ _ _) as [[out g] | status].
    + inversion H; subst. split; [eexists; reflexivity | auto].
    + destruct check; inversion H; subst; (split; [eexists; reflexivity | auto]).
  - destruct check; inversion H; subst; (split; [eexists; reflexivity | auto]).
Qed.

Lemma mk_time_ok h m s w :
  0 <= h <= 23 -> 0 <= m <= 59 -> 0 <= s <= 59 ->
  mk_time h m s w = (Ok {| hour := h; minute := m; second := s |}, w).
Proof.
  intros Hh Hm Hs. unfold mk_time.
  replace ((0 <=? h) && (h <=? 23) && (0 <=? m) && (m <=? 59) && (0 <=? s) && (s <=? 59))
    with true; [reflexivity |].
  symmetry. repeat (apply andb_true_intro; split); apply Z.leb_le; lia.
Qed.

(** *** One commit, when no external call fails *)

Lemma commit_once_ok file_path d w :
  quiet w ->
  exists w',
    commit_once file_path d w = (Ok tt, w')
    /\ committed file_path [drawn_time d (rand w)] (tl (tl (tl (rand w)))) w w'.
Proof.
  intros Q. unfold commit_once.
  erewrite bind_ok by (apply randint_ok; lia).
  erewrite bind_ok by (apply randint_ok; lia).
  erewrite bind_ok by (apply randint_ok; lia).
  erewrite bind_ok by (apply mk_time_ok; apply randint_of_range; lia).
  erewrite bind_ok by reflexivity.
  erewrite bind_ok by reflexivity.
  erewrite bind_ok.
  2:{ apply run_quiet; [eapply quiet_same; [exact Q | reflexivity] | reflexivity]. }
  erewrite bind_ok.
  2:{ apply run_quiet; [eapply quiet_tl; [exact Q | reflexivity] | reflexivity]. }
  eexists. split; [reflexivity |].
  unfold committed, drawn_time.
  cbn -[commit_env commit_message activity_line isoformat randint_of String.append].
  set (dt := combine d _).
  destruct (commit_env_dates (environ w) dt) as [Ea Ec].
  rewrite Ea, Ec.
  repeat split.
  - rewrite <- !app_assoc. reflexivity.
  - unfold read_file at 1. cbn -[activity_line String.append].
    rewrite lookup_setitem_same, append_nil_r. reflexivity.
  - unfold quiet. cbn. apply all_done_tl, all_done_tl, Q.
Qed.

Lemma committed_refl file_path w : quiet w -> committed file_path [] (rand w) w w.
Proof.
  intros Q. unfold committed. simpl. rewrite !app_nil_r, append_nil_r. auto 9.
Qed.

Lemma committed_trans file_path e1 e2 rs1 rs2 w w1 w2 :
  committed file_path e1 rs1 w w1 ->
  committed file_path e2 rs2 w1 w2 ->
  committed file_path (e1 ++ e2) rs2 w w2.
Proof.
  intros (T1 & C1 & F1 & R1 & E1 & M1 & N1 & Q1) (T2 & C2 & F2 & R2 & E2 & M2 & N2 & Q2).
  unfold committed.
  rewrite flat_map_app, !map_app, join_app, !app_assoc, <- append_assoc.
  rewrite <- T1, <- C1, <- F1, <- E1. rewrite E1 at 2.
  repeat split; try assumption; congruence.
Qed.

Lemma skipn_three (k : nat) (rs : list Z) :
  skipn (3 * S k) rs = skipn (3 * k) (tl (tl (tl rs))).
Proof.
  replace (3 * S k)%nat with (S (S (S (3 * k)))) by lia.
  destruct rs as [| a [| b [| c rs]]]; simpl; try reflexivity;
    destruct (k + (k + (k + 0)))%nat; reflexivity.
Qed.

(** *** One day and a run of days, when no external call fails *)

Lemma for_range_ok file_path d n : forall w,
  quiet w ->
  exists w',
    for_range n (commit_once file_path d) w = (Ok tt, w')
    /\ committed file_path (drawn_times n d (rand w)) (skipn (3 * n) (rand w)) w w'.
Proof.
  induction n as [| n IH]; intros w Q.
  - exists w. split; [reflexivity |]. apply committed_refl, Q.
  - destruct (commit_once_ok file_path d w Q) as (w1 & E1 & C1).
    destruct (IH w1 ltac:(apply C1)) as (w2 & E2 & C2).
    exists w2. split.
    + cbn [for_range]. erewrite bind_ok by exact E1. exact E2.
    + rewrite skipn_three. cbn [drawn_times].
      assert (R1 : rand w1 = tl (tl (tl (rand w)))) by apply C1.
      rewrite R1 in C2.
      exact (committed_trans _ [_] _ _ _ _ _ _ C1 C2).
Qed.

Lemma one_day_ok args d w :
  quiet w -> 1 <= max_commits args ->
  exists w',
    one_day args d w = (Ok tt, w')
    /\ committed (file args) (day_events args d (rand w)) (day_rest args d (rand w)) w w'.
Proof.
  intros Q Hmax. unfold one_day, day_events, day_rest. fold (skipped args d).
  destruct (skipped args d).
  - exists w. split; [reflexivity |]. apply committed_refl, Q.
  - erewrite bind_ok by (apply randint_ok; lia).
    unfold active. destruct (randint_of 1 100 (hd 0 (rand w)) <=? frequency args).
    + erewrite bind_ok by (apply randint_ok; cbn; lia).
      cbn [with_rand rand].
      set (w1 := with_rand _ (with_rand _ w)).
      destruct (for_range_ok (file args) d (Z.to_nat (day_count args (rand w))) w1)
        as (w2 & E2 & T2 & C2 & F2 & R2 & V2 & M2 & N2 & Q2); [exact Q |].
      exists w2. split; [exact E2 |]. unfold committed. auto 9.
    + exists (with_rand (tl (rand w)) w). split; [reflexivity |].
      unfold committed, read_file. cbn. rewrite !app_nil_r, append_nil_r. auto 9.
Qed.

Lemma for_each_ok args : forall dates w,
  quiet w -> 1 <= max_commits args ->
  exists w' rs',
    for_each dates (one_day args) w = (Ok tt, w')
    /\ committed (file args) (run_events args dates (rand w)) rs' w w'.
Proof.
  induction dates as [| d dates IH]; intros w Q Hmax.
  - exists w, (rand w). split; [reflexivity |]. apply committed_refl, Q.
  - destruct (one_day_ok args d w Q Hmax) as (w1 & E1 & C1).
    destruct (IH w1 ltac:(apply C1) Hmax) as (w2 & rs' & E2 & C2).
    exists w2, rs'. split.
    + cbn [for_each]. erewrite bind_ok by exact E1. exact E2.
    + cbn [run_events].
      assert (R1 : rand w1 = day_rest args d (rand w)) by apply C1.
      rewrite R1 in C2. exact (committed_trans _ _ _ _ _ _ _ _ C1 C2).
Qed.

(** *** The loop walks the dates of the range, one after the other *)

Lemma date_range_cons start stop :
  start <= stop -> date_range start stop = start :: date_range (start + 1) stop.
Proof.
  intros H. unfold date_range.
  replace (Z.to_nat (stop - start + 1)) with (S (Z.to_nat (stop - (start + 1) + 1))) by lia.
  reflexivity.
Qed.

Lemma date_range_nil start stop : stop < start -> date_range start stop = [].
Proof.
  intros H. unfold date_range.
  replace (Z.to_nat (stop - start + 1)) with O by lia. reflexivity.
Qed.

Lemma date_plus_ok d n w :
  0 < d + n <= MAXORDINAL -> date_plus d n w = (Ok (d + n), w).
Proof.
  intros H. unfold date_plus, add_days.
  destruct (Z.ltb_spec 0 (d + n)); [| lia].
  destruct (Z.leb_spec (d + n) MAXORDINAL); [reflexivity | lia].
Qed.

Lemma walk_for_each args stop : forall fuel start w,
  0 < start -> stop < MAXORDINAL ->
  (Z.to_nat (stop - start + 1) < fuel)%nat ->
  walk fuel args stop start w = for_each (date_range start stop) (one_day args) w.
Proof.
  induction fuel as [| fuel IH]; intros start w Hs He Hf; [lia |].
  cbn [walk]. destruct (Z.leb_spec start stop) as [L | L].
  - rewrite date_range_cons by exact L. cbn [for_each].
    unfold bind at 1 3. destruct (one_day args start w) as [[[] | e |] w1]; try reflexivity.
    erewrite bind_ok by (apply date_plus_ok; lia).
    apply IH; lia.
  - rewrite date_range_nil by exact L. reflexivity.
Qed.

(** *** What a computation can add to the trace *)

Section Emits.

Context (Q : event -> Prop).

Lemma emits_silent {A} (m : M A) :
  (forall w r w', m w = (r, w') -> trace w' = trace w) -> emits Q m.
Proof.
  intros H w r w' E. exists []. rewrite app_nil_r. split; [eauto | constructor].
Qed.

Lemma emits_ret {A} (a : A) : emits Q (ret a).
Proof. apply emits_silent. intros w r w' E. inversion E. reflexivity. Qed.

Lemma emits_raise {A} (e : exn) : emits Q (@raise A e).
Proof. apply emits_silent. intros w r w' E. inversion E. reflexivity. Qed.

Lemma emits_bind {A B} (m : M A) (k : A -> M B) :
  emits Q m -> (forall a, emits Q (k a)) -> emits Q (bind m k).
Proof.
  intros Hm Hk w r w' E. unfold bind in E.
  destruct (m w) as [r1 w1] eqn:E1.
  destruct (Hm _ _ _ E1) as (n1 & T1 & F1).
  destruct r1 as [a | e |].
  - destruct (Hk a _ _ _ E) as (n2 & T2 & F2).
    exists (n1 ++ n2). rewrite T2, T1, app_assoc. split; [reflexivity |].
    apply Forall_app. split; assumption.
  - inversion E; subst. eauto.
  - inversion E; subst. eauto.
Qed.

Lemma emits_try_except {A} (body : M A) catches (handler : exn -> M A) :
  emits Q body -> (forall e, emits Q (handler e)) -> emits Q (try_except body catches handler).
Proof.
  intros Hm Hk w r w' E. unfold try_except in E.
  destruct (body w) as [r1 w1] eqn:E1.
  destruct (Hm _ _ _ E1) as (n1 & T1 & F1).
  destruct r1 as [a | e |].
  - inversion E; subst. eauto.
  - destruct (catches e).
    + destruct (Hk e _ _ _ E) as (n2 & T2 & F2).
      exists (n1 ++ n2). rewrite T2, T1, app_assoc. split; [reflexivity |].
      apply Forall_app. split; assumption.
    + inversion E; subst. eauto.
  - inversion E; subst. eauto.
Qed.

Lemma emits_one {A} (m : M A) :
  (forall w r w', m w = (r, w') -> exists e, trace w' = trace w ++ [e] /\ Q e) -> emits Q m.
Proof.
  intros H w r w' E. destruct (H _ _ _ E) as (e & T & He).
  exists [e]. split; [exact T | constructor; [exact He | constructor]].
Qed.

Lemma emits_logging_info msg : Q (Log INFO msg None) -> emits Q (logging_info msg).
Proof. intros H. apply emits_one. intros w r w' E. inversion E; subst.
  eexists; split; [reflexivity | exact H].
Qed.

Lemma emits_logging_error msg exc : Q (Log ERROR msg exc) -> emits Q (logging_error msg exc).
Proof. intros H. apply emits_one. intros w r w' E. inversion E; subst.
  eexists; split; [reflexivity | exact H].
Qed.

Lemma emits_file_write path text : Q (FileWrite path text) -> emits Q (file_write path text).
Proof. intros H. apply emits_one. intros w r w' E. inversion E; subst.
  eexists; split; [reflexivity | exact H].
Qed.

Lemma emits_file_append path text : Q (FileAppend path text) -> emits Q (file_append path text).
Proof. intros H. apply emits_one. intros w r w' E. inversion E; subst.
  eexists; split; [reflexivity | exact H].
Qed.

Lemma emits_run argv env check :
  (forall ok, Q (Exec argv env ok)) -> emits Q (run argv env check).
Proof.
  intros H. apply emits_one. intros w r w' E.
  destruct (run_inv _ _ _ _ _ _ E) as [[ok T] _]. exists (Exec argv env ok). auto.
Qed.

Lemma emits_api c : (forall ok, Q (Api c ok)) -> emits Q (api c).
Proof.
  intros H. apply emits_one. intros w r w' E. unfold api in E.
  destruct (hd Done (outcomes w)); inversion E; subst;
    (eexists; split; [reflexivity | apply H]).
Qed.

Lemma emits_path_exists path : emits Q (path_exists path).
Proof. apply emits_silent. intros w r w' E. inversion E. reflexivity. Qed.

Lemma emits_os_environ_copy : emits Q os_environ_copy.
Proof. apply emits_silent. intros w r w' E. inversion E. reflexivity. Qed.

Lemma emits_os_getenv name : emits Q (os_getenv name).
Proof. apply emits_silent. intros w r w' E. inversion E. reflexivity. Qed.

Lemma emits_date_today : emits Q date_today.
Proof. apply emits_silent. intros w r w' E. inversion E. reflexivity. Qed.

Lemma emits_datetime_now : emits Q datetime_now.
Proof. apply emits_silent. intros w r w' E. inversion E. reflexivity. Qed.

Lemma emits_date_plus d n : emits Q (date_plus d n).
Proof.
  unfold date_plus. destruct (add_days d n); [apply emits_ret | apply emits_raise].
Qed.

Lemma emits_mk_time h m s : emits Q (mk_time h m s).
Proof.
  unfold mk_time. destruct (_ && _); [apply emits_ret | apply emits_raise].
Qed.

Lemma emits_randint a b : emits Q (randint a b).
Proof.
  apply emits_silent. intros w r w' E. unfold randint in E.
  destruct (b <? a); inversion E; reflexivity.
Qed.

Lemma emits_choice : emits Q choice_true_false.
Proof. apply emits_silent. intros w r w' E. inversion E. reflexivity. Qed.

Lemma emits_forge_number : emits Q forge_number.
Proof. apply emits_silent. intros w r w' E. inversion E. reflexivity. Qed.

Lemma emits_for_range n body : emits Q body -> emits Q (for_range n body).
Proof.
  intros H. induction n as [| n IH]; cbn [for_range].
  - apply emits_ret.
  - apply emits_bind; [exact H | intros _; exact IH].
Qed.

Lemma emits_for_each dates body :
  (forall d, In d dates -> emits Q (body d)) -> emits Q (for_each dates body).
Proof.
  induction dates as [| d dates IH]; intros H; cbn [for_each].
  - apply emits_ret.
  - apply emits_bind; [apply H; left; reflexivity |].
    intros _. apply IH. intros d' Hd. apply H. right. exact Hd.
Qed.

Lemma emits_walk args stop :
  (forall d, emits Q (one_day args d)) ->
  forall fuel start, emits Q (walk fuel args stop start).
Proof.
  intros H. induction fuel as [| fuel IH]; intros start; cbn [walk].
  - apply emits_silent. intros w r w' E. inversion E. reflexivity.
  - destruct (start <=? stop); [| apply emits_ret].
    apply emits_bind; [apply H | intros _].
    apply emits_bind; [apply emits_date_plus | intros next; apply IH].
Qed.

End Emits.

Lemma emits_weaken (Q Q' : event -> Prop) {A} (m : M A) :
  (forall e, Q e -> Q' e) -> emits Q m -> emits Q' m.
Proof.
  intros H Hm w r w' E. destruct (Hm _ _ _ E) as (new & T & F).
  exists new. split; [exact T |]. eapply Forall_impl; eauto.
Qed.

(** Solves [emits Q m] for the script's straight-line code, leaving the
    conditions on the single events. *)
Ltac emits_step :=
  first
    [ apply emits_bind; [| intros ?]
    | apply emits_try_except; [| intros ?]
    | apply emits_ret | apply emits_raise
    | apply emits_logging_info | apply emits_logging_error
    | apply emits_file_write | apply emits_file_append
    | apply emits_run; intros ? | apply emits_api; intros ?
    | apply emits_path_exists | apply emits_os_environ_copy | apply emits_os_getenv
    | apply emits_date_today | apply emits_datetime_now | apply emits_date_plus
    | apply emits_mk_time | apply emits_randint | apply emits_choice
    | apply emits_forge_number ].

(** *** The drawn times *)

Lemma drawn_times_length n d : forall rs, List.length (drawn_times n d rs) = n.
Proof.
  induction n as [| n IH]; intros rs; simpl; [reflexivity | rewrite IH; reflexivity].
Qed.

Lemma drawn_times_in_range n d : forall rs,
  Forall (fun dt => dt_date dt = d /\ time_in_range (dt_time dt)) (drawn_times n d rs).
Proof.
  induction n as [| n IH]; intros rs; simpl; constructor; [| apply IH].
  split; [reflexivity |]. unfold time_in_range. cbn [drawn_time dt_time combine hour minute second].
  repeat split; apply randint_of_range; lia.
Qed.

(** *** Weekends *)

Lemma emits_commit_once_weekday file_path d :
  weekday d < 5 -> emits weekday_action (commit_once file_path d).
Proof.
  intros Hd. unfold commit_once.
  repeat emits_step; cbn; try exact I.
  - eexists. split; [| reflexivity]. exact Hd.
  - eexists _, _. split; [| split; reflexivity]. exact Hd.
Qed.

Lemma emits_one_day_weekday args d :
  no_weekends args = true -> emits weekday_action (one_day args d).
Proof.
  intros Hn. unfold one_day. rewrite Hn. cbn [andb].
  destruct (Z.leb_spec 5 (weekday d)) as [L | L]; [apply emits_ret |].
  emits_step; [emits_step |].
  destruct (_ <=? frequency args); [| apply emits_ret].
  emits_step; [emits_step |].
  apply emits_for_range, emits_commit_once_weekday, L.
Qed.

Lemma emits_open_activity_file_weekday file_path :
  emits weekday_action (open_activity_file file_path).
Proof.
  unfold open_activity_file. emits_step; [emits_step |].
  destruct (negb _); repeat emits_step; exact I.
Qed.

Lemma run_events_weekday args :
  no_weekends args = true ->
  forall dates rs,
    Forall (fun dt => weekday (dt_date dt) < 5) (run_events args dates rs).
Proof.
  intros Hn. induction dates as [| d dates IH]; intros rs; cbn [run_events];
    [constructor |].
  apply Forall_app. split; [| apply IH].
  unfold day_events, skipped. rewrite Hn. cbn [andb].
  destruct (Z.leb_spec 5 (weekday d)) as [L | L]; [constructor |].
  destruct (active args rs); [| constructor].
  eapply Forall_impl; [| apply drawn_times_in_range].
  intros dt [Hd _]. rewrite Hd. exact L.
Qed.

(** C5.  With [no_weekends] set: a Saturday or Sunday leaves the world as it
    is, so no draw of the random source is consumed for it; whatever the
    frequency, the maximum, the random source and the outcomes of the git
    commands, every activity line [simulate_commits] writes and every
    [git commit] it runs belongs to a commit time on a Monday-to-Friday date;
    and the commit events of a run over any dates are all on such dates. *)
Theorem no_weekends_no_weekend_commits (args : Args) :
  no_weekends args = true ->
  (forall d w, 5 <= weekday d -> one_day args d w = (Ok tt, w))
  /\ (forall w r w', simulate_commits args w = (r, w') ->
        exists new, trace w' = trace w ++ new /\ Forall weekday_action new)
  /\ (forall dates rs,
        Forall (fun dt => weekday (dt_date dt) < 5) (run_events args dates rs)).
Proof.
  intros Hn. split; [| split; [| exact (run_events_weekday args Hn)]].
  - intros d w Hd. unfold one_day. rewrite Hn.
    destruct (Z.leb_spec 5 (weekday d)); [reflexivity | lia].
  - change (emits weekday_action (simulate_commits args)).
    unfold simulate_commits.
    emits_step; [apply emits_open_activity_file_weekday |].
    repeat emits_step.
    apply emits_walk. intros d. apply emits_one_day_weekday, Hn.
Qed.

(** *** The whole of [simulate_commits] *)

Lemma existsb_lookup k (d : list (string * string)) :
  existsb (String.eqb k) (map fst d) = false -> lookup k d = None.
Proof.
  induction d as [| [k' v] d IH]; simpl; [reflexivity |].
  destruct (String.eqb k k'); [discriminate | exact IH].
Qed.

Lemma open_activity_file_ok file_path w :
  exists w0,
    open_activity_file file_path w = (Ok tt, w0)
    /\ trace w0 = trace w ++ file_actions file_path w
    /\ read_file file_path w0 = initial_content file_path w
    /\ commits w0 = commits w /\ rand w0 = rand w /\ environ w0 = environ w
    /\ remotes w0 = remotes w
    /\ today w0 = today w /\ outcomes w0 = outcomes w /\ now w0 = now w.
Proof.
  unfold open_activity_file, file_actions, initial_content, bind, path_exists.
  destruct (existsb _ _) eqn:E; cbn [negb].
  - eexists. split; [reflexivity |]. cbn. auto 11.
  - eexists. split; [reflexivity |]. unfold read_file. cbn -[String.append].
    rewrite lookup_setitem_same, <- app_assoc. auto 11.
Qed.

Lemma simulate_commits_walks args w :
  0 < today w - days_before args <= MAXORDINAL ->
  0 < today w + days_after args < MAXORDINAL ->
  simulate_commits args w
  = (open_activity_file (file args) ;;
     for_each (date_range (today w - days_before args) (today w + days_after args))
       (one_day args)) w.
Proof.
  intros Hs He. unfold simulate_commits.
  destruct (open_activity_file_ok (file args) w)
    as (w0 & E0 & _ & _ & _ & _ & _ & _ & T0 & _).
  rewrite !(bind_ok _ _ _ _ _ E0).
  erewrite bind_ok by reflexivity. rewrite T0.
  erewrite bind_ok by (apply date_plus_ok; lia).
  erewrite bind_ok by (apply date_plus_ok; lia).
  apply walk_for_each; lia.
Qed.

Lemma dates_from_length start n : List.length (dates_from start n) = n.
Proof.
  revert start. induction n as [| n IH]; intros start; simpl; [reflexivity |].
  rewrite IH. reflexivity.
Qed.

Lemma dates_from_nth n : forall start i,
  (i < n)%nat -> nth i (dates_from start n) 0 = start + Z.of_nat i.
Proof.
  induction n as [| n IH]; intros start i Hi; [lia |].
  destruct i as [| i]; simpl.
  - lia.
  - rewrite IH by lia. lia.
Qed.

Lemma dates_from_In n : forall start d,
  In d (dates_from start n) <-> start <= d < start + Z.of_nat n.
Proof.
  induction n as [| n IH]; intros start d; simpl.
  - split; [contradiction | lia].
  - rewrite IH. lia.
Qed.

Lemma dates_from_NoDup n : forall start, NoDup (dates_from start n).
Proof.
  induction n as [| n IH]; intros start; simpl; constructor.
  - rewrite dates_from_In. lia.
  - apply IH.
Qed.

(** When no git command fails, the maximum is at least 1 and the dates
    of the range are valid, [simulate_commits] returns normally and, for the
    commit events [evs] it generated, in order: its actions are, after the
    opening of the file, for each event one activity line "Update at
    <timestamp>" appended, one [git add] and one [git commit] run under an
    environment that sets GIT_AUTHOR_DATE and GIT_COMMITTER_DATE to the
    event's timestamp, with the message "Automated commit on <timestamp>";
    the repository gains exactly one commit per event with those dates and
    that message, and the file exactly one line per event. *)
Lemma simulate_commits_when_git_works (args : Args) (w : World) :
  quiet w ->
  1 <= max_commits args ->
  0 < today w - days_before args <= MAXORDINAL ->
  0 < today w + days_after args < MAXORDINAL ->
  let evs := run_events args
               (date_range (today w - days_before args) (today w + days_after args))
               (rand w) in
  exists w',
    simulate_commits args w = (Ok tt, w')
    /\ trace w' = trace w ++ file_actions (file args) w
                   ++ flat_map (commit_actions (file args) (environ w)) evs
    /\ commits w' = commits w ++ map commit_of evs
    /\ read_file (file args) w'
       = initial_content (file args) w @@ join (map activity_line evs)
    /\ (forall dt,
          lookup "GIT_AUTHOR_DATE" (commit_env (environ w) dt) = Some (isoformat dt)
          /\ lookup "GIT_COMMITTER_DATE" (commit_env (environ w) dt) = Some (isoformat dt)
          /\ activity_line dt = "Update at " @@ str_datetime dt @@ LF
          /\ commit_message dt = "Automated commit on " @@ strftime_ymd_hms dt).
Proof.
  intros Q Hmax Hs He evs.
  rewrite simulate_commits_walks by assumption.
  destruct (open_activity_file_ok (file args) w)
    as (w0 & E0 & T0 & F0 & C0 & R0 & V0 & M0 & D0 & O0 & N0).
  rewrite (bind_ok _ _ _ _ _ E0).
  destruct (for_each_ok args
              (date_range (today w - days_before args) (today w + days_after args)) w0)
    as (w' & rs' & E1 & T1 & C1 & F1 & _); [eapply quiet_same; eauto | exact Hmax |].
  exists w'. split; [exact E1 |].
  rewrite T1, C1, F1, T0, C0, F0, V0, R0, <- app_assoc.
  repeat split; apply commit_env_dates.
Qed.

(** C6.  When the dates of the range are valid, [simulate_commits] runs the
    body of its loop once for each date of the list from [today - days_before]
    to [today + days_after], in the order of the list; the list holds exactly
    the dates between the two bounds, both included, each once, in ascending
    order; with [days_before = days_after = 0] it is the single date [today],
    and without [no_weekends] no date of it is skipped. *)
Theorem walked_dates_are_the_range (args : Args) (w : World) :
  0 < today w - days_before args <= MAXORDINAL ->
  0 < today w + days_after args < MAXORDINAL ->
  let start := today w - days_before args in
  let stop := today w + days_after args in
  simulate_commits args w
  = (open_activity_file (file args) ;; for_each (date_range start stop) (one_day args)) w
  /\ (forall d, In d (date_range start stop) <-> start <= d <= stop)
  /\ (forall i, (i < List.length (date_range start stop))%nat ->
                nth i (date_range start stop) 0 = start + Z.of_nat i)
  /\ NoDup (date_range start stop)
  /\ (days_before args = 0 -> days_after args = 0 -> date_range start stop = [today w])
  /\ (no_weekends args = false -> forall d, skipped args d = false).
Proof.
  intros Hs He start stop. split; [apply simulate_commits_walks; assumption |].
  unfold date_range. split; [| split; [| split; [| split]]].
  - intros d. rewrite dates_from_In. lia.
  - intros i Hi. rewrite dates_from_length in Hi. apply dates_from_nth, Hi.
  - apply dates_from_NoDup.
  - intros Hb Ha. subst start stop. rewrite Hb, Ha.
    replace (today w + 0 - (today w - 0) + 1) with 1 by lia.
    cbn. rewrite Z.sub_0_r. reflexivity.
  - intros Hn d. unfold skipped. rewrite Hn. reflexivity.
Qed.

(** *** The draws of one day *)


(** *** A maximum below 1 *)

Lemma one_day_empty_count args d w :
  max_commits args < 1 -> skipped args d = false -> active args (rand w) = true ->
  one_day args d w = (Raise ValueError, with_rand (tl (rand w)) w).
Proof.
  intros Hmax Hs Ha. unfold one_day. fold (skipped args d). rewrite Hs.
  erewrite bind_ok by (apply randint_ok; lia).
  unfold active in Ha. rewrite Ha.
  erewrite bind_raise by (apply randint_empty; lia). reflexivity.
Qed.

Lemma one_day_inactive args d w :
  skipped args d = false -> active args (rand w) = false ->
  one_day args d w = (Ok tt, with_rand (tl (rand w)) w).
Proof.
  intros Hs Ha. unfold one_day. fold (skipped args d). rewrite Hs.
  erewrite bind_ok by (apply randint_ok; lia).
  unfold active in Ha. rewrite Ha. reflexivity.
Qed.

Lemma one_day_skipped args d w :
  skipped args d = true -> one_day args d w = (Ok tt, w).
Proof.
  intros Hs. unfold one_day. fold (skipped args d). rewrite Hs. reflexivity.
Qed.

Lemma for_each_empty_count args : forall dates w,
  max_commits args < 1 ->
  some_day_active args dates (rand w) = true ->
  exists w', for_each dates (one_day args) w = (Raise ValueError, w')
             /\ trace w' = trace w /\ commits w' = commits w.
Proof.
  induction dates as [| d dates IH]; intros w Hmax Ha; [discriminate |].
  cbn [some_day_active] in Ha. cbn [for_each].
  destruct (skipped args d) eqn:Hs.
  - erewrite bind_ok by (apply one_day_skipped; exact Hs). apply IH; assumption.
  - destruct (active args (rand w)) eqn:Hact.
    + erewrite bind_raise by (apply one_day_empty_count; assumption).
      eexists. split; [reflexivity | split; reflexivity].
    + erewrite bind_ok by (apply one_day_inactive; assumption).
      destruct (IH (with_rand (tl (rand w)) w) Hmax Ha) as (w' & E & T & C).
      exists w'. split; [exact E | split; assumption].
Qed.

(** *** Prefixes, suffixes and substrings *)

Lemma length_append (a b : string) :
  String.length (a @@ b) = (String.length a + String.length b)%nat.
Proof. induction a as [| x a IH]; simpl; [reflexivity | rewrite IH; reflexivity]. Qed.

Lemma prefix_append (p r : string) : String.prefix p (p @@ r) = true.
Proof.
  induction p as [| x p IH]; simpl.
  - destruct r; reflexivity.
  - destruct (ascii_dec x x); [exact IH | contradiction].
Qed.

Lemma drop_append (p r : string) : drop (String.length p) (p @@ r) = r.
Proof. induction p as [| x p IH]; simpl; [reflexivity | exact IH]. Qed.

Lemma take_append (p r : string) : take (String.length p) (p @@ r) = p.
Proof. induction p as [| x p IH]; simpl; [reflexivity | rewrite IH; reflexivity]. Qed.

Lemma endswith_append (body suffix : string) : endswith (body @@ suffix) suffix = true.
Proof.
  unfold endswith. rewrite length_append.
  replace (String.length body + String.length suffix - String.length suffix)%nat
    with (String.length body) by lia.
  rewrite drop_append, String.eqb_refl.
  apply andb_true_intro. split; [apply Nat.leb_le; lia | reflexivity].
Qed.

Lemma drop_last_append (body suffix : string) :
  drop_last (String.length suffix) (body @@ suffix) = body.
Proof.
  unfold drop_last. rewrite length_append.
  replace (String.length body + String.length suffix - String.length suffix)%nat
    with (String.length body) by lia.
  apply take_append.
Qed.

Lemma without_git_suffix_spec (s : string) :
  (forall body, s = body @@ ".git" -> without_git_suffix s = body)
  /\ (endswith s ".git" = false -> without_git_suffix s = s).
Proof.
  unfold without_git_suffix. split.
  - intros body E. subst s. rewrite endswith_append. apply drop_last_append.
  - intros E. rewrite E. reflexivity.
Qed.

Lemma contains_prefix (p s : string) : String.prefix p s = true -> contains p s = true.
Proof. intros H. destruct s; simpl in *; rewrite H; reflexivity. Qed.

Lemma contains_append_l (p a s : string) : contains p s = true -> contains p (a @@ s) = true.
Proof.
  intros H. induction a as [| x a IH]; simpl; [exact H |].
  cbn [contains] in IH. rewrite IH. apply orb_true_r.
Qed.

Lemma contains_middle (p a b : string) : contains p (a @@ p @@ b) = true.
Proof. apply contains_append_l, contains_prefix, prefix_append. Qed.

Lemma contains_listing (name : string) (rs : list (string * string)) :
  existsb (String.eqb name) (map fst rs) = true ->
  contains name (join (map (fun r => fst r @@ LF) rs)) = true.
Proof.
  induction rs as [| [n u] rs IH]; simpl; [discriminate |].
  destruct (String.eqb_spec name n) as [E | E]; simpl; intros H.
  - subst n. rewrite append_assoc. apply contains_prefix, prefix_append.
  - apply contains_append_l, IH, H.
Qed.

(** *** Reading the repository name off the remote *)

Lemma repo_name_read w url :
  hd Done (outcomes w) = Done ->
  lookup "origin" (remotes w) = Some url ->
  let u := strip (url @@ LF) in
  let name :=
    without_git_suffix
      (if startswith u "git@github.com:" then drop (String.length "git@github.com:") u
       else if startswith u "https://github.com/"
            then drop (String.length "https://github.com/") u
            else u) in
  get_github_repo_name_from_remote w
  = (Ok (Some name),
     emit (Log INFO ("Determined GitHub repo name: " @@ name) None)
       (emit (Exec ["git"; "config"; "--get"; "remote.origin.url"] None true)
          (with_repo (repo_of w) (with_outcomes (tl (outcomes w)) w)))).
Proof.
  intros Ho Hl u name.
  unfold get_github_repo_name_from_remote, try_except, bind, run.
  rewrite Ho. cbn [git_effect repo_of r_remotes]. rewrite Hl. reflexivity.
Qed.

Lemma repo_name_unread w :
  (exists status, hd Done (outcomes w) = Failed status) \/ lookup "origin" (remotes w) = None ->
  exists status,
    get_github_repo_name_from_remote w
    = (Ok None,
       emit (Log ERROR "Error getting GitHub repo name: "
               (Some (CalledProcessError ["git"; "config"; "--get"; "remote.origin.url"]
                        status)))
         (emit (Exec ["git"; "config"; "--get"; "remote.origin.url"] None false)
            (with_outcomes (tl (outcomes w)) w))).
Proof.
  intros H.
  unfold get_github_repo_name_from_remote, try_except, bind, run.
  destruct (hd Done (outcomes w)) as [| status] eqn:Ho.
  - destruct H as [[status H] | H]; [discriminate |].
    cbn [git_effect repo_of r_remotes]. rewrite H. exists 1. reflexivity.
  - exists status. reflexivity.
Qed.

(** C4, as the code has it.  The function returns nothing exactly when the
    [git config] command that reads the origin URL fails.  Whenever the URL is
    read, it returns a string, also for a URL of neither recognized shape: with
    [u] the URL stripped of surrounding whitespace, the rest of [u] after
    "git@github.com:" or after "https://github.com/" when [u] starts with one
    of them, else [u] itself, in each case without one trailing ".git". *)
Theorem repo_name_from_remote_amended (w : World) (url : string) :
  hd Done (outcomes w) = Done ->
  lookup "origin" (remotes w) = Some url ->
  let u := strip (url @@ LF) in
  (forall rest, u = "git@github.com:" @@ rest ->
     fst (get_github_repo_name_from_remote w) = Ok (Some (without_git_suffix rest)))
  /\ (forall rest, u = "https://github.com/" @@ rest ->
        fst (get_github_repo_name_from_remote w) = Ok (Some (without_git_suffix rest)))
  /\ (startswith u "git@github.com:" = false ->
      startswith u "https://github.com/" = false ->
        fst (get_github_repo_name_from_remote w) = Ok (Some (without_git_suffix u)))
  /\ (forall s, (forall body, s = body @@ ".git" -> without_git_suffix s = body)
                /\ (endswith s ".git" = false -> without_git_suffix s = s))
  /\ (forall w0, fst (get_github_repo_name_from_remote w0) = Ok None <->
                 (exists status, hd Done (outcomes w0) = Failed status)
                 \/ lookup "origin" (remotes w0) = None).
Proof.
  intros Ho Hl u.
  pose proof (repo_name_read w url Ho Hl) as E. cbv zeta in E. fold u in E.
  split; [| split; [| split; [| split]]].
  - intros rest Hu. rewrite E. cbn [fst]. rewrite Hu.
    unfold startswith. rewrite prefix_append, drop_append. reflexivity.
  - intros rest Hu. rewrite E. cbn [fst]. rewrite Hu.
    unfold startswith at 1.
    replace (String.prefix "git@github.com:" ("https://github.com/" @@ rest)) with false
      by reflexivity.
    unfold startswith. rewrite prefix_append, drop_append. reflexivity.
  - intros H1 H2. rewrite E. cbn [fst]. rewrite H1, H2. reflexivity.
  - apply without_git_suffix_spec.
  - intros w0. split.
    + intros H0. destruct (hd Done (outcomes w0)) as [| status] eqn:Ho0; [| eauto].
      right. destruct (lookup "origin" (remotes w0)) as [url0 |] eqn:Hl0; [| reflexivity].
      rewrite (repo_name_read w0 url0 Ho0 Hl0) in H0. discriminate.
    + intros H0. destruct (repo_name_unread w0 H0) as [status E0].
      rewrite E0. reflexivity.
Qed.

(** *** Repository setup *)

(** Reduces the projections of an updated world. *)
Ltac simpl_world :=
  cbn [fs remotes commits environ today now rand outcomes forge_pr_number trace
       emit with_trace with_repo with_fs with_remotes with_commits with_outcomes
       with_rand r_fs r_remotes r_commits repo_of].

Lemma init_repo_present w :
  existsb (String.eqb ".git") (map fst (fs w)) = true ->
  init_repo w = (Ok tt, emit (Log INFO "Git repository already initialized." None) w).
Proof.
  intros H. unfold init_repo, bind, path_exists. rewrite H. reflexivity.
Qed.

Lemma init_repo_absent w :
  existsb (String.eqb ".git") (map fst (fs w)) = false ->
  init_repo w
  = match hd Done (outcomes w) with
    | Done =>
        (Ok tt,
         emit (Log INFO "Initialized a new git repository." None)
           (emit (Exec ["git"; "init"] None true)
              (with_repo {| r_fs := fs w ++ [(".git", "")];
                            r_remotes := remotes w; r_commits := commits w |}
                 (with_outcomes (tl (outcomes w)) w))))
    | Failed status =>
        (Raise (CalledProcessError ["git"; "init"] status),
         emit (Exec ["git"; "init"] None false) (with_outcomes (tl (outcomes w)) w))
    end.
Proof.
  intros H. unfold init_repo, bind, path_exists, run. rewrite H.
  cbn [negb git_effect repo_of r_fs]. rewrite H.
  destruct (hd Done (outcomes w)); reflexivity.
Qed.

Lemma existsb_app_r k (d d' : list (string * string)) :
  existsb (String.eqb k) (map fst d') = true ->
  existsb (String.eqb k) (map fst (d ++ d')) = true.
Proof.
  intros H. rewrite map_app, existsb_app, H. apply orb_true_r.
Qed.

(** Initialising twice: the second call finds the repository and leaves it. *)
Lemma init_repo_idempotent w w1 :
  init_repo w = (Ok tt, w1) ->
  exists w2, init_repo w1 = (Ok tt, w2) /\ repo_of w2 = repo_of w1.
Proof.
  intros E.
  assert (H1 : existsb (String.eqb ".git") (map fst (fs w1)) = true).
  { destruct (existsb (String.eqb ".git") (map fst (fs w))) eqn:H.
    - rewrite (init_repo_present w H) in E. inversion E; subst. exact H.
    - rewrite (init_repo_absent w H) in E.
      destruct (hd Done (outcomes w)); inversion E; subst.
      simpl_world. apply existsb_app_r. reflexivity. }
  rewrite (init_repo_present w1 H1). eexists. split; reflexivity.
Qed.

(** What [git remote] prints. *)
Lemma set_remote_listed w url :
  hd Done (outcomes w) = Done ->
  contains "origin" (join (map (fun r => fst r @@ LF) (remotes w))) = true ->
  set_remote url w
  = (Ok tt, emit (Log INFO "Remote origin already set." None)
              (emit (Exec ["git"; "remote"] None true)
                 (with_repo (repo_of w) (with_outcomes (tl (outcomes w)) w)))).
Proof.
  intros Ho Hc. unfold set_remote, bind, run. rewrite Ho.
  cbn [git_effect repo_of r_remotes snd]. rewrite Hc. reflexivity.
Qed.

Lemma set_remote_added w url :
  hd Done (outcomes w) = Done ->
  hd Done (tl (outcomes w)) = Done ->
  contains "origin" (join (map (fun r => fst r @@ LF) (remotes w))) = false ->
  set_remote url w
  = (Ok tt,
     emit (Log INFO ("Set remote origin to " @@ url @@ ".") None)
       (emit (Exec ["git"; "remote"; "add"; "origin"; url] None true)
          (with_repo {| r_fs := fs w; r_remotes := remotes w ++ [("origin", url)];
                        r_commits := commits w |}
             (with_outcomes (tl (tl (outcomes w)))
                (emit (Exec ["git"; "remote"] None true) w))))).
Proof.
  intros Ho Ho2 Hc. unfold set_remote, bind, run. rewrite Ho.
  cbn [git_effect repo_of r_remotes snd]. rewrite Hc.
  cbn [negb]. simpl_world. rewrite Ho2.
  cbn [git_effect]. simpl_world.
  destruct (existsb (String.eqb "origin") (map fst (remotes w))) eqn:Hex.
  - rewrite (contains_listing "origin" (remotes w) Hex) in Hc. discriminate.
  - reflexivity.
Qed.

(** [set_remote] changes the remotes only by adding an origin where none was. *)
Lemma set_remote_adds_only_origin url w r w' :
  set_remote url w = (r, w') ->
  remotes w' = remotes w
  \/ (existsb (String.eqb "origin") (map fst (remotes w)) = false
      /\ remotes w' = remotes w ++ [("origin", url)]).
Proof.
  unfold set_remote, bind, run.
  destruct (hd Done (outcomes w)).
  - cbn [git_effect repo_of r_remotes snd].
    destruct (contains "origin" _).
    + intros E. inversion E; subst. left. reflexivity.
    + cbn [negb]. simpl_world.
      destruct (hd Done (tl (outcomes w))).
      * cbn [git_effect]. simpl_world.
        destruct (existsb (String.eqb "origin") (map fst (remotes w))) eqn:Hex.
        -- intros E. inversion E; subst. left. reflexivity.
        -- intros E. inversion E; subst. right. split; reflexivity.
      * intros E. inversion E; subst. left. reflexivity.
  - cbn [snd contains String.prefix negb orb]. simpl_world.
    destruct (hd Done (tl (outcomes w))).
    + cbn [git_effect]. simpl_world.
      destruct (existsb (String.eqb "origin") (map fst (remotes w))) eqn:Hex.
      * intros E. inversion E; subst. left. reflexivity.
      * intros E. inversion E; subst. right. split; reflexivity.
    + intros E. inversion E; subst. left. reflexivity.
Qed.

(** No call of [set_remote] makes two remotes of one name. *)
Lemma set_remote_no_duplicate url w r w' :
  NoDup (map fst (remotes w)) ->
  set_remote url w = (r, w') ->
  NoDup (map fst (remotes w')).
Proof.
  intros N E. destruct (set_remote_adds_only_origin _ _ _ _ E) as [H | [Hex H]];
    rewrite H; [exact N |].
  rewrite map_app. cbn [map fst].
  apply NoDup_app; [exact N | repeat constructor; intros [] |].
  intros x Hx [Ho | []]. subst x.
  assert (existsb (String.eqb "origin") (map fst (remotes w)) = true).
  { apply existsb_exists. exists "origin". split; [exact Hx | apply String.eqb_refl]. }
  congruence.
Qed.

(** Configuring the remote twice: when the second listing of the remotes
    works, the second call changes nothing in the repository. *)
Lemma set_remote_idempotent url w w1 :
  set_remote url w = (Ok tt, w1) ->
  hd Done (outcomes w1) = Done ->
  exists w2, set_remote url w1 = (Ok tt, w2) /\ repo_of w2 = repo_of w1.
Proof.
  intros E Ho1.
  assert (Hc : contains "origin" (join (map (fun r => fst r @@ LF) (remotes w1))) = true).
  { revert E. unfold set_remote, bind, run.
    destruct (hd Done (outcomes w)).
    - cbn [git_effect repo_of r_remotes snd].
      destruct (contains "origin" _) eqn:Hc.
      + intros E. inversion E; subst. exact Hc.
      + cbn [negb]. simpl_world.
        destruct (hd Done (tl (outcomes w))).
        * cbn [git_effect]. simpl_world.
          destruct (existsb (String.eqb "origin") (map fst (remotes w))) eqn:Hex.
          -- intros E. inversion E.
          -- intros E. inversion E; subst. simpl_world.
             apply contains_listing, existsb_app_r. reflexivity.
        * intros E. inversion E.
    - cbn [snd contains String.prefix negb orb]. simpl_world.
      destruct (hd Done (tl (outcomes w))).
      + cbn [git_effect]. simpl_world.
        destruct (existsb (String.eqb "origin") (map fst (remotes w))) eqn:Hex.
        * intros E. inversion E.
        * intros E. inversion E; subst. simpl_world.
          apply contains_listing, existsb_app_r. reflexivity.
      + intros E. inversion E. }
  rewrite (set_remote_listed w1 url Ho1 Hc). eexists. split; reflexivity.
Qed.

(** C7, where the code departs from it.  With a remote whose name contains
    "origin" and no remote named "origin", [set_remote] finds "origin" in the
    listing of the remotes, logs that the origin is already set and adds
    nothing. *)
Theorem set_remote_skips_when_a_name_contains_origin :
  lookup "origin" (remotes backup_remote_world) = None
  /\ fst (set_remote "git@github.com:user/repo.git" backup_remote_world) = Ok tt
  /\ remotes (snd (set_remote "git@github.com:user/repo.git" backup_remote_world))
     = remotes backup_remote_world
  /\ trace (snd (set_remote "git@github.com:user/repo.git" backup_remote_world))
     = [Exec ["git"; "remote"] None true; Log INFO "Remote origin already set." None].
Proof. repeat split. Qed.

(** *** Failures that are caught and logged *)

Lemma logged_app a b : logged a -> logged b -> logged (a ++ b).
Proof.
  induction 1; intros Hb; cbn [app]; [exact Hb | |].
  - apply logged_ok; auto.
  - apply logged_failed; auto.
Qed.

(** Decides [logged] on a list that is written out. *)
Ltac logged_list :=
  repeat first
    [ apply logged_nil
    | apply logged_failed; [reflexivity |]
    | apply logged_ok; [reflexivity |] ].

Lemma handles_bind {A B} (m : M A) (k : A -> M B) :
  handles m -> (forall a, handles (k a)) -> handles (bind m k).
Proof.
  intros Hm Hk w r w' E. unfold bind in E.
  destruct (m w) as [r1 w1] eqn:E1.
  destruct (Hm _ _ _ E1) as ([a Ha] & n1 & T1 & L1). subst r1.
  destruct (Hk a _ _ _ E) as (Hr & n2 & T2 & L2).
  split; [exact Hr |]. exists (n1 ++ n2).
  rewrite T2, T1, app_assoc. split; [reflexivity | apply logged_app; assumption].
Qed.

Lemma handles_ret {A} (a : A) : handles (ret a).
Proof.
  intros w r w' E. inversion E; subst. split; [eauto |].
  exists []. rewrite app_nil_r. split; [reflexivity | constructor].
Qed.

Lemma handles_logging_info msg : handles (logging_info msg).
Proof.
  intros w r w' E. inversion E; subst. split; [eauto |].
  eexists. split; [reflexivity | logged_list].
Qed.

Lemma handles_logging_error msg exc : handles (logging_error msg exc).
Proof.
  intros w r w' E. inversion E; subst. split; [eauto |].
  eexists. split; [reflexivity | logged_list].
Qed.

Lemma handles_os_getenv name : handles (os_getenv name).
Proof.
  intros w r w' E. inversion E; subst. split; [eauto |].
  exists []. rewrite app_nil_r. split; [reflexivity | constructor].
Qed.

(** Closes [handles] goals of the script's functions once their runs are
    written out. *)
Ltac handled E :=
  inversion E; subst; split; [eauto |];
  eexists; split;
  [ simpl_world; rewrite <- ?app_assoc; cbn [app]; reflexivity | logged_list ].

Lemma handles_push_branch branch_name : handles (push_branch branch_name).
Proof.
  intros w r w' E.
  unfold push_branch, try_except, bind, run, logging_info, logging_error in E.
  cbn [git_effect is_CalledProcessError] in E.
  destruct (hd Done (outcomes w)); handled E.
Qed.

Lemma handles_repo_name : handles get_github_repo_name_from_remote.
Proof.
  intros w r w' E.
  destruct (hd Done (outcomes w)) as [| status] eqn:Ho.
  - destruct (lookup "origin" (remotes w)) as [url |] eqn:Hl.
    + rewrite (repo_name_read w url Ho Hl) in E. handled E.
    + destruct (repo_name_unread w (or_intror Hl)) as [st E']. rewrite E' in E. handled E.
  - destruct (repo_name_unread w (or_introl (ex_intro _ status Ho))) as [st E'].
    rewrite E' in E. handled E.
Qed.

Lemma handles_create_pull_request token name branch base :
  handles (create_pull_request token name branch base).
Proof.
  intros w r w' E.
  unfold create_pull_request, try_except, bind, api, logging_info, logging_error, ret,
    forge_number in E.
  destruct (hd Done (outcomes w)); simpl_world; cbn [is_Exception] in E.
  - revert E. simpl_world. destruct (hd Done (tl (outcomes w))); intros E; handled E.
  - handled E.
Qed.

Lemma handles_simulate_code_review pr : handles (simulate_code_review pr).
Proof.
  intros w r w' E.
  unfold simulate_code_review, try_except, bind, api, choice_true_false, logging_info,
    logging_error in E.
  revert E. simpl_world. destruct (hd Done (outcomes w)); intros E; handled E.
Qed.

Lemma create_new_branch_done branch_name w :
  hd Done (outcomes w) = Done ->
  create_new_branch branch_name w
  = (Ok tt,
     emit (Log INFO ("Created and switched to branch: " @@ branch_name) None)
       (emit (Exec ["git"; "checkout"; "-b"; branch_name] None true)
          (with_repo (repo_of w) (with_outcomes (tl (outcomes w)) w)))).
Proof.
  intros Ho. unfold create_new_branch, try_except, bind, run. rewrite Ho. reflexivity.
Qed.

Lemma create_new_branch_failed branch_name w status :
  hd Done (outcomes w) = Failed status ->
  create_new_branch branch_name w
  = (Raise (SystemExit "Branch creation failed."),
     emit (Log ERROR ("Error creating branch " @@ branch_name @@ ": ")
             (Some (CalledProcessError ["git"; "checkout"; "-b"; branch_name] status)))
       (emit (Exec ["git"; "checkout"; "-b"; branch_name] None false)
          (with_outcomes (tl (outcomes w)) w))).
Proof.
  intros Ho. unfold create_new_branch, try_except, bind, run. rewrite Ho. reflexivity.
Qed.

(** The branch name [publish] makes up. *)
Lemma publish_branch_failed w status :
  hd Done (outcomes w) = Failed status ->
  let branch_name := "auto_pr_" @@ strftime_compact (now w) in
  publish w
  = (Raise (SystemExit "Branch creation failed."),
     emit (Log ERROR ("Error creating branch " @@ branch_name @@ ": ")
             (Some (CalledProcessError ["git"; "checkout"; "-b"; branch_name] status)))
       (emit (Exec ["git"; "checkout"; "-b"; branch_name] None false)
          (with_outcomes (tl (outcomes w)) w))).
Proof.
  intros Ho branch_name. unfold publish.
  erewrite bind_ok by reflexivity.
  erewrite bind_raise by (apply create_new_branch_failed; exact Ho). reflexivity.
Qed.

Lemma publish_branch_created w :
  hd Done (outcomes w) = Done ->
  fst (publish w) = Ok tt
  /\ exists new, trace (snd (publish w)) = trace w ++ new /\ logged new.
Proof.
  intros Ho. unfold publish.
  erewrite bind_ok by reflexivity.
  erewrite bind_ok by (apply create_new_branch_done; exact Ho).
  match goal with
  | |- context [bind ?m ?k ?w1] =>
      assert (H : handles (bind m k)); [| destruct (bind m k w1) as [r w'] eqn:E]
  end.
  - apply handles_bind; [apply handles_push_branch | intros _].
    apply handles_bind; [apply handles_repo_name | intros name].
    destruct (negb (truthy name)); [apply handles_logging_error |].
    apply handles_bind; [apply handles_os_getenv | intros token].
    destruct (negb (truthy token)); [apply handles_logging_error |].
    apply handles_bind; [apply handles_create_pull_request | intros pr].
    apply handles_bind; [| intros _; apply handles_logging_info].
    destruct pr; [apply handles_simulate_code_review | apply handles_logging_error].
  - destruct (H _ _ _ E) as ([[] Hr] & new & T & L). subst r.
    split; [reflexivity |]. cbn [snd].
    rewrite T. simpl_world. rewrite <- !app_assoc.
    eexists. split; [reflexivity |]. cbn [app].
    apply logged_ok; [reflexivity |]. apply logged_ok; [reflexivity | exact L].
Qed.

(** *** Failures that are not caught *)

Lemma strict_of_emits {A} (m : M A) :
  emits (fun e => unguarded_failure e = false) m -> strict m.
Proof.
  intros H w r w' E. destruct (H _ _ _ E) as (new & T & F).
  exists new. split; [exact T | left; exact F].
Qed.

Lemma strict_bind {A B} (m : M A) (k : A -> M B) :
  strict m -> (forall a, strict (k a)) -> strict (bind m k).
Proof.
  intros Hm Hk w r w' E. unfold bind in E.
  destruct (m w) as [r1 w1] eqn:E1.
  destruct (Hm _ _ _ E1) as (n1 & T1 & D1).
  destruct r1 as [a | e |].
  - destruct D1 as [F1 | (pre & argv & env & st & _ & _ & _ & Hr)]; [| discriminate].
    destruct (Hk a _ _ _ E) as (n2 & T2 & D2).
    exists (n1 ++ n2). rewrite T2, T1, app_assoc. split; [reflexivity |].
    destruct D2 as [F2 | (pre & argv & env & st & N2 & F2 & U2 & Hr)].
    + left. apply Forall_app. split; assumption.
    + right. exists (n1 ++ pre), argv, env, st. subst n2.
      rewrite app_assoc. repeat split; try assumption.
      apply Forall_app. split; assumption.
  - inversion E; subst. exists n1. split; [assumption |].
    destruct D1 as [F1 | (pre & argv & env & st & N1 & F1 & U1 & Hr)]; [left; exact F1 |].
    right. exists pre, argv, env, st. inversion Hr; subst. repeat split; assumption.
  - inversion E; subst. exists n1. split; [assumption |].
    destruct D1 as [F1 | (pre & argv & env & st & _ & _ & _ & Hr)];
      [left; exact F1 | discriminate].
Qed.

Lemma strict_run_checked argv env : strict (run argv env true).
Proof.
  intros w r w' E.
  assert (Hok : unguarded_failure (Exec argv env true) = false) by reflexivity.
  assert (Hfail : forall status w1,
            (Raise (CalledProcessError argv status), emit (Exec argv env false) w1)
            = (r, w') -> trace w1 = trace w ->
            exists new, trace w' = trace w ++ new
              /\ (Forall (fun e => unguarded_failure e = false) new
                  \/ exists pre argv0 env0 status0,
                       new = pre ++ [Exec argv0 env0 false]
                       /\ Forall (fun e => unguarded_failure e = false) pre
                       /\ unguarded_failure (Exec argv0 env0 false) = true
                       /\ r = Raise (CalledProcessError argv0 status0))).
  { intros status w1 E' T1. inversion E'; subst. exists [Exec argv env false].
    simpl_world. rewrite T1. split; [reflexivity |].
    destruct (unguarded_failure (Exec argv env false)) eqn:U.
    - right. exists [], argv, env, status. repeat split; [constructor | exact U].
    - left. repeat constructor. exact U. }
  unfold run in E. destruct (hd Done (outcomes w)).
  - destruct (git_effect _ _ _) as [[out g] | status].
    + inversion E; subst. exists [Exec argv env true]. split; [reflexivity |].
      left. repeat constructor.
    + eapply Hfail; [exact E | reflexivity].
  - eapply Hfail; [exact E | reflexivity].
Qed.

(** Solves [emits] goals about events that are no failures of the unguarded
    commands. *)
Ltac not_unguarded :=
  repeat first
    [ emits_step
    | match goal with
      | |- emits _ (if ?b then _ else _) => destruct b
      | |- emits _ (match ?x with Some _ => _ | None => _ end) => destruct x
      | ok : bool |- unguarded_failure _ = false => destruct ok; reflexivity
      | |- unguarded_failure _ = false => reflexivity
      end ].

Lemma strict_init_repo : strict init_repo.
Proof.
  unfold init_repo. apply strict_bind; [apply strict_of_emits; not_unguarded | intros e].
  destruct (negb e); [| apply strict_of_emits; not_unguarded].
  apply strict_bind; [apply strict_run_checked | intros _].
  apply strict_of_emits; not_unguarded.
Qed.

Lemma strict_set_remote url : strict (set_remote url).
Proof.
  unfold set_remote. apply strict_bind; [apply strict_of_emits; not_unguarded | intros r].
  destruct (negb _); [| apply strict_of_emits; not_unguarded].
  apply strict_bind; [apply strict_run_checked | intros _].
  apply strict_of_emits; not_unguarded.
Qed.

Lemma strict_for_range n body : strict body -> strict (for_range n body).
Proof.
  intros H. induction n as [| n IH]; cbn [for_range].
  - apply strict_of_emits, emits_ret.
  - apply strict_bind; [exact H | intros _; exact IH].
Qed.

Lemma strict_commit_once file_path d : strict (commit_once file_path d).
Proof.
  unfold commit_once.
  do 6 (apply strict_bind; [apply strict_of_emits; not_unguarded | intros ?]).
  apply strict_bind; [apply strict_run_checked | intros _].
  apply strict_bind; [apply strict_run_checked | intros _].
  apply strict_of_emits; not_unguarded.
Qed.

Lemma strict_one_day args d : strict (one_day args d).
Proof.
  unfold one_day. destruct (_ && _); [apply strict_of_emits, emits_ret |].
  apply strict_bind; [apply strict_of_emits; not_unguarded | intros draw].
  destruct (draw <=? frequency args); [| apply strict_of_emits, emits_ret].
  apply strict_bind; [apply strict_of_emits; not_unguarded | intros n].
  apply strict_for_range, strict_commit_once.
Qed.

Lemma strict_walk args stop : forall fuel start, strict (walk fuel args stop start).
Proof.
  induction fuel as [| fuel IH]; intros start; cbn [walk].
  - apply strict_of_emits, emits_silent. intros w r w' E. inversion E. reflexivity.
  - destruct (start <=? stop); [| apply strict_of_emits, emits_ret].
    apply strict_bind; [apply strict_one_day | intros _].
    apply strict_bind; [apply strict_of_emits; not_unguarded | intros next; apply IH].
Qed.

Lemma strict_simulate_commits args : strict (simulate_commits args).
Proof.
  unfold simulate_commits.
  apply strict_bind.
  { apply strict_of_emits. unfold open_activity_file. not_unguarded. }
  intros _. do 3 (apply strict_bind; [apply strict_of_emits; not_unguarded | intros ?]).
  apply strict_walk.
Qed.

Lemma emits_publish_guarded : emits (fun e => unguarded_failure e = false) publish.
Proof.
  unfold publish, create_new_branch, push_branch, get_github_repo_name_from_remote,
    create_pull_request, simulate_code_review.
  not_unguarded.
Qed.

Lemma strict_main args : strict (main args).
Proof.
  unfold main.
  apply strict_bind; [apply strict_init_repo | intros _].
  apply strict_bind.
  { destruct (truthy _); [apply strict_set_remote | apply strict_of_emits, emits_ret]. }
  intros _. apply strict_bind; [apply strict_simulate_commits | intros _].
  destruct (truthy _); apply strict_of_emits; [apply emits_publish_guarded | not_unguarded].
Qed.

(** *** How a run can end *)

Section RaisesOnly.

Context (P : exn -> Prop).

Lemma raises_only_total {A} (m : M A) :
  (forall w, exists a w', m w = (Ok a, w')) -> raises_only P m.
Proof.
  intros H w r w' E. destruct (H w) as (a & w1 & E1). rewrite E1 in E.
  inversion E; subst. left. eauto.
Qed.

Lemma raises_only_ret {A} (a : A) : raises_only P (ret a).
Proof. apply raises_only_total. intros w. eexists _, _. reflexivity. Qed.

Lemma raises_only_raise {A} e : P e -> raises_only P (@raise A e).
Proof. intros H w r w' E. inversion E; subst. right. eauto. Qed.

Lemma raises_only_handles {A} (m : M A) : handles m -> raises_only P m.
Proof. intros H w r w' E. left. apply (H _ _ _ E). Qed.

Lemma raises_only_bind_post {A B} (R : A -> Prop) (m : M A) (k : A -> M B) :
  raises_only P m ->
  (forall w a w', m w = (Ok a, w') -> R a) ->
  (forall a, R a -> raises_only P (k a)) ->
  raises_only P (bind m k).
Proof.
  intros Hm HR Hk w r w' E. unfold bind in E.
  destruct (m w) as [r1 w1] eqn:E1.
  destruct (Hm _ _ _ E1) as [[a Ha] | (e & He & Pe)]; subst r1.
  - exact (Hk a (HR _ _ _ E1) _ _ _ E).
  - inversion E; subst. right. eauto.
Qed.

Lemma raises_only_bind {A B} (m : M A) (k : A -> M B) :
  raises_only P m -> (forall a, raises_only P (k a)) -> raises_only P (bind m k).
Proof.
  intros Hm Hk. apply (raises_only_bind_post (fun _ => True)); auto.
Qed.

Lemma raises_only_for_range n body : raises_only P body -> raises_only P (for_range n body).
Proof.
  intros H. induction n as [| n IH]; cbn [for_range].
  - apply raises_only_ret.
  - apply raises_only_bind; [exact H | intros _; exact IH].
Qed.

Lemma raises_only_run argv env check :
  (forall status, P (CalledProcessError argv status)) -> raises_only P (run argv env check).
Proof.
  intros H w r w' E. unfold run in E.
  destruct (hd Done (outcomes w)); [destruct (git_effect _ _ _) as [[out g] | status] |];
    try destruct check; inversion E; subst; eauto.
Qed.

Lemma raises_only_randint a b : P ValueError -> raises_only P (randint a b).
Proof.
  intros H w r w' E. unfold randint in E. destruct (b <? a); inversion E; subst; eauto.
Qed.

Lemma raises_only_mk_time h m s : P ValueError -> raises_only P (mk_time h m s).
Proof.
  intros H. unfold mk_time. destruct (_ && _); [apply raises_only_ret |].
  apply raises_only_raise, H.
Qed.

Lemma raises_only_date_plus d n : P OverflowError -> raises_only P (date_plus d n).
Proof.
  intros H. unfold date_plus. destruct (add_days d n); [apply raises_only_ret |].
  apply raises_only_raise, H.
Qed.

End RaisesOnly.

Lemma date_plus_inv d n w a w' : date_plus d n w = (Ok a, w') -> a = d + n.
Proof.
  unfold date_plus, add_days. destruct (_ && _); intros E; inversion E. reflexivity.
Qed.

(** Closes [raises_only abort_kind] goals on calls that always return. *)
Ltac returns := apply raises_only_total; intros ?; eexists _, _; reflexivity.

Lemma aborts_init_repo : raises_only abort_kind init_repo.
Proof.
  unfold init_repo. apply raises_only_bind; [returns | intros e].
  destruct (negb e); [| returns].
  apply raises_only_bind; [| intros _; returns].
  apply raises_only_run. intros status. left. reflexivity.
Qed.

Lemma aborts_set_remote url : raises_only abort_kind (set_remote url).
Proof.
  unfold set_remote. apply raises_only_bind.
  { intros w r w' E. unfold run in E. left.
    destruct (hd Done (outcomes w)); [destruct (git_effect _ _ _) as [[out g] | status] |];
      inversion E; eauto. }
  intros r. destruct (negb _); [| returns].
  apply raises_only_bind; [| intros _; returns].
  apply raises_only_run. intros status. right. left. reflexivity.
Qed.

Lemma aborts_commit_once file_path d : raises_only abort_kind (commit_once file_path d).
Proof.
  unfold commit_once.
  do 3 (apply raises_only_bind; [apply raises_only_randint; exact I | intros ?]).
  apply raises_only_bind; [apply raises_only_mk_time; exact I | intros t].
  apply raises_only_bind; [returns | intros _].
  apply raises_only_bind; [returns | intros environ0].
  apply raises_only_bind.
  { apply raises_only_run. intros status. right. right. left. reflexivity. }
  intros _. apply raises_only_bind; [| intros _; returns].
  apply raises_only_run. intros status. right. right. right. reflexivity.
Qed.

Lemma aborts_one_day args d : raises_only abort_kind (one_day args d).
Proof.
  unfold one_day. destruct (_ && _); [apply raises_only_ret |].
  apply raises_only_bind; [apply raises_only_randint; exact I | intros draw].
  destruct (draw <=? frequency args); [| apply raises_only_ret].
  apply raises_only_bind; [apply raises_only_randint; exact I | intros n].
  apply raises_only_for_range, aborts_commit_once.
Qed.

(** The fuel [simulate_commits] gives its loop is enough. *)
Lemma aborts_walk args stop : forall fuel start,
  (Z.to_nat (stop - start + 1) < fuel)%nat ->
  raises_only abort_kind (walk fuel args stop start).
Proof.
  induction fuel as [| fuel IH]; intros start Hf; [lia |].
  cbn [walk]. destruct (Z.leb_spec start stop) as [L | L]; [| apply raises_only_ret].
  apply raises_only_bind; [apply aborts_one_day | intros _].
  apply (raises_only_bind_post _ (fun next => next = start + 1)).
  - apply raises_only_date_plus. exact I.
  - intros w a w' E. exact (date_plus_inv _ _ _ _ _ E).
  - intros next Hn. subst next. apply IH. lia.
Qed.

Lemma aborts_simulate_commits args : raises_only abort_kind (simulate_commits args).
Proof.
  unfold simulate_commits.
  apply raises_only_bind.
  { apply raises_only_total. intros w.
    destruct (open_activity_file_ok (file args) w) as (w0 & E & _). eauto. }
  intros _. apply raises_only_bind; [returns | intros t].
  apply (raises_only_bind_post _ (fun s => s = t + - days_before args)).
  { apply raises_only_date_plus. exact I. }
  { intros w a w' E. exact (date_plus_inv _ _ _ _ _ E). }
  intros start Hs.
  apply (raises_only_bind_post _ (fun s => s = t + days_after args)).
  { apply raises_only_date_plus. exact I. }
  { intros w a w' E. exact (date_plus_inv _ _ _ _ _ E). }
  intros stop He. apply aborts_walk. lia.
Qed.

Lemma aborts_publish : raises_only abort_kind publish.
Proof.
  intros w r w' E. destruct (hd Done (outcomes w)) as [| status] eqn:Ho.
  - destruct (publish_branch_created w Ho) as [Hr _]. rewrite E in Hr. cbn in Hr.
    left. eauto.
  - rewrite (publish_branch_failed w status Ho) in E. inversion E; subst.
    right. eexists. split; reflexivity.
Qed.

Lemma aborts_main args : raises_only abort_kind (main args).
Proof.
  unfold main.
  apply raises_only_bind; [apply aborts_init_repo | intros _].
  apply raises_only_bind.
  { destruct (truthy _); [apply aborts_set_remote | apply raises_only_ret]. }
  intros _. apply raises_only_bind; [apply aborts_simulate_commits | intros _].
  destruct (truthy _); [apply aborts_publish |].
  apply raises_only_bind; [returns | intros _; returns].
Qed.

(** C3, as the code has it.  A failure to create the branch ends [publish],
    the last phase of [main], at once with [SystemExit]: the failed command
    and the error line are its only actions, so nothing is pushed and the
    forge is not called.  Once the branch is created, that phase returns
    normally whatever fails, each failed call directly followed by an error
    line of the log.  The other failures are not all survived: in every run of
    [main] a failed [git init], [git remote add], [git add] or [git commit]
    is the last action and the run ends with its [CalledProcessError]; and a
    run of [main] that does not return ends with that error, with the
    [SystemExit] of the branch creation, with [ValueError] or with
    [OverflowError]. *)
Theorem failures_abort_or_are_logged :
  (forall w status,
     hd Done (outcomes w) = Failed status ->
     let branch_name := "auto_pr_" @@ strftime_compact (now w) in
     fst (publish w) = Raise (SystemExit "Branch creation failed.")
     /\ trace (snd (publish w))
        = trace w ++
          [Exec ["git"; "checkout"; "-b"; branch_name] None false;
           Log ERROR ("Error creating branch " @@ branch_name @@ ": ")
             (Some (CalledProcessError ["git"; "checkout"; "-b"; branch_name] status))])
  /\ (forall w,
        hd Done (outcomes w) = Done ->
        fst (publish w) = Ok tt
        /\ exists new, trace (snd (publish w)) = trace w ++ new /\ logged new)
  /\ (forall args w w1 w2 w3 url,
        repository args = Some url -> url <> "" ->
        init_repo w = (Ok tt, w1) -> set_remote url w1 = (Ok tt, w2) ->
        simulate_commits args w2 = (Ok tt, w3) ->
        main args w = publish w3)
  /\ (forall args, strict (main args))
  /\ (forall args, raises_only abort_kind (main args)).
Proof.
  split; [| split; [| split; [| split]]].
  - intros w status Ho branch_name.
    rewrite (publish_branch_failed w status Ho). split; [reflexivity |].
    cbn [snd]. simpl_world. rewrite <- app_assoc. reflexivity.
  - exact publish_branch_created.
  - intros args w w1 w2 w3 url Hr Hu E1 E2 E3. unfold main.
    rewrite Hr. cbn [truthy].
    destruct (String.eqb_spec url ""); [contradiction |]. cbn [negb].
    rewrite (bind_ok _ _ _ _ _ E1), (bind_ok _ _ _ _ _ E2), (bind_ok _ _ _ _ _ E3).
    reflexivity.
  - exact strict_main.
  - exact aborts_main.
Qed.

(** C3 as stated does not hold: here [git add] fails on the first commit, no
    branch creation is attempted, and the run ends with the uncaught
    [CalledProcessError], nothing of it in the log. *)
Lemma git_add_failure_aborts_the_run :
  fst (main local_args failing_add_world)
  = Raise (CalledProcessError ["git"; "add"; "activity.txt"] 128)
  /\ Forall (fun e => is_exec_of ["git"; "checkout"] e = false /\ is_error_log e = false)
       (trace (snd (main local_args failing_add_world))).
Proof.
  split; [reflexivity |]. vm_compute. repeat constructor.
Qed.

(** *** The first phases of [main], when no external call fails *)

Lemma init_repo_quiet w :
  quiet w ->
  exists w1,
    init_repo w = (Ok tt, w1)
    /\ rand w1 = rand w /\ environ w1 = environ w /\ today w1 = today w
    /\ now w1 = now w /\ commits w1 = commits w /\ quiet w1.
Proof.
  intros Q. destruct (existsb (String.eqb ".git") (map fst (fs w))) eqn:H.
  - rewrite (init_repo_present w H). eexists. split; [reflexivity |].
    repeat split. exact Q.
  - rewrite (init_repo_absent w H), (quiet_hd w Q). eexists. split; [reflexivity |].
    repeat split. unfold quiet. simpl_world. apply all_done_tl, Q.
Qed.

Lemma set_remote_quiet url w :
  quiet w ->
  exists w1,
    set_remote url w = (Ok tt, w1)
    /\ rand w1 = rand w /\ environ w1 = environ w /\ today w1 = today w
    /\ now w1 = now w /\ commits w1 = commits w /\ quiet w1.
Proof.
  intros Q.
  destruct (contains "origin" (join (map (fun r => fst r @@ LF) (remotes w)))) eqn:Hc.
  - rewrite (set_remote_listed w url (quiet_hd w Q) Hc). eexists. split; [reflexivity |].
    repeat split. unfold quiet. simpl_world. apply all_done_tl, Q.
  - rewrite (set_remote_added w url (quiet_hd w Q)); [| | exact Hc].
    + eexists. split; [reflexivity |].
      repeat split. unfold quiet. simpl_world. apply all_done_tl, all_done_tl, Q.
    + apply (quiet_hd (with_outcomes (tl (outcomes w)) w)).
      unfold quiet. simpl_world. apply all_done_tl, Q.
Qed.

(** [init_repo] and, with a repository configured, [set_remote]. *)
Lemma setup_quiet args w :
  quiet w ->
  exists w1,
    (init_repo ;;
     if truthy (repository args)
     then set_remote (match repository args with Some u => u | None => "" end)
     else ret tt) w = (Ok tt, w1)
    /\ rand w1 = rand w /\ environ w1 = environ w /\ today w1 = today w
    /\ now w1 = now w /\ commits w1 = commits w /\ quiet w1.
Proof.
  intros Q. destruct (init_repo_quiet w Q) as (w1 & E1 & R1 & V1 & T1 & N1 & C1 & Q1).
  rewrite (bind_ok _ _ _ _ _ E1).
  destruct (truthy (repository args)).
  - destruct (set_remote_quiet (match repository args with Some u => u | None => "" end)
                w1 Q1) as (w2 & E2 & R2 & V2 & T2 & N2 & C2 & Q2).
    exists w2. split; [exact E2 |]. repeat split; congruence || exact Q2.
  - exists w1. split; [reflexivity |]. repeat split; assumption.
Qed.

Lemma main_phases args w w1 :
  (init_repo ;;
   if truthy (repository args)
   then set_remote (match repository args with Some u => u | None => "" end)
   else ret tt) w = (Ok tt, w1) ->
  main args w
  = (simulate_commits args ;;
     if truthy (repository args) then publish
     else
       logging_info "No remote repository provided; skipping push and pull request creation." ;;
       logging_info "Bot execution finished.") w1.
Proof.
  unfold main, bind. intros E.
  destruct (init_repo w) as [[[] | e |] w0]; try discriminate.
  rewrite E. reflexivity.
Qed.

Lemma emits_setup_no_api args :
  emits (fun e => is_api e = false)
    (init_repo ;;
     if truthy (repository args)
     then set_remote (match repository args with Some u => u | None => "" end)
     else ret tt).
Proof.
  unfold init_repo, set_remote.
  repeat first [ emits_step
               | match goal with
                 | |- emits _ (if ?b then _ else _) => destruct b
                 end
               | reflexivity ].
Qed.

(** C10.  With [max_commits] at least 1 the draw of the number of commits
    returns a value of 1..max_commits.  With [max_commits] below 1 that draw
    raises [ValueError]; and then, in a run where no external call fails, the
    dates are valid and some walked day is active, [main] ends with that
    [ValueError], uncaught, and no commit is made. *)
Theorem max_commits_below_one_aborts (args : Args) :
  (1 <= max_commits args ->
     forall w, randint 1 (max_commits args) w
               = (Ok (randint_of 1 (max_commits args) (hd 0 (rand w))),
                  with_rand (tl (rand w)) w)
               /\ 1 <= randint_of 1 (max_commits args) (hd 0 (rand w)) <= max_commits args)
  /\ (max_commits args < 1 ->
        forall w, randint 1 (max_commits args) w = (Raise ValueError, w))
  /\ (max_commits args < 1 ->
        forall w,
          quiet w ->
          0 < today w - days_before args <= MAXORDINAL ->
          0 < today w + days_after args < MAXORDINAL ->
          some_day_active args
            (date_range (today w - days_before args) (today w + days_after args))
            (rand w) = true ->
          fst (main args w) = Raise ValueError
          /\ commits (snd (main args w)) = commits w).
Proof.
  split; [| split].
  - intros Hmax w. split; [apply randint_ok; lia | apply randint_of_range; lia].
  - intros Hmax w. apply randint_empty. lia.
  - intros Hmax w Q Hs He Ha.
    destruct (setup_quiet args w Q) as (w1 & E1 & R1 & V1 & T1 & N1 & C1 & Q1).
    rewrite (main_phases args w w1 E1).
    rewrite <- T1 in Hs, He, Ha. rewrite <- R1 in Ha.
    destruct (open_activity_file_ok (file args) w1)
      as (w2 & E2 & _ & _ & C2 & R2 & _ & _ & _ & _).
    rewrite <- R2 in Ha.
    destruct (for_each_empty_count args _ w2 Hmax Ha) as (w3 & E3 & _ & C3).
    erewrite bind_raise.
    2:{ rewrite simulate_commits_walks by assumption.
        rewrite (bind_ok _ _ _ _ _ E2). exact E3. }
    split; [reflexivity |]. cbn [snd]. congruence.
Qed.

(** *** Publishing without a token *)

Lemma push_branch_done branch_name w :
  hd Done (outcomes w) = Done ->
  push_branch branch_name w
  = (Ok tt,
     emit (Log INFO ("Pushed branch " @@ branch_name @@ " to remote.") None)
       (emit (Exec ["git"; "push"; "--set-upstream"; "origin"; branch_name] None true)
          (with_repo (repo_of w) (with_outcomes (tl (outcomes w)) w)))).
Proof.
  intros Ho. unfold push_branch, try_except, bind, run. rewrite Ho. reflexivity.
Qed.

Lemma quiet_hd_tl w : quiet w -> hd Done (tl (outcomes w)) = Done.
Proof.
  intros Q. apply (quiet_hd (with_outcomes (tl (outcomes w)) w)).
  unfold quiet. simpl_world. apply all_done_tl, Q.
Qed.

Lemma quiet_hd_tl_tl w : quiet w -> hd Done (tl (tl (outcomes w))) = Done.
Proof.
  intros Q. apply (quiet_hd (with_outcomes (tl (tl (outcomes w))) w)).
  unfold quiet. simpl_world. apply all_done_tl, all_done_tl, Q.
Qed.

Lemma publish_token_unset w :
  quiet w ->
  truthy (lookup "GITHUB_TOKEN" (environ w)) = false ->
  let branch_name := "auto_pr_" @@ strftime_compact (now w) in
  exists w' mid msg,
    publish w = (Ok tt, w')
    /\ trace w' = trace w ++
         [Exec ["git"; "checkout"; "-b"; branch_name] None true;
          Log INFO ("Created and switched to branch: " @@ branch_name) None;
          Exec ["git"; "push"; "--set-upstream"; "origin"; branch_name] None true;
          Log INFO ("Pushed branch " @@ branch_name @@ " to remote.") None]
         ++ mid ++ [Log ERROR msg None]
    /\ Forall (fun e => is_api e = false) mid
    /\ (msg = "GITHUB_TOKEN environment variable not set. Exiting."
        \/ msg = "Could not determine GitHub repo name. Exiting.").
Proof.
  intros Q Htok branch_name. unfold publish.
  erewrite bind_ok by reflexivity. fold branch_name.
  erewrite bind_ok by (apply create_new_branch_done, quiet_hd, Q).
  erewrite bind_ok by (apply push_branch_done; simpl_world; apply quiet_hd_tl, Q).
  destruct (lookup "origin" (remotes w)) as [url |] eqn:Hl.
  - erewrite bind_ok.
    2:{ apply (repo_name_read _ url); simpl_world; [apply quiet_hd_tl_tl, Q | exact Hl]. }
    cbv zeta. set (name := without_git_suffix _).
    destruct (truthy (Some name)) eqn:Hn; cbn [negb].
    + erewrite bind_ok by reflexivity. simpl_world. rewrite Htok. cbn [negb].
      eexists.
      exists [Exec ["git"; "config"; "--get"; "remote.origin.url"] None true;
              Log INFO ("Determined GitHub repo name: " @@ name) None],
             "GITHUB_TOKEN environment variable not set. Exiting.".
      split; [reflexivity |].
      simpl_world. rewrite <- !app_assoc.
      split; [reflexivity |]. split; [| left; reflexivity].
      repeat constructor.
    + eexists.
      exists [Exec ["git"; "config"; "--get"; "remote.origin.url"] None true;
              Log INFO ("Determined GitHub repo name: " @@ name) None],
             "Could not determine GitHub repo name. Exiting.".
      split; [reflexivity |].
      simpl_world. rewrite <- !app_assoc.
      split; [reflexivity |]. split; [| right; reflexivity].
      repeat constructor.
  - match goal with
    | |- context [bind get_github_repo_name_from_remote ?k ?w2] =>
        destruct (repo_name_unread w2) as [status E]; [right; simpl_world; exact Hl |]
    end.
    erewrite bind_ok by exact E. cbn [truthy negb].
    eexists.
    exists [Exec ["git"; "config"; "--get"; "remote.origin.url"] None false;
            Log ERROR "Error getting GitHub repo name: "
              (Some (CalledProcessError ["git"; "config"; "--get"; "remote.origin.url"]
                       status))],
           "Could not determine GitHub repo name. Exiting.".
    split; [reflexivity |].
    simpl_world. rewrite <- !app_assoc.
    split; [reflexivity |]. split; [| right; reflexivity].
    repeat constructor.
Qed.

(** [simulate_commits] returns when no external call fails. *)
Lemma every_commit_step args w :
  quiet w ->
  1 <= max_commits args ->
  0 < today w - days_before args <= MAXORDINAL ->
  0 < today w + days_after args < MAXORDINAL ->
  exists w',
    simulate_commits args w = (Ok tt, w')
    /\ environ w' = environ w /\ now w' = now w /\ quiet w'.
Proof.
  intros Q Hmax Hs He.
  rewrite simulate_commits_walks by assumption.
  destruct (open_activity_file_ok (file args) w)
    as (w0 & E0 & T0 & F0 & C0 & R0 & V0 & M0 & D0 & O0 & N0).
  rewrite (bind_ok _ _ _ _ _ E0).
  destruct (for_each_ok args
              (date_range (today w - days_before args) (today w + days_after args)) w0)
    as (w' & rs' & E1 & _ & _ & _ & _ & V1 & _ & N1 & Q1);
    [eapply quiet_same; eauto | exact Hmax |].
  exists w'. split; [exact E1 |]. repeat split; congruence || exact Q1.
Qed.

Lemma emits_simulate_commits_no_api args :
  emits (fun e => is_api e = false) (simulate_commits args).
Proof.
  unfold simulate_commits, open_activity_file.
  emits_step.
  { repeat first [ emits_step
                 | match goal with |- emits _ (if ?b then _ else _) => destruct b end
                 | reflexivity ]. }
  repeat emits_step. apply emits_walk. intros d.
  unfold one_day. destruct (_ && _); [apply emits_ret |].
  emits_step; [emits_step |].
  destruct (_ <=? frequency args); [| apply emits_ret].
  emits_step; [emits_step |].
  apply emits_for_range. unfold commit_once. repeat emits_step; reflexivity.
Qed.

(** With a repository URL configured and GITHUB_TOKEN unset or empty, in
    a run where no external call fails (the maximum at least 1, the dates
    valid): [main] returns normally; after the earlier phases it creates the
    branch and pushes it, both with success; its last action is an error line
    of the log, about the missing token or, when the origin URL gives no
    repository name, about that; and no request to the forge API is among its
    actions. *)
Lemma main_without_token_when_nothing_fails (args : Args) (w : World) (url : string) :
  repository args = Some url -> url <> "" ->
  truthy (lookup "GITHUB_TOKEN" (environ w)) = false ->
  quiet w ->
  1 <= max_commits args ->
  0 < today w - days_before args <= MAXORDINAL ->
  0 < today w + days_after args < MAXORDINAL ->
  let branch_name := "auto_pr_" @@ strftime_compact (now w) in
  exists w' before mid msg,
    main args w = (Ok tt, w')
    /\ trace w' = trace w ++ before ++
         [Exec ["git"; "checkout"; "-b"; branch_name] None true;
          Log INFO ("Created and switched to branch: " @@ branch_name) None;
          Exec ["git"; "push"; "--set-upstream"; "origin"; branch_name] None true;
          Log INFO ("Pushed branch " @@ branch_name @@ " to remote.") None]
         ++ mid ++ [Log ERROR msg None]
    /\ Forall (fun e => is_api e = false) (before ++ mid)
    /\ (msg = "GITHUB_TOKEN environment variable not set. Exiting."
        \/ msg = "Could not determine GitHub repo name. Exiting.").
Proof.
  intros Hr Hu Htok Q Hmax Hs He branch_name.
  destruct (setup_quiet args w Q) as (w1 & E1 & R1 & V1 & T1 & N1 & C1 & Q1).
  rewrite (main_phases args w w1 E1).
  destruct (emits_setup_no_api args _ _ _ E1) as (new1 & Tr1 & A1).
  rewrite <- T1 in Hs, He.
  destruct (every_commit_step args w1 Q1 Hmax Hs He) as (w2 & E2 & V2 & N2 & Q2).
  destruct (emits_simulate_commits_no_api args _ _ _ E2) as (new2 & Tr2 & A2).
  rewrite (bind_ok _ _ _ _ _ E2).
  rewrite Hr. cbn [truthy]. destruct (String.eqb_spec url ""); [contradiction |].
  cbn [negb].
  destruct (publish_token_unset w2 Q2) as (w' & mid & msg & E3 & Tr3 & A3 & Hm).
  { rewrite V2, V1. exact Htok. }
  exists w', (new1 ++ new2), mid, msg.
  split; [exact E3 |]. split; [| split; [| exact Hm]].
  - rewrite Tr3, Tr2, Tr1, N2, N1, <- !app_assoc. reflexivity.
  - rewrite <- app_assoc. repeat (apply Forall_app; split); assumption.
Qed.

(** C4 as stated does not hold: the origin URL below starts with neither
    recognized prefix, and the function returns a string, the URL without its
    trailing ".git". *)
Lemma unrecognized_url_is_returned :
  startswith (strip ("https://gitlab.com/user/repo.git" @@ LF)) "git@github.com:" = false
  /\ startswith (strip ("https://gitlab.com/user/repo.git" @@ LF)) "https://github.com/"
     = false
  /\ lookup "origin" (remotes gitlab_world) = Some "https://gitlab.com/user/repo.git"
  /\ fst (get_github_repo_name_from_remote gitlab_world)
     = Ok (Some "https://gitlab.com/user/repo").
Proof. repeat split. Qed.

(* ------------------------------------------------------------------ *)
(** ** The statements at the sample runs *)

Lemma sample_world_quiet : quiet sample_world.
Proof. constructor. Defined.


Lemma failures_abort_or_are_logged_witness :
  fst (publish (with_outcomes [Failed 1] sample_world))
  = Raise (SystemExit "Branch creation failed.")
  /\ fst (publish sample_world) = Ok tt.
Proof.
  destruct failures_abort_or_are_logged as (H1 & H2 & _).
  split.
  - exact (proj1 (H1 (with_outcomes [Failed 1] sample_world) 1 eq_refl)).
  - exact (proj1 (H2 sample_world eq_refl)).
Defined.

Lemma repo_name_from_remote_amended_witness :
  lookup "origin"
    (remotes (with_remotes [("origin", "git@github.com:user/repo.git")] sample_world))
  = Some "git@github.com:user/repo.git"
  /\ fst (get_github_repo_name_from_remote
            (with_remotes [("origin", "git@github.com:user/repo.git")] sample_world))
     = Ok (Some "user/repo").
Proof.
  split; [reflexivity |].
  destruct (repo_name_from_remote_amended
              (with_remotes [("origin", "git@github.com:user/repo.git")] sample_world)
              "git@github.com:user/repo.git" eq_refl eq_refl) as (H & _).
  exact (H "user/repo.git" eq_refl).
Defined.

Lemma no_weekends_no_weekend_commits_witness :
  no_weekends sample_args = true
  /\ one_day sample_args 738891 sample_world = (Ok tt, sample_world).
Proof.
  split; [reflexivity |].
  destruct (no_weekends_no_weekend_commits sample_args eq_refl) as (H & _).
  apply H. cbn. lia.
Defined.

Lemma walked_dates_are_the_range_witness :
  0 < today sample_world - days_before sample_args <= MAXORDINAL
  /\ 0 < today sample_world + days_after sample_args < MAXORDINAL
  /\ In 738890
       (date_range (today sample_world - days_before sample_args)
          (today sample_world + days_after sample_args)).
Proof.
  assert (Hs : 0 < today sample_world - days_before sample_args <= MAXORDINAL)
    by (unfold MAXORDINAL; cbn; lia).
  assert (He : 0 < today sample_world + days_after sample_args < MAXORDINAL)
    by (unfold MAXORDINAL; cbn; lia).
  split; [exact Hs |]. split; [exact He |].
  destruct (walked_dates_are_the_range sample_args sample_world Hs He) as (_ & H & _).
  apply H. cbn. lia.
Defined.

Lemma max_commits_below_one_aborts_witness :
  max_commits sample_args_no_commits < 1
  /\ randint 1 (max_commits sample_args_no_commits) sample_world
     = (Raise ValueError, sample_world)
  /\ fst (main sample_args_no_commits sample_world) = Raise ValueError.
Proof.
  assert (Hmax : max_commits sample_args_no_commits < 1) by (cbn; lia).
  destruct (max_commits_below_one_aborts sample_args_no_commits) as (_ & H2 & H3).
  split; [exact Hmax |]. split; [exact (H2 Hmax sample_world) |].
  apply (H3 Hmax sample_world).
  - exact sample_world_quiet.
  - unfold MAXORDINAL; cbn; lia.
  - unfold MAXORDINAL; cbn; lia.
  - reflexivity.
Defined.

(* ------------------------------------------------------------------ *)
(** ** Concrete checks of the embedding *)

Example ord2ymd_epoch : PyDate.ord2ymd 719163 = (1970, 1, 1).
Proof. reflexivity. Qed.

Example ord2ymd_max : PyDate.ord2ymd PyDate.MAXORDINAL = (9999, 12, 31).
Proof. reflexivity. Qed.

Example saturday_2024_01_06 :
  PyDate.ord2ymd 738891 = (2024, 1, 6) /\ PyDate.weekday 738891 = 5.
Proof. split; reflexivity. Qed.

Example isoformat_example :
  PyDate.isoformat
    (PyDate.combine 738891 {| PyDate.hour := 9; PyDate.minute := 5; PyDate.second := 0 |})
  = "2024-01-06T09:05:00".
Proof. reflexivity. Qed.

Example strip_example : PyStr.strip "  git@github.com:u/r.git
" = "git@github.com:u/r.git".
Proof. reflexivity. Qed.

Example str_int_example : PyStr.str_int 1204 = "1204" /\ PyStr.str_int 0 = "0".
Proof. split; reflexivity. Qed.

Example sample_run_commits :
  map message (commits (snd (main sample_args sample_world)))
  = ["Automated commit on 2024-01-04 05:10:03";
     "Automated commit on 2024-01-04 03:07:08";
     "Automated commit on 2024-01-05 01:00:00";
     "Automated commit on 2024-01-05 00:00:00"].
Proof. reflexivity. Qed.

Example sample_run_file :
  read_file "activity.txt" (snd (main sample_args sample_world))
  = "Activity Log" @@ LF
    @@ "Update at 2024-01-04 05:10:03" @@ LF
    @@ "Update at 2024-01-04 03:07:08" @@ LF
    @@ "Update at 2024-01-05 01:00:00" @@ LF
    @@ "Update at 2024-01-05 00:00:00" @@ LF.
Proof. reflexivity. Qed.

Example sample_run_ends_without_token :
  last (trace (snd (main sample_args sample_world))) (Log INFO "" None)
  = Log ERROR "GITHUB_TOKEN environment variable not set. Exiting." None.
Proof. reflexivity. Qed.

(** When [git add] fails, the run stops after the activity line of that commit
    was appended: the line is in the file and no commit was made. *)
Example failed_add_leaves_the_line :
  read_file "activity.txt" (snd (main local_args failing_add_world))
  = "Activity Log" @@ LF @@ "Update at 2024-01-06 00:00:00" @@ LF
  /\ commits (snd (main local_args failing_add_world)) = [].
Proof. split; reflexivity. Qed.

(* ------------------------------------------------------------------ *)
(** ** Further properties of the script *)

(** *** Setting up the repository *)

(** X1.  [init_repo] is idempotent: after a call that returned, a second call
    returns as well, runs no command, uses up no outcome and leaves the
    repository as it is; its only action is the log line that the repository
    is already initialized. *)
Theorem init_repo_twice (w w1 : World) :
  init_repo w = (Ok tt, w1) ->
  init_repo w1
  = (Ok tt, emit (Log INFO "Git repository already initialized." None) w1).
Proof.
  intros E. apply init_repo_present.
  destruct (existsb (String.eqb ".git") (map fst (fs w))) eqn:H.
  - rewrite (init_repo_present w H) in E. inversion E; subst. exact H.
  - rewrite (init_repo_absent w H) in E.
    destruct (hd Done (outcomes w)); inversion E; subst.
    simpl_world. apply existsb_app_r. reflexivity.
Qed.

Lemma init_repo_twice_witness :
  fst (init_repo sample_world) = Ok tt
  /\ init_repo (snd (init_repo sample_world))
     = (Ok tt, emit (Log INFO "Git repository already initialized." None)
                 (snd (init_repo sample_world))).
Proof.
  split; [reflexivity |].
  apply (init_repo_twice sample_world). reflexivity.
Defined.

Lemma lookup_app_r k (d d' : list (string * string)) :
  lookup k d = None -> lookup k (d ++ d') = lookup k d'.
Proof.
  induction d as [| [k' v] d IH]; cbn [lookup app]; [reflexivity |].
  destruct (String.eqb k k'); [discriminate | exact IH].
Qed.

Lemma lookup_app_l k v (d d' : list (string * string)) :
  lookup k d = Some v -> lookup k (d ++ d') = Some v.
Proof.
  induction d as [| [k' v'] d IH]; cbn [lookup app]; [discriminate |].
  destruct (String.eqb k k'); [trivial | exact IH].
Qed.

(** X2.  [set_remote] is idempotent: after a call that returned, a second call
    whose listing of the remotes works returns as well, runs only that
    listing, and leaves files, remotes and commits as they are. *)
Theorem set_remote_twice (url : string) (w w1 : World) :
  set_remote url w = (Ok tt, w1) ->
  hd Done (outcomes w1) = Done ->
  set_remote url w1
  = (Ok tt, emit (Log INFO "Remote origin already set." None)
              (emit (Exec ["git"; "remote"] None true)
                 (with_outcomes (tl (outcomes w1)) w1)))
  /\ repo_of (snd (set_remote url w1)) = repo_of w1.
Proof.
  intros E Ho1.
  destruct (set_remote_idempotent url w w1 E Ho1) as (w2 & E2 & R2).
  rewrite E2. cbn [snd]. split; [| exact R2].
  assert (Hc : contains "origin" (join (map (fun r => fst r @@ LF) (remotes w1))) = true).
  { destruct (contains "origin" (join (map (fun r => fst r @@ LF) (remotes w1)))) eqn:Hc;
      [reflexivity |].
    destruct (set_remote_adds_only_origin _ _ _ _ E2) as [H | [_ H]].
    - exfalso. revert E2. unfold set_remote, bind, run. rewrite Ho1.
      cbn [git_effect]. simpl_world. cbn [snd]. rewrite Hc. cbn [negb]. simpl_world.
      destruct (hd Done (tl (outcomes w1))).
      + cbn [git_effect]. simpl_world.
        destruct (existsb (String.eqb "origin") (map fst (remotes w1))) eqn:Hex.
        * intros E'. inversion E'.
        * intros E'. inversion E'; subst. revert H. simpl_world. intros H.
          apply (f_equal (@List.length _)) in H. rewrite length_app in H.
          cbn in H. lia.
      + intros E'. inversion E'.
    - exfalso. assert (H' : repo_of w2 = repo_of w1) by exact R2.
      apply (f_equal r_remotes) in H'. cbn in H'. rewrite H in H'.
      apply (f_equal (@List.length _)) in H'. rewrite length_app in H'.
      cbn in H'. lia. }
  rewrite (set_remote_listed w1 url Ho1 Hc) in E2. inversion E2; subst.
  destruct w1; reflexivity.
Qed.

Lemma set_remote_twice_witness :
  fst (set_remote "git@github.com:user/repo.git" sample_world) = Ok tt
  /\ repo_of (snd (set_remote "git@github.com:user/repo.git"
                     (snd (set_remote "git@github.com:user/repo.git" sample_world))))
     = repo_of (snd (set_remote "git@github.com:user/repo.git" sample_world)).
Proof.
  split; [reflexivity |].
  apply (set_remote_twice "git@github.com:user/repo.git" sample_world);
    reflexivity.
Defined.

Lemma lookup_existsb k v (d : list (string * string)) :
  lookup k d = Some v -> existsb (String.eqb k) (map fst d) = true.
Proof.
  induction d as [| [k' v'] d IH]; cbn [lookup map fst existsb]; [discriminate |].
  destruct (String.eqb k k'); [reflexivity | exact IH].
Qed.

(** X3.  [set_remote] never touches a remote that is configured.  In every
    run, whatever the commands answer, the remotes afterwards are the remotes
    before, or those followed by an origin with the given URL; with an origin
    configured they are unchanged, also when the given URL is another one;
    every remote keeps its URL; and no name comes to be configured twice. *)
Theorem set_remote_keeps_what_is_configured (url : string) (w : World) :
  (remotes (snd (set_remote url w)) = remotes w
   \/ remotes (snd (set_remote url w)) = remotes w ++ [("origin", url)])
  /\ (forall u, lookup "origin" (remotes w) = Some u ->
                remotes (snd (set_remote url w)) = remotes w)
  /\ (forall name u, lookup name (remotes w) = Some u ->
                     lookup name (remotes (snd (set_remote url w))) = Some u)
  /\ (NoDup (map fst (remotes w)) -> NoDup (map fst (remotes (snd (set_remote url w))))).
Proof.
  destruct (set_remote url w) as [r w'] eqn:E. cbn [snd].
  pose proof (set_remote_adds_only_origin _ _ _ _ E) as H.
  split; [| split; [| split]].
  - destruct H as [H | [_ H]]; auto.
  - intros u Hu. destruct H as [H | [Hex _]]; [exact H |].
    rewrite (lookup_existsb _ _ _ Hu) in Hex. discriminate.
  - intros name u Hu. destruct H as [H | [_ H]]; rewrite H; [exact Hu |].
    apply lookup_app_l, Hu.
  - intros N. exact (set_remote_no_duplicate _ _ _ _ N E).
Qed.

Lemma set_remote_keeps_what_is_configured_witness :
  remotes (snd (set_remote "git@github.com:user/other.git" token_world))
  = remotes token_world.
Proof.
  destruct (set_remote_keeps_what_is_configured "git@github.com:user/other.git"
              token_world) as (_ & H & _).
  apply (H "https://github.com/user/repo.git"). reflexivity.
Defined.

(** X4.  Where "origin" occurs nowhere in the listing of the remotes and no
    command fails, one call of [set_remote] adds the origin: it returns, the
    remotes are those before followed by the origin, and the origin then has
    the given URL. *)
Theorem set_remote_adds_the_origin (url : string) (w : World) :
  quiet w ->
  contains "origin" (join (map (fun r => fst r @@ LF) (remotes w))) = false ->
  fst (set_remote url w) = Ok tt
  /\ remotes (snd (set_remote url w)) = remotes w ++ [("origin", url)]
  /\ lookup "origin" (remotes (snd (set_remote url w))) = Some url
  /\ trace (snd (set_remote url w))
     = trace w ++ [Exec ["git"; "remote"] None true;
                   Exec ["git"; "remote"; "add"; "origin"; url] None true;
                   Log INFO ("Set remote origin to " @@ url @@ ".") None].
Proof.
  intros Q Hc.
  rewrite (set_remote_added w url (quiet_hd w Q) (quiet_hd_tl w Q) Hc).
  cbn [fst snd]. simpl_world.
  split; [reflexivity |]. split; [reflexivity |]. split.
  - rewrite lookup_app_r; [cbn; reflexivity |].
    apply existsb_lookup.
    destruct (existsb (String.eqb "origin") (map fst (remotes w))) eqn:Hex; [| reflexivity].
    rewrite (contains_listing "origin" (remotes w) Hex) in Hc. discriminate.
  - rewrite <- !app_assoc. reflexivity.
Qed.

Lemma set_remote_adds_the_origin_witness :
  quiet sample_world
  /\ lookup "origin"
       (remotes (snd (set_remote "git@github.com:user/repo.git" sample_world)))
     = Some "git@github.com:user/repo.git".
Proof.
  split; [exact sample_world_quiet |].
  apply (set_remote_adds_the_origin "git@github.com:user/repo.git" sample_world).
  - exact sample_world_quiet.
  - reflexivity.
Defined.

(** *** Runs of [simulate_commits] that make no commit *)

Lemma one_day_never_active args d w :
  frequency args < 1 ->
  one_day args d w = (Ok tt, if skipped args d then w else with_rand (tl (rand w)) w).
Proof.
  intros Hf. unfold one_day. fold (skipped args d). destruct (skipped args d);
    [reflexivity |].
  erewrite bind_ok by (apply randint_ok; lia).
  pose proof (randint_of_range 1 100 (hd 0 (rand w)) ltac:(lia)).
  destruct (Z.leb_spec (randint_of 1 100 (hd 0 (rand w))) (frequency args));
    [lia | reflexivity].
Qed.

Lemma for_each_never_active args : forall dates w,
  frequency args < 1 ->
  exists w',
    for_each dates (one_day args) w = (Ok tt, w')
    /\ trace w' = trace w /\ commits w' = commits w /\ fs w' = fs w
    /\ outcomes w' = outcomes w.
Proof.
  induction dates as [| d dates IH]; intros w Hf.
  - exists w. repeat split.
  - cbn [for_each]. erewrite bind_ok by (apply one_day_never_active; exact Hf).
    destruct (IH (if skipped args d then w else with_rand (tl (rand w)) w) Hf)
      as (w' & E & T & C & F & O).
    exists w'. split; [exact E |].
    destruct (skipped args d); repeat split; assumption.
Qed.

(** X5.  With a frequency below 1 no day is ever active: for valid dates,
    whatever the random source and whatever the git commands would answer,
    [simulate_commits] returns having only opened the activity file; it runs
    no command, makes no commit, and the file holds what it held, or the
    header line when it was created. *)
Theorem frequency_below_one_no_commit (args : Args) (w : World) :
  frequency args < 1 ->
  0 < today w - days_before args <= MAXORDINAL ->
  0 < today w + days_after args < MAXORDINAL ->
  exists w',
    simulate_commits args w = (Ok tt, w')
    /\ trace w' = trace w ++ file_actions (file args) w
    /\ commits w' = commits w
    /\ outcomes w' = outcomes w
    /\ read_file (file args) w' = initial_content (file args) w.
Proof.
  intros Hf Hs He. rewrite simulate_commits_walks by assumption.
  destruct (open_activity_file_ok (file args) w)
    as (w0 & E0 & T0 & F0 & C0 & R0 & V0 & M0 & D0 & O0 & N0).
  rewrite (bind_ok _ _ _ _ _ E0).
  destruct (for_each_never_active args
              (date_range (today w - days_before args) (today w + days_after args))
              w0 Hf) as (w' & E & T & C & F & O).
  exists w'. split; [exact E |].
  unfold read_file in *. rewrite T, C, O, F. auto.
Qed.

Lemma frequency_below_one_no_commit_witness :
  frequency sample_args_never < 1
  /\ exists w',
       simulate_commits sample_args_never sample_world = (Ok tt, w')
       /\ commits w' = commits sample_world.
Proof.
  split; [cbn; lia |].
  destruct (frequency_below_one_no_commit sample_args_never sample_world)
    as (w' & E & _ & C & _).
  - cbn; lia.
  - unfold MAXORDINAL; cbn; lia.
  - unfold MAXORDINAL; cbn; lia.
  - exists w'. split; assumption.
Defined.

(** X6.  A range that ends before it starts is walked on no day: with
    [days_before + days_after] negative and both bounds valid dates,
    [simulate_commits] does what opening the activity file does and nothing
    else; no draw of the random source is consumed. *)
Theorem empty_range_only_opens_the_file (args : Args) (w : World) :
  days_before args + days_after args < 0 ->
  0 < today w - days_before args <= MAXORDINAL ->
  0 < today w + days_after args < MAXORDINAL ->
  simulate_commits args w = open_activity_file (file args) w
  /\ rand (snd (simulate_commits args w)) = rand w.
Proof.
  intros Hn Hs He. rewrite simulate_commits_walks by assumption.
  rewrite date_range_nil by lia.
  destruct (open_activity_file_ok (file args) w)
    as (w0 & E0 & _ & _ & _ & R0 & _).
  rewrite (bind_ok _ _ _ _ _ E0), E0. split; [reflexivity | exact R0].
Qed.

Lemma empty_range_only_opens_the_file_witness :
  days_before sample_args_empty + days_after sample_args_empty < 0
  /\ simulate_commits sample_args_empty sample_world
     = open_activity_file "activity.txt" sample_world.
Proof.
  split; [cbn; lia |].
  apply (empty_range_only_opens_the_file sample_args_empty sample_world).
  - cbn; lia.
  - unfold MAXORDINAL; cbn; lia.
  - unfold MAXORDINAL; cbn; lia.
Defined.

Lemma date_plus_overflow d n w :
  ~ (0 < d + n <= MAXORDINAL) -> date_plus d n w = (Raise OverflowError, w).
Proof.
  intros H. unfold date_plus, add_days.
  destruct (Z.ltb_spec 0 (d + n)); [| reflexivity].
  destruct (Z.leb_spec (d + n) MAXORDINAL); [lia | reflexivity].
Qed.

(** X7.  A bound of the range that is no valid date ends [simulate_commits]
    with [OverflowError], after the activity file was opened (and created, if
    it was missing) and before any day is walked: no command is run and no
    commit is made. *)
Theorem date_out_of_range_overflows (args : Args) (w : World) :
  ~ (0 < today w - days_before args <= MAXORDINAL)
  \/ ~ (0 < today w + days_after args <= MAXORDINAL) ->
  fst (simulate_commits args w) = Raise OverflowError
  /\ trace (snd (simulate_commits args w)) = trace w ++ file_actions (file args) w
  /\ commits (snd (simulate_commits args w)) = commits w
  /\ read_file (file args) (snd (simulate_commits args w))
     = initial_content (file args) w.
Proof.
  intros H. unfold simulate_commits.
  destruct (open_activity_file_ok (file args) w)
    as (w0 & E0 & T0 & F0 & C0 & R0 & V0 & M0 & D0 & O0 & N0).
  rewrite (bind_ok _ _ _ _ _ E0).
  erewrite bind_ok by reflexivity. rewrite D0.
  destruct (Z.ltb_spec 0 (today w - days_before args)) as [L1 | L1];
    [destruct (Z.leb_spec (today w - days_before args) MAXORDINAL) as [L2 | L2] |].
  - erewrite bind_ok by (apply date_plus_ok; lia).
    erewrite bind_raise by (apply date_plus_overflow; lia).
    cbn [fst snd]. auto.
  - erewrite bind_raise by (apply date_plus_overflow; lia). cbn [fst snd]. auto.
  - erewrite bind_raise by (apply date_plus_overflow; lia). cbn [fst snd]. auto.
Qed.

Lemma date_out_of_range_overflows_witness :
  ~ (0 < today sample_world - days_before sample_args_too_early <= MAXORDINAL)
  /\ fst (simulate_commits sample_args_too_early sample_world) = Raise OverflowError.
Proof.
  assert (H : ~ (0 < today sample_world - days_before sample_args_too_early
                 <= MAXORDINAL)) by (cbn; lia).
  split; [exact H |].
  apply (date_out_of_range_overflows sample_args_too_early sample_world).
  left. exact H.
Defined.

(** *** How many commits a run makes *)

Lemma simulate_commits_events args w :
  quiet w ->
  1 <= max_commits args ->
  0 < today w - days_before args <= MAXORDINAL ->
  0 < today w + days_after args < MAXORDINAL ->
  exists w',
    simulate_commits args w = (Ok tt, w')
    /\ commits w' = commits w
                    ++ map commit_of
                         (run_events args
                            (date_range (today w - days_before args)
                               (today w + days_after args)) (rand w)).
Proof.
  intros Q Hmax Hs He.
  rewrite simulate_commits_walks by assumption.
  destruct (open_activity_file_ok (file args) w)
    as (w0 & E0 & T0 & F0 & C0 & R0 & V0 & M0 & D0 & O0 & N0).
  rewrite (bind_ok _ _ _ _ _ E0).
  destruct (for_each_ok args
              (date_range (today w - days_before args) (today w + days_after args)) w0)
    as (w' & rs' & E1 & _ & C1 & _); [eapply quiet_same; eauto | exact Hmax |].
  exists w'. split; [exact E1 |]. rewrite C1, C0, R0. reflexivity.
Qed.

Lemma date_range_length start stop :
  List.length (date_range start stop) = Z.to_nat (stop - start + 1).
Proof. apply dates_from_length. Qed.

Lemma day_events_at_most args d rs :
  1 <= max_commits args ->
  (List.length (day_events args d rs) <= Z.to_nat (max_commits args))%nat.
Proof.
  intros Hmax. unfold day_events.
  destruct (skipped args d); [cbn; lia |].
  destruct (active args rs); [| cbn; lia].
  rewrite drawn_times_length. unfold day_count.
  pose proof (randint_of_range 1 (max_commits args) (hd 0 (tl rs)) Hmax). lia.
Qed.

Lemma run_events_at_most args : forall dates rs,
  1 <= max_commits args ->
  (List.length (run_events args dates rs)
   <= Z.to_nat (max_commits args) * List.length dates)%nat.
Proof.
  induction dates as [| d dates IH]; intros rs Hmax; cbn [run_events List.length].
  - lia.
  - rewrite length_app.
    pose proof (day_events_at_most args d rs Hmax).
    pose proof (IH (day_rest args d rs) Hmax). lia.
Qed.

(** X8.  A run makes at most [max_commits] commits for each day of the range:
    when no git command fails, the maximum is at least 1 and the dates are
    valid, [simulate_commits] returns with at most
    [max_commits * (days_before + days_after + 1)] commits more than before. *)
Theorem commits_at_most_max_per_day (args : Args) (w : World) :
  quiet w ->
  1 <= max_commits args ->
  0 < today w - days_before args <= MAXORDINAL ->
  0 < today w + days_after args < MAXORDINAL ->
  exists w',
    simulate_commits args w = (Ok tt, w')
    /\ (List.length (commits w')
        <= List.length (commits w)
           + Z.to_nat (max_commits args)
             * Z.to_nat (days_before args + days_after args + 1))%nat.
Proof.
  intros Q Hmax Hs He.
  destruct (simulate_commits_events args w Q Hmax Hs He) as (w' & E & C).
  exists w'. split; [exact E |].
  rewrite C, length_app, length_map.
  pose proof (run_events_at_most args
                (date_range (today w - days_before args) (today w + days_after args))
                (rand w) Hmax) as H.
  rewrite date_range_length in H.
  replace (today w + days_after args - (today w - days_before args) + 1)
    with (days_before args + days_after args + 1) in H by lia.
  lia.
Qed.

Lemma commits_at_most_max_per_day_witness :
  quiet sample_world
  /\ exists w',
       simulate_commits sample_args sample_world = (Ok tt, w')
       /\ (List.length (commits w') <= 6)%nat.
Proof.
  split; [exact sample_world_quiet |].
  destruct (commits_at_most_max_per_day sample_args sample_world) as (w' & E & L).
  - exact sample_world_quiet.
  - cbn; lia.
  - unfold MAXORDINAL; cbn; lia.
  - unfold MAXORDINAL; cbn; lia.
  - exists w'. split; [exact E | exact L].
Defined.





(** *** The repository name of a github.com URL *)

Lemma rstrip_append (a b : string) :
  rstrip b <> "" -> rstrip (a @@ b) = a @@ rstrip b.
Proof.
  intros Hb. induction a as [| c a IH]; cbn [String.append rstrip]; [reflexivity |].
  rewrite IH. destruct (a @@ rstrip b) eqn:E.
  - destruct a; cbn in E; [contradiction | discriminate].
  - rewrite andb_false_r. reflexivity.
Qed.

Lemma lstrip_append (c : ascii) (p x : string) :
  isspace c = false -> lstrip (String c p @@ x) = String c p @@ x.
Proof. intros H. cbn [String.append lstrip]. rewrite H. reflexivity. Qed.

Lemma strip_github_url (c : ascii) (p name : string) :
  isspace c = false ->
  strip ((String c p @@ name @@ ".git") @@ LF) = String c p @@ name @@ ".git".
Proof.
  intros H. unfold strip.
  rewrite !append_assoc, lstrip_append by exact H.
  rewrite <- (append_assoc (String c p) name), rstrip_append by discriminate.
  rewrite append_assoc. reflexivity.
Qed.

Lemma repo_name_of_github_url w name url :
  hd Done (outcomes w) = Done ->
  lookup "origin" (remotes w) = Some url ->
  url = "git@github.com:" @@ name @@ ".git"
  \/ url = "https://github.com/" @@ name @@ ".git" ->
  get_github_repo_name_from_remote w
  = (Ok (Some name),
     emit (Log INFO ("Determined GitHub repo name: " @@ name) None)
       (emit (Exec ["git"; "config"; "--get"; "remote.origin.url"] None true)
          (with_repo (repo_of w) (with_outcomes (tl (outcomes w)) w)))).
Proof.
  intros Ho Hl Hu. rewrite (repo_name_read w url Ho Hl). cbv zeta.
  assert (Hn : without_git_suffix
                 (if startswith (strip (url @@ LF)) "git@github.com:"
                  then drop (String.length "git@github.com:") (strip (url @@ LF))
                  else if startswith (strip (url @@ LF)) "https://github.com/"
                       then drop (String.length "https://github.com/") (strip (url @@ LF))
                       else strip (url @@ LF)) = name).
  { destruct Hu as [Hu | Hu]; subst url.
    - rewrite (strip_github_url "g" "it@github.com:" name eq_refl).
      unfold startswith. rewrite prefix_append, drop_append.
      apply without_git_suffix_spec. reflexivity.
    - rewrite (strip_github_url "h" "ttps://github.com/" name eq_refl).
      unfold startswith at 1.
      replace (String.prefix "git@github.com:" ("https://github.com/" @@ name @@ ".git"))
        with false by reflexivity.
      unfold startswith. rewrite prefix_append, drop_append.
      apply without_git_suffix_spec. reflexivity. }
  rewrite Hn. reflexivity.
Qed.

(** X10.  The two forms of a github.com URL name the same repository: for
    every name, with the origin at "git@github.com:<name>.git" or at
    "https://github.com/<name>.git" and the [git config] command working,
    [get_github_repo_name_from_remote] returns exactly <name>; the line feed
    that ends the command's output and one ".git" are all that is dropped, so
    a name that itself ends with ".git" is kept whole. *)
Theorem both_url_forms_give_the_name (w : World) (name url : string) :
  hd Done (outcomes w) = Done ->
  lookup "origin" (remotes w) = Some url ->
  url = "git@github.com:" @@ name @@ ".git"
  \/ url = "https://github.com/" @@ name @@ ".git" ->
  fst (get_github_repo_name_from_remote w) = Ok (Some name).
Proof.
  intros Ho Hl Hu. rewrite (repo_name_of_github_url w name url Ho Hl Hu). reflexivity.
Qed.

Lemma both_url_forms_give_the_name_witness :
  lookup "origin" (remotes token_world) = Some "https://github.com/user/repo.git"
  /\ fst (get_github_repo_name_from_remote token_world) = Ok (Some "user/repo").
Proof.
  split; [reflexivity |].
  apply (both_url_forms_give_the_name token_world "user/repo"
           "https://github.com/user/repo.git"); [reflexivity | reflexivity |].
  right. reflexivity.
Defined.

(** *** Opening a pull request *)

(** X11.  [create_pull_request] never raises.  It asks the forge for the
    repository and then for the pull request, with the fixed title and body,
    from the branch into the base; when the first request fails the second is
    not made.  It returns the number of the new pull request when both
    requests succeed, and nothing, after an error line in the log, when one
    of them fails. *)
Theorem create_pull_request_never_raises
    (token name branch base : string) (w : World) :
  let get := GetRepo token name in
  let create := CreatePull name "Automated Pull Request: Bot Update"
                  "This pull request was created automatically by the bot."
                  branch base in
  fst (create_pull_request token name branch base w)
  = Ok (match hd Done (outcomes w), hd Done (tl (outcomes w)) with
        | Done, Done => Some (forge_pr_number w)
        | _, _ => None
        end)
  /\ trace (snd (create_pull_request token name branch base w))
     = trace w ++
       match hd Done (outcomes w), hd Done (tl (outcomes w)) with
       | Failed status, _ =>
           [Api get false;
            Log ERROR "Error creating pull request: " (Some (GithubException status))]
       | Done, Failed status =>
           [Api get true; Api create false;
            Log ERROR "Error creating pull request: " (Some (GithubException status))]
       | Done, Done =>
           [Api get true; Api create true;
            Log INFO ("Created pull request #" @@ str_int (forge_pr_number w)
                      @@ " in " @@ name) None]
       end.
Proof.
  intros get create.
  unfold create_pull_request, try_except, bind, api, logging_info, logging_error, ret,
    forge_number.
  destruct (hd Done (outcomes w)); simpl_world; cbn [is_Exception fst snd].
  - destruct (hd Done (tl (outcomes w))); simpl_world; cbn [is_Exception fst snd];
      simpl_world; rewrite <- !app_assoc; split; reflexivity.
  - simpl_world. rewrite <- !app_assoc. split; reflexivity.
Qed.

(** *** Publishing with a token *)

Lemma all_done_hd (l : list outcome) :
  Forall (fun o => o = Done) l -> hd Done l = Done.
Proof. intros H. destruct l; [reflexivity | inversion H; assumption]. Qed.

Lemma create_pull_request_done token name branch base w :
  hd Done (outcomes w) = Done ->
  hd Done (tl (outcomes w)) = Done ->
  create_pull_request token name branch base w
  = (Ok (Some (forge_pr_number w)),
     emit (Log INFO ("Created pull request #" @@ str_int (forge_pr_number w)
                     @@ " in " @@ name) None)
       (emit (Api (CreatePull name "Automated Pull Request: Bot Update"
                     "This pull request was created automatically by the bot."
                     branch base) true)
          (with_outcomes (tl (tl (outcomes w)))
             (emit (Api (GetRepo token name) true) w)))).
Proof.
  intros H1 H2.
  unfold create_pull_request, try_except, bind, api, logging_info, ret, forge_number.
  rewrite H1. simpl_world. rewrite H2. reflexivity.
Qed.

Lemma review_body_of_draw (r : Z) :
  (if nth (Z.to_nat (r mod 2)) [true; false] true then review_issues else review_clean)
  = (if r mod 2 =? 0 then review_issues else review_clean).
Proof.
  pose proof (Z.mod_pos_bound r 2 ltac:(lia)) as Hm.
  destruct (Z.eqb_spec (r mod 2) 0) as [E | E].
  - rewrite E. reflexivity.
  - replace (r mod 2) with 1 by lia. reflexivity.
Qed.

Lemma simulate_code_review_done pr w :
  hd Done (outcomes w) = Done ->
  simulate_code_review pr w
  = (Ok tt,
     emit (Log INFO "Simulated code review: posted comment." None)
       (emit (Api (CreateReview pr
                     (if hd 0 (rand w) mod 2 =? 0 then review_issues else review_clean)
                     "COMMENT") true)
          (with_outcomes (tl (outcomes w)) (with_rand (tl (rand w)) w)))).
Proof.
  intros H.
  unfold simulate_code_review, try_except, bind, api, choice_true_false, logging_info.
  simpl_world. rewrite H, review_body_of_draw. reflexivity.
Qed.

Lemma publish_with_token (w : World) (name url token : string) :
  quiet w ->
  lookup "origin" (remotes w) = Some url ->
  url = "git@github.com:" @@ name @@ ".git"
  \/ url = "https://github.com/" @@ name @@ ".git" ->
  name <> "" ->
  lookup "GITHUB_TOKEN" (environ w) = Some token ->
  token <> "" ->
  let branch_name := "auto_pr_" @@ strftime_compact (now w) in
  let body := if hd 0 (rand w) mod 2 =? 0 then review_issues else review_clean in
  fst (publish w) = Ok tt
  /\ trace (snd (publish w))
     = trace w ++
       [Exec ["git"; "checkout"; "-b"; branch_name] None true;
        Log INFO ("Created and switched to branch: " @@ branch_name) None;
        Exec ["git"; "push"; "--set-upstream"; "origin"; branch_name] None true;
        Log INFO ("Pushed branch " @@ branch_name @@ " to remote.") None;
        Exec ["git"; "config"; "--get"; "remote.origin.url"] None true;
        Log INFO ("Determined GitHub repo name: " @@ name) None;
        Api (GetRepo token name) true;
        Api (CreatePull name "Automated Pull Request: Bot Update"
               "This pull request was created automatically by the bot."
               branch_name "main") true;
        Log INFO ("Created pull request #" @@ str_int (forge_pr_number w)
                  @@ " in " @@ name) None;
        Api (CreateReview (forge_pr_number w) body "COMMENT") true;
        Log INFO "Simulated code review: posted comment." None;
        Log INFO "Bot execution finished." None].
Proof.
  intros Q Hl Hu Hn Ht Htok branch_name body. unfold publish.
  erewrite bind_ok by reflexivity. fold branch_name.
  erewrite bind_ok by (apply create_new_branch_done, all_done_hd, Q).
  erewrite bind_ok
    by (apply push_branch_done; simpl_world; apply all_done_hd, all_done_tl, Q).
  erewrite bind_ok.
  2:{ apply (repo_name_of_github_url _ name url); simpl_world;
        [apply all_done_hd; do 2 apply all_done_tl; exact Q | exact Hl | exact Hu]. }
  cbn [truthy]. destruct (String.eqb_spec name ""); [contradiction |]. cbn [negb].
  erewrite bind_ok by reflexivity. simpl_world. rewrite Ht.
  cbn [truthy]. destruct (String.eqb_spec token ""); [contradiction |]. cbn [negb].
  erewrite bind_ok.
  2:{ apply create_pull_request_done; simpl_world; apply all_done_hd;
        [do 3 apply all_done_tl | do 4 apply all_done_tl]; exact Q. }
  erewrite bind_ok.
  2:{ apply simulate_code_review_done; simpl_world; apply all_done_hd;
        do 5 apply all_done_tl; exact Q. }
  cbn [fst snd logging_info]. unfold logging_info. cbn [fst snd].
  split; [reflexivity |]. simpl_world. rewrite <- !app_assoc. reflexivity.
Qed.

(** X12.  The whole of publishing, when nothing fails: with the origin at a
    github.com URL of a repository <name> (either form, <name> not empty) and
    a token in GITHUB_TOKEN, [publish] returns after, in this order, creating
    the branch, pushing it, reading the origin URL, asking the forge for the
    repository <name>, opening a pull request there from the branch into
    "main", posting one review of type COMMENT on the pull request the forge
    numbered, and logging that the run is finished. *)
Theorem publish_opens_and_reviews (w : World) (name url token : string) :
  quiet w ->
  lookup "origin" (remotes w) = Some url ->
  url = "git@github.com:" @@ name @@ ".git"
  \/ url = "https://github.com/" @@ name @@ ".git" ->
  name <> "" ->
  lookup "GITHUB_TOKEN" (environ w) = Some token ->
  token <> "" ->
  let branch_name := "auto_pr_" @@ strftime_compact (now w) in
  let body := if hd 0 (rand w) mod 2 =? 0 then review_issues else review_clean in
  fst (publish w) = Ok tt
  /\ trace (snd (publish w))
     = trace w ++
       [Exec ["git"; "checkout"; "-b"; branch_name] None true;
        Log INFO ("Created and switched to branch: " @@ branch_name) None;
        Exec ["git"; "push"; "--set-upstream"; "origin"; branch_name] None true;
        Log INFO ("Pushed branch " @@ branch_name @@ " to remote.") None;
        Exec ["git"; "config"; "--get"; "remote.origin.url"] None true;
        Log INFO ("Determined GitHub repo name: " @@ name) None;
        Api (GetRepo token name) true;
        Api (CreatePull name "Automated Pull Request: Bot Update"
               "This pull request was created automatically by the bot."
               branch_name "main") true;
        Log INFO ("Created pull request #" @@ str_int (forge_pr_number w)
                  @@ " in " @@ name) None;
        Api (CreateReview (forge_pr_number w) body "COMMENT") true;
        Log INFO "Simulated code review: posted comment." None;
        Log INFO "Bot execution finished." None].
Proof. exact (publish_with_token w name url token). Qed.

Lemma publish_opens_and_reviews_witness :
  lookup "GITHUB_TOKEN" (environ token_world) = Some "secret"
  /\ fst (publish token_world) = Ok tt.
Proof.
  split; [reflexivity |].
  apply (publish_opens_and_reviews token_world "user/repo"
           "https://github.com/user/repo.git" "secret").
  - constructor.
  - reflexivity.
  - right. reflexivity.
  - discriminate.
  - reflexivity.
  - discriminate.
Defined.

(** *** What every run of [main] does and never does *)

(** Takes [emits Q m] apart along the code of the script, leaving the
    conditions on the single events. *)
Ltac emits_script :=
  repeat first
    [ emits_step
    | apply emits_walk; intros ?
    | apply emits_for_range
    | progress unfold one_day, commit_once
    | match goal with
      | |- emits _ (if ?b then _ else _) => destruct b
      | |- emits _ (match ?x with Some _ => _ | None => _ end) => destruct x
      end ].

Lemma emits_local_phases_stay_local args :
  emits stays_local (init_repo ;; ret tt ;; simulate_commits args).
Proof.
  unfold init_repo, simulate_commits, open_activity_file, one_day, commit_once.
  emits_script; repeat split.
Qed.

(** X13.  Without a repository URL ([None], or the empty string) no run of
    [main] creates a branch, pushes, lists or adds a remote, reads the remote
    URL or calls the forge, whatever the commands answer; and a run that
    returns ends with the two log lines that the publishing is skipped and
    that the run is finished. *)
Theorem no_repository_nothing_published (args : Args) (w : World) :
  truthy (repository args) = false ->
  (exists new, trace (snd (main args w)) = trace w ++ new /\ Forall stays_local new)
  /\ (fst (main args w) = Ok tt ->
      exists before,
        trace (snd (main args w))
        = trace w ++ before
          ++ [Log INFO
                "No remote repository provided; skipping push and pull request creation."
                None;
              Log INFO "Bot execution finished." None]).
Proof.
  intros Hr.
  pose proof (emits_local_phases_stay_local args) as Hl.
  assert (Hm : forall r1 w1,
             (init_repo ;; ret tt ;; simulate_commits args) w = (r1, w1) ->
             main args w
             = match r1 with
               | Ok _ =>
                   (Ok tt,
                    emit (Log INFO "Bot execution finished." None)
                      (emit (Log INFO
                               "No remote repository provided; skipping push and pull request creation."
                               None) w1))
               | Raise e => (Raise e, w1)
               | OutOfFuel => (OutOfFuel, w1)
               end).
  { intros r1 w1. unfold main. rewrite Hr. unfold bind, ret, logging_info.
    destruct (init_repo w) as [[[] | e |] w0];
      [destruct (simulate_commits args w0) as [[[] | e |] w2] | |];
      intros E; inversion E; reflexivity. }
  destruct ((init_repo ;; ret tt ;; simulate_commits args) w) as [r1 w1] eqn:E1.
  rewrite (Hm _ _ eq_refl).
  destruct (Hl _ _ _ E1) as (new & T & F).
  destruct r1 as [[] | e |]; cbn [fst snd].
  - simpl_world. rewrite T, <- !app_assoc. split.
    + eexists. split; [reflexivity |].
      apply Forall_app. split; [exact F |]. repeat constructor.
    + intros _. exists new. reflexivity.
  - split; [eauto | discriminate].
  - split; [eauto | discriminate].
Qed.

Lemma no_repository_nothing_published_witness :
  truthy (repository sample_args_daily) = false
  /\ exists new,
       trace (snd (main sample_args_daily sample_world)) = trace sample_world ++ new
       /\ Forall stays_local new.
Proof.
  split; [reflexivity |].
  exact (proj1 (no_repository_nothing_published sample_args_daily sample_world eq_refl)).
Defined.

Lemma emits_main_dated args : emits dated_commit (main args).
Proof.
  unfold main, init_repo, set_remote, simulate_commits, open_activity_file, one_day,
    commit_once, publish, create_new_branch, push_branch,
    get_github_repo_name_from_remote, create_pull_request, simulate_code_review.
  emits_script;
    first [ exact I
          | eexists _, _; split; [reflexivity | split; [reflexivity |]];
            apply commit_env_dates ].
Qed.

(** X14.  [main] never runs [git commit] under the clock of the tool: in
    every run, whatever the configuration, the random source and the answers
    of the commands, each [git commit] has a message "Automated commit on
    <time>" for a commit time, and an environment in which GIT_AUTHOR_DATE and
    GIT_COMMITTER_DATE are both set, to the ISO form of that same time. *)
Theorem every_commit_is_dated (args : Args) (w : World) :
  exists new,
    trace (snd (main args w)) = trace w ++ new /\ Forall dated_commit new.
Proof.
  destruct (main args w) as [r w'] eqn:E. exact (emits_main_dated args _ _ _ E).
Qed.

(** *** The activity file *)

Section Extends.

Context (path : string).

Lemma extends_keeps {A} (m : M A) : keeps_files m -> extends_file path m.
Proof.
  intros H w r w' E. exists "". unfold read_file. rewrite (H _ _ _ E).
  symmetry. apply append_nil_r.
Qed.

Lemma extends_bind {A B} (m : M A) (k : A -> M B) :
  extends_file path m -> (forall a, extends_file path (k a)) ->
  extends_file path (bind m k).
Proof.
  intros Hm Hk w r w' E. unfold bind in E.
  destruct (m w) as [r1 w1] eqn:E1.
  destruct (Hm _ _ _ E1) as (s1 & F1).
  destruct r1 as [a | e |].
  - destruct (Hk a _ _ _ E) as (s2 & F2).
    exists (s1 @@ s2). rewrite F2, F1. apply append_assoc.
  - inversion E; subst. eauto.
  - inversion E; subst. eauto.
Qed.

Lemma extends_try_except {A} (body : M A) catches (handler : exn -> M A) :
  extends_file path body -> (forall e, extends_file path (handler e)) ->
  extends_file path (try_except body catches handler).
Proof.
  intros Hm Hk w r w' E. unfold try_except in E.
  destruct (body w) as [r1 w1] eqn:E1.
  destruct (Hm _ _ _ E1) as (s1 & F1).
  destruct r1 as [a | e |].
  - inversion E; subst. eauto.
  - destruct (catches e).
    + destruct (Hk e _ _ _ E) as (s2 & F2).
      exists (s1 @@ s2). rewrite F2, F1. apply append_assoc.
    + inversion E; subst. eauto.
  - inversion E; subst. eauto.
Qed.

Lemma extends_for_range n body :
  extends_file path body -> extends_file path (for_range n body).
Proof.
  intros H. induction n as [| n IH]; cbn [for_range].
  - apply extends_keeps. intros w r w' E. inversion E. reflexivity.
  - apply extends_bind; [exact H | intros _; exact IH].
Qed.

Lemma extends_file_append text : extends_file path (file_append path text).
Proof.
  intros w r w' E. inversion E; subst. exists text.
  unfold read_file at 1. simpl_world. rewrite lookup_setitem_same. reflexivity.
Qed.

Lemma extends_open_activity_file : extends_file path (open_activity_file path).
Proof.
  intros w r w' E.
  destruct (open_activity_file_ok path w) as (w0 & E0 & _ & F0 & _).
  rewrite E0 in E. inversion E; subst. rewrite F0. unfold initial_content.
  destruct (existsb (String.eqb path) (map fst (fs w))) eqn:Hex.
  - exists "". symmetry. apply append_nil_r.
  - exists ("Activity Log" @@ LF). unfold read_file.
    rewrite (existsb_lookup _ _ Hex). reflexivity.
Qed.

(** A command under which git leaves the files alone. *)
Lemma keeps_files_run argv env check :
  (forall e g out g', git_effect argv e g = inl (out, g') -> r_fs g' = r_fs g) ->
  keeps_files (run argv env check).
Proof.
  intros H w r w' E. unfold run in E.
  destruct (hd Done (outcomes w)).
  - destruct (git_effect _ _ _) as [[out g] | status] eqn:G.
    + inversion E; subst. simpl_world. exact (H _ _ _ _ G).
    + destruct check; inversion E; reflexivity.
  - destruct check; inversion E; reflexivity.
Qed.

Lemma extends_git_init check : extends_file path (run ["git"; "init"] None check).
Proof.
  intros w r w' E. unfold run in E. cbn [git_effect] in E. simpl_world.
  exists "". rewrite append_nil_r.
  destruct (hd Done (outcomes w)).
  - revert E. simpl_world.
    destruct (existsb (String.eqb ".git") (map fst (fs w))) eqn:Hex;
      intros E; inversion E; subst; unfold read_file; simpl_world; [reflexivity |].
    destruct (lookup path (fs w)) as [c |] eqn:Hl.
    + rewrite (lookup_app_l _ _ _ _ Hl). reflexivity.
    + rewrite (lookup_app_r _ _ _ Hl). cbn [lookup].
      destruct (String.eqb path ".git"); reflexivity.
  - destruct check; inversion E; reflexivity.
Qed.

End Extends.

(** Shows that a call leaves the files alone. *)
Ltac keeps_files_call :=
  first
    [ apply keeps_files_run; intros e g out g' H; cbn [git_effect] in H;
      repeat match type of H with
             | context [if ?b then _ else _] => destruct b
             | context [match ?x with Some _ => _ | None => _ end] => destruct x
             end;
      inversion H; reflexivity
    | intros w r w' E;
      first [ inversion E; reflexivity
            | unfold randint, mk_time, date_plus, api, ret, raise in E;
              repeat match type of E with
                     | context [if ?b then _ else _] => destruct b
                     | context [match ?x with _ => _ end] => destruct x
                     end;
              inversion E; reflexivity ] ].

(** Takes [extends_file path m] apart along the code of the script. *)
Ltac extends_script :=
  repeat first
    [ apply extends_open_activity_file
    | apply extends_file_append
    | apply extends_git_init
    | apply extends_for_range
    | apply extends_bind; [| intros ?]
    | apply extends_try_except; [| intros ?]
    | match goal with
      | |- extends_file _ (if ?b then _ else _) => destruct b
      | |- extends_file _ (match ?x with Some _ => _ | None => _ end) => destruct x
      end
    | apply extends_keeps; keeps_files_call ].

Lemma extends_walk path args stop :
  (forall d, extends_file path (one_day args d)) ->
  forall fuel start, extends_file path (walk fuel args stop start).
Proof.
  intros H. induction fuel as [| fuel IH]; intros start; cbn [walk].
  - apply extends_keeps. intros w r w' E. inversion E. reflexivity.
  - destruct (start <=? stop); [| apply extends_keeps; keeps_files_call].
    apply extends_bind; [apply H | intros _].
    apply extends_bind; [apply extends_keeps; keeps_files_call | intros next].
    apply IH.
Qed.

Lemma extends_main args : extends_file (file args) (main args).
Proof.
  unfold main, init_repo, set_remote, simulate_commits, publish, create_new_branch,
    push_branch, get_github_repo_name_from_remote, create_pull_request,
    simulate_code_review.
  extends_script.
  apply extends_walk. intros d. unfold one_day, commit_once. extends_script.
Qed.

(** X15.  The activity file only grows: in every run of [main], whatever the
    configuration, the random source and the answers of the commands, and
    also when the run ends with an error, the file afterwards holds what it
    held before (nothing, when it was missing) followed by what the run
    appended; nothing of it is rewritten or removed. *)
Theorem activity_file_only_grows (args : Args) (w : World) :
  exists appended,
    read_file (file args) (snd (main args w))
    = read_file (file args) w @@ appended.
Proof.
  destruct (main args w) as [r w'] eqn:E. exact (extends_main args _ _ _ E).
Qed.

(** *** The whole run *)

Lemma setup_fresh url w :
  quiet w ->
  contains "origin" (join (map (fun r => fst r @@ LF) (remotes w))) = false ->
  exists w2 new,
    (init_repo ;; set_remote url) w = (Ok tt, w2)
    /\ trace w2 = trace w ++ new
    /\ remotes w2 = remotes w ++ [("origin", url)]
    /\ environ w2 = environ w /\ today w2 = today w /\ now w2 = now w
    /\ quiet w2.
Proof.
  intros Q Hc.
  assert (H1 : exists w1 new1,
             init_repo w = (Ok tt, w1) /\ trace w1 = trace w ++ new1
             /\ remotes w1 = remotes w /\ environ w1 = environ w
             /\ today w1 = today w /\ now w1 = now w /\ quiet w1).
  { destruct (existsb (String.eqb ".git") (map fst (fs w))) eqn:H.
    - rewrite (init_repo_present w H). eexists _, _. split; [reflexivity |].
      simpl_world. repeat split. exact Q.
    - rewrite (init_repo_absent w H), (quiet_hd w Q). eexists _, _.
      split; [reflexivity |]. simpl_world. rewrite <- app_assoc.
      repeat split. unfold quiet. simpl_world. apply all_done_tl, Q. }
  destruct H1 as (w1 & new1 & E1 & T1 & M1 & V1 & D1 & N1 & Q1).
  rewrite (bind_ok _ _ _ _ _ E1).
  rewrite <- M1 in Hc.
  rewrite (set_remote_added w1 url (quiet_hd w1 Q1) (quiet_hd_tl w1 Q1) Hc).
  eexists _, _. split; [reflexivity |]. simpl_world.
  rewrite T1, M1, <- !app_assoc. repeat split; try assumption.
  unfold quiet. simpl_world. apply all_done_tl, all_done_tl, Q1.
Qed.

Lemma simulate_commits_frame args w :
  quiet w ->
  1 <= max_commits args ->
  0 < today w - days_before args <= MAXORDINAL ->
  0 < today w + days_after args < MAXORDINAL ->
  exists w' new,
    simulate_commits args w = (Ok tt, w')
    /\ trace w' = trace w ++ new
    /\ remotes w' = remotes w /\ environ w' = environ w /\ now w' = now w
    /\ quiet w'.
Proof.
  intros Q Hmax Hs He.
  rewrite simulate_commits_walks by assumption.
  destruct (open_activity_file_ok (file args) w)
    as (w0 & E0 & T0 & F0 & C0 & R0 & V0 & M0 & D0 & O0 & N0).
  rewrite (bind_ok _ _ _ _ _ E0).
  destruct (for_each_ok args
              (date_range (today w - days_before args) (today w + days_after args)) w0)
    as (w' & rs' & E1 & T1 & _ & _ & _ & V1 & M1 & N1 & Q1);
    [eapply quiet_same; eauto | exact Hmax |].
  eexists w', _. split; [exact E1 |].
  rewrite T1, T0, <- app_assoc. split; [reflexivity |].
  repeat split; congruence || exact Q1.
Qed.

(** X16.  The phases compose: in a directory where "origin" occurs in no
    remote name, with [--repository] at a github.com URL of a repository
    <name> (either form, <name> not empty), a token in GITHUB_TOKEN, and
    nothing failing (the maximum at least 1, the dates valid), [main]
    returns, and its last actions are those of publishing for that
    repository: the branch named after the clock is created and pushed, the
    origin URL read back gives <name>, the forge is asked for <name>, the
    pull request is opened in <name> from the branch into "main", and one
    review of type COMMENT is posted on it. *)
Theorem main_opens_the_pull_request (args : Args) (w : World) (name url token : string) :
  repository args = Some url ->
  url = "git@github.com:" @@ name @@ ".git"
  \/ url = "https://github.com/" @@ name @@ ".git" ->
  name <> "" ->
  contains "origin" (join (map (fun r => fst r @@ LF) (remotes w))) = false ->
  lookup "GITHUB_TOKEN" (environ w) = Some token ->
  token <> "" ->
  quiet w ->
  1 <= max_commits args ->
  0 < today w - days_before args <= MAXORDINAL ->
  0 < today w + days_after args < MAXORDINAL ->
  let branch_name := "auto_pr_" @@ strftime_compact (now w) in
  exists w' before number body,
    main args w = (Ok tt, w')
    /\ (body = review_issues \/ body = review_clean)
    /\ trace w'
       = trace w ++ before ++
         [Exec ["git"; "checkout"; "-b"; branch_name] None true;
          Log INFO ("Created and switched to branch: " @@ branch_name) None;
          Exec ["git"; "push"; "--set-upstream"; "origin"; branch_name] None true;
          Log INFO ("Pushed branch " @@ branch_name @@ " to remote.") None;
          Exec ["git"; "config"; "--get"; "remote.origin.url"] None true;
          Log INFO ("Determined GitHub repo name: " @@ name) None;
          Api (GetRepo token name) true;
          Api (CreatePull name "Automated Pull Request: Bot Update"
                 "This pull request was created automatically by the bot."
                 branch_name "main") true;
          Log INFO ("Created pull request #" @@ str_int number @@ " in " @@ name) None;
          Api (CreateReview number body "COMMENT") true;
          Log INFO "Simulated code review: posted comment." None;
          Log INFO "Bot execution finished." None].
Proof.
  intros Hr Hu Hn Hc Ht Htok Q Hmax Hs He branch_name.
  assert (Htruthy : truthy (Some url) = true)
    by (destruct Hu; subst url; reflexivity).
  destruct (setup_fresh url w Q Hc) as (w2 & new2 & E2 & T2 & M2 & V2 & D2 & N2 & Q2).
  rewrite (main_phases args w w2) by (rewrite Hr, Htruthy; exact E2).
  rewrite <- D2 in Hs, He.
  destruct (simulate_commits_frame args w2 Q2 Hmax Hs He)
    as (w3 & new3 & E3 & T3 & M3 & V3 & N3 & Q3).
  rewrite (bind_ok _ _ _ _ _ E3), Hr, Htruthy.
  assert (Hl : lookup "origin" (remotes w3) = Some url).
  { rewrite M3, M2. rewrite lookup_app_r; [cbn; reflexivity |].
    apply existsb_lookup.
    destruct (existsb (String.eqb "origin") (map fst (remotes w))) eqn:Hex; [| reflexivity].
    rewrite (contains_listing "origin" (remotes w) Hex) in Hc. discriminate. }
  destruct (publish_with_token w3 name url token Q3 Hl Hu Hn) as [Ep Tp];
    [rewrite V3, V2; exact Ht | exact Htok |].
  destruct (publish w3) as [r w'] eqn:E. cbn [fst snd] in Ep, Tp. subst r.
  exists w', (new2 ++ new3), (forge_pr_number w3),
    (if hd 0 (rand w3) mod 2 =? 0 then review_issues else review_clean).
  split; [reflexivity |]. split; [destruct (_ =? 0); auto |].
  rewrite Tp, T3, T2, N3, N2, <- !app_assoc. reflexivity.
Qed.

Lemma main_opens_the_pull_request_witness :
  lookup "GITHUB_TOKEN" (environ (with_remotes [] token_world)) = Some "secret"
  /\ exists w',
       main sample_args (with_remotes [] token_world) = (Ok tt, w').
Proof.
  split; [reflexivity |].
  destruct (main_opens_the_pull_request sample_args (with_remotes [] token_world)
              "user/repo" "git@github.com:user/repo.git" "secret")
    as (w' & before & number & body & E & _).
  - reflexivity.
  - left. reflexivity.
  - discriminate.
  - reflexivity.
  - reflexivity.
  - discriminate.
  - constructor.
  - cbn; lia.
  - unfold MAXORDINAL; cbn; lia.
  - unfold MAXORDINAL; cbn; lia.
  - exists w'. exact E.
Defined.

(** *** Weekends and the range, again *)

(** X17.  Skipping weekends is a filter on the walked dates: running the body
    of the loop over any dates does exactly what running it over the dates
    that are not skipped does, so a skipped date changes nothing for the days
    around it; with valid dates [simulate_commits] is the opening of the
    activity file followed by the days of the range that are not skipped. *)
Theorem skipped_days_are_filtered_out (args : Args) (w : World) :
  (forall dates w0,
     for_each dates (one_day args) w0
     = for_each (filter (fun d => negb (skipped args d)) dates) (one_day args) w0)
  /\ (0 < today w - days_before args <= MAXORDINAL ->
      0 < today w + days_after args < MAXORDINAL ->
      simulate_commits args w
      = (open_activity_file (file args) ;;
         for_each
           (filter (fun d => negb (skipped args d))
              (date_range (today w - days_before args) (today w + days_after args)))
           (one_day args)) w).
Proof.
  assert (H : forall dates w0,
            for_each dates (one_day args) w0
            = for_each (filter (fun d => negb (skipped args d)) dates) (one_day args) w0).
  { induction dates as [| d dates IH]; intros w0; cbn [for_each filter]; [reflexivity |].
    destruct (skipped args d) eqn:Hs; cbn [negb for_each].
    - erewrite bind_ok by (apply one_day_skipped; exact Hs). apply IH.
    - unfold bind. destruct (one_day args d w0) as [[[] | e |] w1]; try reflexivity.
      apply IH. }
  split; [exact H |].
  intros Hs He. rewrite simulate_commits_walks by assumption.
  unfold bind. destruct (open_activity_file (file args) w) as [[[] | e |] w1];
    try reflexivity.
  apply H.
Qed.

Lemma skipped_days_are_filtered_out_witness :
  simulate_commits sample_args sample_world
  = (open_activity_file "activity.txt" ;;
     for_each [738889; 738890] (one_day sample_args)) sample_world.
Proof.
  destruct (skipped_days_are_filtered_out sample_args sample_world) as (_ & H).
  apply H; unfold MAXORDINAL; cbn; lia.
Defined.

Lemma run_events_in_dates args : forall dates rs,
  Forall (fun dt => In (dt_date dt) dates /\ time_in_range (dt_time dt))
    (run_events args dates rs).
Proof.
  induction dates as [| d dates IH]; intros rs; cbn [run_events]; [constructor |].
  apply Forall_app. split.
  - unfold day_events. destruct (skipped args d); [constructor |].
    destruct (active args rs); [| constructor].
    eapply Forall_impl; [| apply drawn_times_in_range].
    intros dt [Hd Ht]. split; [left; symmetry; exact Hd | exact Ht].
  - eapply Forall_impl; [| apply IH].
    intros dt [Hd Ht]. split; [right; exact Hd | exact Ht].
Qed.

(** X18.  No commit lies outside the range: when no git command fails, the
    maximum is at least 1 and the dates are valid, the commits made by
    [simulate_commits] are those of commit times whose dates are between
    [today - days_before] and [today + days_after], both included, at a time
    of day with hour 0..23, minute 0..59 and second 0..59. *)
Theorem commits_lie_in_the_range (args : Args) (w : World) :
  quiet w ->
  1 <= max_commits args ->
  0 < today w - days_before args <= MAXORDINAL ->
  0 < today w + days_after args < MAXORDINAL ->
  exists w' evs,
    simulate_commits args w = (Ok tt, w')
    /\ commits w' = commits w ++ map commit_of evs
    /\ Forall (fun dt =>
                 today w - days_before args <= dt_date dt <= today w + days_after args
                 /\ time_in_range (dt_time dt)) evs.
Proof.
  intros Q Hmax Hs He.
  destruct (simulate_commits_events args w Q Hmax Hs He) as (w' & E & C).
  eexists w', _. split; [exact E |]. split; [exact C |].
  eapply Forall_impl; [| apply run_events_in_dates].
  intros dt [Hd Ht]. split; [| exact Ht].
  unfold date_range in Hd. rewrite dates_from_In in Hd. lia.
Qed.

Lemma commits_lie_in_the_range_witness :
  quiet sample_world
  /\ exists w' evs,
       simulate_commits sample_args sample_world = (Ok tt, w')
       /\ commits w' = commits sample_world ++ map commit_of evs
       /\ Forall (fun dt => 738889 <= dt_date dt <= 738891) evs.
Proof.
  split; [exact sample_world_quiet |].
  destruct (commits_lie_in_the_range sample_args sample_world)
    as (w' & evs & E & C & F).
  - exact sample_world_quiet.
  - cbn; lia.
  - unfold MAXORDINAL; cbn; lia.
  - unfold MAXORDINAL; cbn; lia.
  - exists w', evs. split; [exact E |]. split; [exact C |].
    eapply Forall_impl; [| exact F]. intros dt [H _]. exact H.
Defined.

(* ------------------------------------------------------------------ *)
(** ** Runs in which a command fails *)

(** *** Records and commits in every run *)

Lemma recorded_nothing file_path {A} (m : M A) :
  (forall w r w', m w = (r, w') ->
     trace w' = trace w /\ commits w' = commits w /\ environ w' = environ w) ->
  recorded file_path m.
Proof.
  intros H w r w' E. destruct (H _ _ _ E) as (T & C & V).
  exists [], []. cbn [flat_map map]. rewrite !app_nil_r. auto.
Qed.

Lemma recorded_bind file_path {A B} (m : M A) (k : A -> M B) :
  recorded file_path m -> (forall a, recorded file_path (k a)) ->
  recorded file_path (bind m k).
Proof.
  intros Hm Hk w r w' E. unfold bind in E.
  destruct (m w) as [r1 w1] eqn:E1.
  destruct (Hm _ _ _ E1) as (evs1 & tail1 & T1 & C1 & V1 & D1).
  destruct r1 as [a | e |].
  - destruct D1 as [D1 | (_ & argv & st & D1)]; [subst tail1 | discriminate].
    destruct (Hk a _ _ _ E) as (evs2 & tail2 & T2 & C2 & V2 & D2).
    exists (evs1 ++ evs2), tail2. rewrite V1 in T2, D2.
    rewrite T2, C2, T1, C1, V2, V1, flat_map_app, map_app, app_nil_r, <- !app_assoc.
    repeat split; exact D2.
  - inversion E; subst. exists evs1, tail1. repeat split; try assumption.
    destruct D1 as [D1 | (U & argv & st & D1)]; [left; exact D1 | right].
    split; [exact U |]. exists argv, st. inversion D1. reflexivity.
  - inversion E; subst. exists evs1, tail1. repeat split; try assumption.
    destruct D1 as [D1 | (_ & argv & st & D1)]; [left; exact D1 | discriminate].
Qed.

Lemma recorded_for_range file_path n body :
  recorded file_path body -> recorded file_path (for_range n body).
Proof.
  intros H. induction n as [| n IH]; cbn [for_range].
  - apply recorded_nothing. intros w r w' E. inversion E. auto.
  - apply recorded_bind; [exact H | intros _; exact IH].
Qed.

(** Shows that a call adds nothing to the trace and leaves commits and
    environment alone. *)
Ltac nothing_recorded :=
  apply recorded_nothing; intros w r w' E;
  first [ solve [inversion E; auto]
        | solve [ unfold randint, mk_time, date_plus, add_days, ret, raise in E;
                  repeat match type of E with
                         | context [if ?b then _ else _] => destruct b
                         end;
                  inversion E; auto ] ].

Lemma recorded_commit_once file_path d : recorded file_path (commit_once file_path d).
Proof.
  intros w r w' E. revert E. unfold commit_once.
  erewrite bind_ok by (apply randint_ok; lia).
  erewrite bind_ok by (apply randint_ok; lia).
  erewrite bind_ok by (apply randint_ok; lia).
  erewrite bind_ok by (apply mk_time_ok; apply randint_of_range; lia).
  erewrite bind_ok by reflexivity.
  erewrite bind_ok by reflexivity.
  set (dt := combine d _).
  unfold bind, run, logging_info. simpl_world.
  destruct (hd Done (outcomes w)) as [| st1].
  - cbn [git_effect]. simpl_world.
    destruct (hd Done (tl (outcomes w))) as [| st2].
    + cbn [git_effect]. simpl_world. intros E. inversion E; subst.
      exists [dt], []. simpl_world.
      destruct (commit_env_dates (environ w) dt) as [Ea Ec]. rewrite Ea, Ec.
      cbn [flat_map map commit_actions]. rewrite !app_nil_r, <- !app_assoc.
      repeat split. left. reflexivity.
    + intros E. inversion E; subst.
      exists [],
        [FileAppend file_path (activity_line dt);
         Exec ["git"; "add"; file_path] (Some (commit_env (environ w) dt)) true;
         Exec ["git"; "commit"; "-m"; commit_message dt]
           (Some (commit_env (environ w) dt)) false].
      simpl_world. cbn [flat_map map app]. rewrite app_nil_r, <- !app_assoc.
      split; [reflexivity |]. repeat split.
      right. split; [exists dt; right; reflexivity | eauto].
  - intros E. inversion E; subst.
    exists [],
      [FileAppend file_path (activity_line dt);
       Exec ["git"; "add"; file_path] (Some (commit_env (environ w) dt)) false].
    simpl_world. cbn [flat_map map app]. rewrite app_nil_r, <- !app_assoc.
    split; [reflexivity |]. repeat split.
    right. split; [exists dt; left; reflexivity | eauto].
Qed.

Lemma recorded_one_day args d : recorded (file args) (one_day args d).
Proof.
  unfold one_day. destruct (_ && _); [nothing_recorded |].
  apply recorded_bind; [nothing_recorded | intros draw].
  destruct (draw <=? frequency args); [| nothing_recorded].
  apply recorded_bind; [nothing_recorded | intros n].
  apply recorded_for_range, recorded_commit_once.
Qed.

Lemma recorded_walk args stop : forall fuel start,
  recorded (file args) (walk fuel args stop start).
Proof.
  induction fuel as [| fuel IH]; intros start; cbn [walk].
  - nothing_recorded.
  - destruct (start <=? stop); [| nothing_recorded].
    apply recorded_bind; [apply recorded_one_day | intros _].
    apply recorded_bind; [nothing_recorded | intros next; apply IH].
Qed.

Lemma recorded_after_opening args :
  recorded (file args)
    (today <- date_today ;;
     start_date <- date_plus today (- days_before args) ;;
     end_date <- date_plus today (days_after args) ;;
     walk (S (Z.to_nat (end_date - start_date + 1))) args end_date start_date).
Proof.
  apply recorded_bind; [nothing_recorded | intros t].
  apply recorded_bind; [nothing_recorded | intros start].
  apply recorded_bind; [nothing_recorded | intros stop].
  apply recorded_walk.
Qed.

(** C1, as the code has it.  In every run of [simulate_commits], whatever the
    git commands answer: after the opening of the file, its actions are those
    of whole commit events, for each one activity line "Update at
    <timestamp>" appended, one [git add] and one [git commit] run with
    success under an environment that sets both date variables to the event's
    timestamp, with the message "Automated commit on <timestamp>", and the
    repository gains exactly one commit for each of these events, with those
    dates and that message; this is followed by nothing, or by the start of
    one more event that a failing [git add] or [git commit] cut short, with
    its activity line appended and no commit, on which the run ends with the
    command's [CalledProcessError].  When no git command fails (the maximum
    at least 1, the dates valid) the run returns, the events are all those
    generated and the file holds exactly one more line for each. *)
Theorem one_record_one_commit_unless_git_fails (args : Args) (w : World) :
  (exists evs tail,
     trace (snd (simulate_commits args w))
     = trace w ++ file_actions (file args) w
       ++ flat_map (commit_actions (file args) (environ w)) evs ++ tail
     /\ commits (snd (simulate_commits args w)) = commits w ++ map commit_of evs
     /\ (tail = []
         \/ (unfinished (file args) (environ w) tail
             /\ exists argv status,
                  fst (simulate_commits args w)
                  = Raise (CalledProcessError argv status))))
  /\ (quiet w ->
      1 <= max_commits args ->
      0 < today w - days_before args <= MAXORDINAL ->
      0 < today w + days_after args < MAXORDINAL ->
      let evs := run_events args
                   (date_range (today w - days_before args) (today w + days_after args))
                   (rand w) in
      exists w',
        simulate_commits args w = (Ok tt, w')
        /\ trace w' = trace w ++ file_actions (file args) w
                       ++ flat_map (commit_actions (file args) (environ w)) evs
        /\ commits w' = commits w ++ map commit_of evs
        /\ read_file (file args) w'
           = initial_content (file args) w @@ join (map activity_line evs)
        /\ (forall dt,
              lookup "GIT_AUTHOR_DATE" (commit_env (environ w) dt) = Some (isoformat dt)
              /\ lookup "GIT_COMMITTER_DATE" (commit_env (environ w) dt)
                 = Some (isoformat dt)
              /\ activity_line dt = "Update at " @@ str_datetime dt @@ LF
              /\ commit_message dt = "Automated commit on " @@ strftime_ymd_hms dt)).
Proof.
  split; [| exact (simulate_commits_when_git_works args w)].
  unfold simulate_commits.
  destruct (open_activity_file_ok (file args) w)
    as (w0 & E0 & T0 & _ & C0 & _ & V0 & _).
  rewrite (bind_ok _ _ _ _ _ E0).
  match goal with
  | |- context [fst (?m w0)] => destruct (m w0) as [r w'] eqn:E
  end.
  destruct (recorded_after_opening args _ _ _ E) as (evs & tail & T & C & _ & D).
  exists evs, tail. cbn [fst snd]. rewrite T, C, T0, C0, V0, <- !app_assoc.
  rewrite V0 in D. auto.
Qed.

Lemma one_record_one_commit_unless_git_fails_witness :
  quiet sample_world
  /\ 1 <= max_commits sample_args
  /\ exists w',
       simulate_commits sample_args sample_world = (Ok tt, w')
       /\ List.length (commits w') = 4%nat.
Proof.
  split; [exact sample_world_quiet |]. split; [cbn; lia |].
  destruct (one_record_one_commit_unless_git_fails sample_args sample_world) as [_ H].
  destruct H as (w' & E & T & C & _).
  - exact sample_world_quiet.
  - cbn; lia.
  - unfold MAXORDINAL; cbn; lia.
  - unfold MAXORDINAL; cbn; lia.
  - exists w'. split; [exact E |]. rewrite C. reflexivity.
Defined.

(** C1 as stated does not hold: here [git add] fails for the one commit
    event of the run; its activity line is appended to the file, and no
    commit is made and no [git commit] is run for it. *)
Lemma git_add_failure_leaves_a_record_without_commit :
  In (FileAppend "activity.txt" (activity_line (drawn_time 738891 [])))
     (trace (snd (simulate_commits local_args failing_add_world)))
  /\ read_file "activity.txt" (snd (simulate_commits local_args failing_add_world))
     = "Activity Log" @@ LF @@ activity_line (drawn_time 738891 [])
  /\ commits (snd (simulate_commits local_args failing_add_world)) = []
  /\ Forall (fun e => is_exec_of ["git"; "commit"] e = false)
       (trace (snd (simulate_commits local_args failing_add_world))).
Proof.
  split; [vm_compute; auto 10 |]. split; [reflexivity |]. split; [reflexivity |].
  vm_compute. repeat constructor.
Qed.

(** *** Runs without a token *)

Lemma offline_prim {A} (m : M A) :
  emits (fun e => is_api e = false) m ->
  (forall w r w', m w = (r, w') -> environ w' = environ w) ->
  offline m.
Proof.
  intros He Hv w r w' I E. split; [| exact (He _ _ _ E)].
  unfold no_token in *. rewrite (Hv _ _ _ E). exact I.
Qed.

Lemma offline_bind_post {A B} (R : A -> Prop) (m : M A) (k : A -> M B) :
  offline m ->
  (forall w a w', no_token w -> m w = (Ok a, w') -> R a) ->
  (forall a, R a -> offline (k a)) ->
  offline (bind m k).
Proof.
  intros Hm HR Hk w r w' I E. unfold bind in E.
  destruct (m w) as [r1 w1] eqn:E1.
  destruct (Hm _ _ _ I E1) as (I1 & n1 & T1 & F1).
  destruct r1 as [a | e |].
  - destruct (Hk a (HR _ _ _ I E1) _ _ _ I1 E) as (I2 & n2 & T2 & F2).
    split; [exact I2 |]. exists (n1 ++ n2). rewrite T2, T1, app_assoc.
    split; [reflexivity | apply Forall_app; split; assumption].
  - inversion E; subst. eauto.
  - inversion E; subst. eauto.
Qed.

Lemma offline_bind {A B} (m : M A) (k : A -> M B) :
  offline m -> (forall a, offline (k a)) -> offline (bind m k).
Proof. intros Hm Hk. apply (offline_bind_post (fun _ => True)); auto. Qed.

Lemma offline_try_except {A} (body : M A) catches (handler : exn -> M A) :
  offline body -> (forall e, offline (handler e)) ->
  offline (try_except body catches handler).
Proof.
  intros Hm Hk w r w' I E. unfold try_except in E.
  destruct (body w) as [r1 w1] eqn:E1.
  destruct (Hm _ _ _ I E1) as (I1 & n1 & T1 & F1).
  destruct r1 as [a | e |].
  - inversion E; subst. eauto.
  - destruct (catches e).
    + destruct (Hk e _ _ _ I1 E) as (I2 & n2 & T2 & F2).
      split; [exact I2 |]. exists (n1 ++ n2). rewrite T2, T1, app_assoc.
      split; [reflexivity | apply Forall_app; split; assumption].
    + inversion E; subst. eauto.
  - inversion E; subst. eauto.
Qed.

(** Shows [offline] for one call that is no forge request. *)
Ltac offline_call :=
  apply offline_prim;
  [ solve [emits_step; try intros ?; reflexivity | emits_step]
  | intros w r w' E;
    first
      [ solve [inversion E; reflexivity]
      | solve [ unfold randint, mk_time, date_plus, add_days, ret, raise in E;
                repeat match type of E with
                       | context [if ?b then _ else _] => destruct b
                       end;
                inversion E; reflexivity ]
      | solve [destruct (run_inv _ _ _ _ _ _ E) as (_ & _ & H & _); exact H] ] ].

Lemma offline_for_range n body : offline body -> offline (for_range n body).
Proof.
  intros H. induction n as [| n IH]; cbn [for_range].
  - offline_call.
  - apply offline_bind; [exact H | intros _; exact IH].
Qed.

Lemma offline_walk args stop :
  (forall d, offline (one_day args d)) ->
  forall fuel start, offline (walk fuel args stop start).
Proof.
  intros H. induction fuel as [| fuel IH]; intros start; cbn [walk].
  - apply offline_prim.
    + apply emits_silent. intros w r w' E. inversion E. reflexivity.
    + intros w r w' E. inversion E. reflexivity.
  - destruct (start <=? stop); [| offline_call].
    apply offline_bind; [apply H | intros _].
    apply offline_bind; [offline_call | intros next; apply IH].
Qed.

(** Takes [offline m] apart along the code of the script. *)
Ltac offline_script :=
  repeat first
    [ apply offline_for_range
    | apply offline_walk; intros ?
    | progress unfold one_day, commit_once
    | match goal with
      | |- offline (if ?b then _ else _) => destruct b
      | |- offline (match ?x with Some _ => _ | None => _ end) => destruct x
      end
    | offline_call
    | apply offline_bind; [| intros ?]
    | apply offline_try_except; [| intros ?] ].

Lemma offline_init_repo : offline init_repo.
Proof. unfold init_repo. offline_script. Qed.

Lemma offline_set_remote url : offline (set_remote url).
Proof. unfold set_remote. offline_script. Qed.

Lemma offline_simulate_commits args : offline (simulate_commits args).
Proof. unfold simulate_commits, open_activity_file. offline_script. Qed.

Lemma offline_publish : offline publish.
Proof.
  unfold publish.
  apply offline_bind; [offline_call | intros t].
  apply offline_bind; [unfold create_new_branch; offline_script | intros _].
  apply offline_bind; [unfold push_branch; offline_script | intros _].
  apply offline_bind;
    [unfold get_github_repo_name_from_remote; offline_script | intros name].
  destruct (negb (truthy name)); [offline_call |].
  apply (offline_bind_post (fun token => truthy token = false)).
  - offline_call.
  - intros w a w' I E. inversion E; subst. exact I.
  - intros token Ht. rewrite Ht. cbn [negb]. offline_call.
Qed.

Lemma offline_main args : offline (main args).
Proof.
  unfold main.
  apply offline_bind; [apply offline_init_repo | intros _].
  apply offline_bind.
  { destruct (truthy _); [apply offline_set_remote | offline_call]. }
  intros _. apply offline_bind; [apply offline_simulate_commits | intros _].
  destruct (truthy _); [apply offline_publish | offline_script].
Qed.

Lemma push_branch_failed branch_name w status :
  hd Done (outcomes w) = Failed status ->
  push_branch branch_name w
  = (Ok tt,
     emit (Log ERROR ("Error pushing branch " @@ branch_name @@ ": ")
             (Some (CalledProcessError
                      ["git"; "push"; "--set-upstream"; "origin"; branch_name] status)))
       (emit (Exec ["git"; "push"; "--set-upstream"; "origin"; branch_name] None false)
          (with_outcomes (tl (outcomes w)) w))).
Proof.
  intros Ho. unfold push_branch, try_except, bind, run. rewrite Ho. reflexivity.
Qed.

(** The end of [publish], from the reading of the origin URL on, without a
    token. *)
Lemma resolve_without_token branch_name w :
  no_token w ->
  exists w' mid msg,
    (github_repo_name <- get_github_repo_name_from_remote ;;
     if negb (truthy github_repo_name) then
       logging_error "Could not determine GitHub repo name. Exiting." None
     else
       github_token <- os_getenv "GITHUB_TOKEN" ;;
       if negb (truthy github_token) then
         logging_error "GITHUB_TOKEN environment variable not set. Exiting." None
       else
         pr <- create_pull_request (match github_token with Some t => t | None => "" end)
                 (match github_repo_name with Some n => n | None => "" end)
                 branch_name "main" ;;
         match pr with
         | Some number => simulate_code_review number
         | None => logging_error "Pull request creation failed." None
         end ;;
         logging_info "Bot execution finished.") w = (Ok tt, w')
    /\ trace w' = trace w ++ mid ++ [Log ERROR msg None]
    /\ Forall (fun e => is_api e = false) mid
    /\ (msg = "GITHUB_TOKEN environment variable not set. Exiting."
        \/ msg = "Could not determine GitHub repo name. Exiting.").
Proof.
  intros I.
  assert (Hfail : (exists status, hd Done (outcomes w) = Failed status)
                  \/ lookup "origin" (remotes w) = None ->
                  exists w' mid msg,
                    (github_repo_name <- get_github_repo_name_from_remote ;;
                     if negb (truthy github_repo_name) then
                       logging_error "Could not determine GitHub repo name. Exiting." None
                     else
                       github_token <- os_getenv "GITHUB_TOKEN" ;;
                       if negb (truthy github_token) then
                         logging_error
                           "GITHUB_TOKEN environment variable not set. Exiting." None
                       else
                         pr <- create_pull_request
                                 (match github_token with Some t => t | None => "" end)
                                 (match github_repo_name with Some n => n | None => "" end)
                                 branch_name "main" ;;
                         match pr with
                         | Some number => simulate_code_review number
                         | None => logging_error "Pull request creation failed." None
                         end ;;
                         logging_info "Bot execution finished.") w = (Ok tt, w')
                    /\ trace w' = trace w ++ mid ++ [Log ERROR msg None]
                    /\ Forall (fun e => is_api e = false) mid
                    /\ (msg = "GITHUB_TOKEN environment variable not set. Exiting."
                        \/ msg = "Could not determine GitHub repo name. Exiting.")).
  { intros H. destruct (repo_name_unread w H) as [status E].
    erewrite bind_ok by exact E. cbn [truthy negb].
    eexists.
    exists [Exec ["git"; "config"; "--get"; "remote.origin.url"] None false;
            Log ERROR "Error getting GitHub repo name: "
              (Some (CalledProcessError ["git"; "config"; "--get"; "remote.origin.url"]
                       status))],
           "Could not determine GitHub repo name. Exiting.".
    split; [reflexivity |]. simpl_world. rewrite <- !app_assoc.
    split; [reflexivity |]. split; [| right; reflexivity]. repeat constructor. }
  destruct (hd Done (outcomes w)) as [| status] eqn:Ho; [| apply Hfail; eauto].
  destruct (lookup "origin" (remotes w)) as [url |] eqn:Hl; [| apply Hfail; auto].
  erewrite bind_ok by (apply (repo_name_read _ url); assumption).
  cbv zeta. set (name := without_git_suffix _).
  destruct (truthy (Some name)) eqn:Hn; cbn [negb].
  - erewrite bind_ok by reflexivity. simpl_world.
    unfold no_token in I. rewrite I. cbn [negb].
    eexists.
    exists [Exec ["git"; "config"; "--get"; "remote.origin.url"] None true;
            Log INFO ("Determined GitHub repo name: " @@ name) None],
           "GITHUB_TOKEN environment variable not set. Exiting.".
    split; [reflexivity |]. simpl_world. rewrite <- !app_assoc.
    split; [reflexivity |]. split; [| left; reflexivity]. repeat constructor.
  - eexists.
    exists [Exec ["git"; "config"; "--get"; "remote.origin.url"] None true;
            Log INFO ("Determined GitHub repo name: " @@ name) None],
           "Could not determine GitHub repo name. Exiting.".
    split; [reflexivity |]. simpl_world. rewrite <- !app_assoc.
    split; [reflexivity |]. split; [| right; reflexivity]. repeat constructor.
Qed.

Lemma publish_without_token w :
  hd Done (outcomes w) = Done ->
  no_token w ->
  let branch_name := "auto_pr_" @@ strftime_compact (now w) in
  exists w' pushed logline mid msg,
    publish w = (Ok tt, w')
    /\ trace w' = trace w ++
         [Exec ["git"; "checkout"; "-b"; branch_name] None true;
          Log INFO ("Created and switched to branch: " @@ branch_name) None;
          Exec ["git"; "push"; "--set-upstream"; "origin"; branch_name] None pushed;
          logline]
         ++ mid ++ [Log ERROR msg None]
    /\ is_error_log logline = negb pushed
    /\ Forall (fun e => is_api e = false) mid
    /\ (msg = "GITHUB_TOKEN environment variable not set. Exiting."
        \/ msg = "Could not determine GitHub repo name. Exiting.").
Proof.
  intros Ho I branch_name. unfold publish.
  erewrite bind_ok by reflexivity. fold branch_name.
  erewrite bind_ok by (apply create_new_branch_done; exact Ho).
  destruct (hd Done (tl (outcomes w))) as [| status] eqn:Hp.
  - erewrite bind_ok by (apply push_branch_done; simpl_world; exact Hp).
    match goal with
    | |- context [bind get_github_repo_name_from_remote ?k ?w2] =>
        destruct (resolve_without_token branch_name w2)
          as (w' & mid & msg & E & T & F & Hm); [exact I |]
    end.
    exists w', true, (Log INFO ("Pushed branch " @@ branch_name @@ " to remote.") None),
      mid, msg.
    split; [exact E |]. rewrite T. simpl_world. rewrite <- !app_assoc. auto.
  - erewrite bind_ok by (apply push_branch_failed; simpl_world; exact Hp).
    match goal with
    | |- context [bind get_github_repo_name_from_remote ?k ?w2] =>
        destruct (resolve_without_token branch_name w2)
          as (w' & mid & msg & E & T & F & Hm); [exact I |]
    end.
    exists w', false,
      (Log ERROR ("Error pushing branch " @@ branch_name @@ ": ")
         (Some (CalledProcessError
                  ["git"; "push"; "--set-upstream"; "origin"; branch_name] status))),
      mid, msg.
    split; [exact E |]. rewrite T. simpl_world. rewrite <- !app_assoc. auto.
Qed.

(** C8, as the code has it.  With a repository URL configured and
    GITHUB_TOKEN unset or empty: no run of [main] makes a request to the
    forge, whatever the commands answer and however the run ends.  A run need
    not reach the publishing nor create the branch; when its first three
    phases return and the branch is created, [main] returns normally after
    creating the branch, running the push (a failed push is logged and does
    not stop it) and logging, as its last action, the error that the token is
    missing or, when the origin URL gives no repository name, that error.
    When no external call fails at all (the maximum at least 1, the dates
    valid), [main] returns normally with the branch created and pushed. *)
Theorem token_unset_no_forge_call (args : Args) (w : World) (url : string) :
  repository args = Some url -> url <> "" ->
  no_token w ->
  (exists new,
     trace (snd (main args w)) = trace w ++ new
     /\ Forall (fun e => is_api e = false) new)
  /\ (forall w1 w2 w3,
        init_repo w = (Ok tt, w1) -> set_remote url w1 = (Ok tt, w2) ->
        simulate_commits args w2 = (Ok tt, w3) ->
        hd Done (outcomes w3) = Done ->
        let branch_name := "auto_pr_" @@ strftime_compact (now w3) in
        exists w' pushed logline mid msg,
          main args w = (Ok tt, w')
          /\ trace w' = trace w3 ++
               [Exec ["git"; "checkout"; "-b"; branch_name] None true;
                Log INFO ("Created and switched to branch: " @@ branch_name) None;
                Exec ["git"; "push"; "--set-upstream"; "origin"; branch_name] None pushed;
                logline]
               ++ mid ++ [Log ERROR msg None]
          /\ is_error_log logline = negb pushed
          /\ Forall (fun e => is_api e = false) mid
          /\ (msg = "GITHUB_TOKEN environment variable not set. Exiting."
              \/ msg = "Could not determine GitHub repo name. Exiting."))
  /\ (quiet w ->
      1 <= max_commits args ->
      0 < today w - days_before args <= MAXORDINAL ->
      0 < today w + days_after args < MAXORDINAL ->
      let branch_name := "auto_pr_" @@ strftime_compact (now w) in
      exists w' before mid msg,
        main args w = (Ok tt, w')
        /\ trace w' = trace w ++ before ++
             [Exec ["git"; "checkout"; "-b"; branch_name] None true;
              Log INFO ("Created and switched to branch: " @@ branch_name) None;
              Exec ["git"; "push"; "--set-upstream"; "origin"; branch_name] None true;
              Log INFO ("Pushed branch " @@ branch_name @@ " to remote.") None]
             ++ mid ++ [Log ERROR msg None]
        /\ Forall (fun e => is_api e = false) (before ++ mid)
        /\ (msg = "GITHUB_TOKEN environment variable not set. Exiting."
            \/ msg = "Could not determine GitHub repo name. Exiting.")).
Proof.
  intros Hr Hu I. split; [| split].
  - destruct (main args w) as [r w'] eqn:E.
    exact (proj2 (offline_main args _ _ _ I E)).
  - intros w1 w2 w3 E1 E2 E3 Ho branch_name.
    assert (I3 : no_token w3).
    { apply (offline_simulate_commits args _ _ _
               (proj1 (offline_set_remote url _ _ _
                         (proj1 (offline_init_repo _ _ _ I E1)) E2)) E3). }
    destruct (publish_without_token w3 Ho I3)
      as (w' & pushed & logline & mid & msg & E & H).
    exists w', pushed, logline, mid, msg. split; [| exact H].
    unfold main. rewrite Hr. cbn [truthy].
    destruct (String.eqb_spec url ""); [contradiction |]. cbn [negb].
    rewrite (bind_ok _ _ _ _ _ E1), (bind_ok _ _ _ _ _ E2), (bind_ok _ _ _ _ _ E3).
    exact E.
  - exact (main_without_token_when_nothing_fails args w url Hr Hu I).
Qed.

Lemma token_unset_no_forge_call_witness :
  no_token sample_world
  /\ (exists new,
        trace (snd (main sample_args sample_world)) = trace sample_world ++ new
        /\ Forall (fun e => is_api e = false) new)
  /\ exists w', main sample_args sample_world = (Ok tt, w').
Proof.
  assert (I : no_token sample_world) by reflexivity.
  destruct (token_unset_no_forge_call sample_args sample_world
              "git@github.com:user/repo.git" eq_refl) as (H1 & _ & H3).
  - discriminate.
  - exact I.
  - split; [exact I |]. split; [exact H1 |].
    destruct H3 as (w' & before & mid & msg & E & _).
    + exact sample_world_quiet.
    + cbn; lia.
    + unfold MAXORDINAL; cbn; lia.
    + unfold MAXORDINAL; cbn; lia.
    + exists w'. exact E.
Defined.

(** C8 as stated does not hold: here a repository URL is configured, there
    is no token, and the creation of the branch fails; the run ends with
    [SystemExit] and nothing is pushed. *)
Lemma branch_failure_ends_the_run_without_token :
  truthy (repository no_token_args) = true
  /\ no_token failing_branch_world
  /\ fst (main no_token_args failing_branch_world)
     = Raise (SystemExit "Branch creation failed.")
  /\ Forall (fun e => is_exec_of ["git"; "push"] e = false)
       (trace (snd (main no_token_args failing_branch_world))).
Proof.
  split; [reflexivity |]. split; [reflexivity |]. split; [reflexivity |].
  vm_compute. repeat constructor.
Qed.
